(** * Stored-procedure output validator: value comparison, row alignment
      and mismatch report of [store_proc_validator.py]

    The definitions follow the script top-down:
    - [Py]        exceptions of the Python run time as an error monad;
    - [PyStr]     the [str] methods the comparator uses ([strip], [lower]);
    - [PyFloat]   [float(str)], [round(x, ndigits)] and [==] on binary64;
    - [Validator] cell values, [safe_equals], the frames, [sort_values],
                  the comparison loop and the whole run.
    The facts come after them: [PyFloatFacts] (conversion and rounding
    stay in range), [ComparatorFacts] ([safe_equals]), [SortFacts]
    (orders and [sort_values]), [IntrosortFacts] (numpy's introsort
    returns the ascending order), [LoopFacts] and [RunFacts] (the
    report).

    Text is modelled over the 8-bit code points U+0000..U+00FF (the
    characters of [Ascii.ascii]); binary64 numbers are [spec_float]s in
    the canonical form of the Standard Library's [SpecFloat]. *)

From Stdlib Require Import ZArith String Ascii List Lia Bool DecimalString.
From Stdlib Require Import Floats.SpecFloat.
From Stdlib Require Import Sorting.Sorted Sorting.Permutation.
From stdpp Require Import gmap strings list sorting.

Local Open Scope string_scope.
Local Open Scope Z_scope.
Local Open Scope list_scope.

(** * Exceptions *)

Module Py.

Inductive exn : Type :=
| ValueError
| TypeError
| KeyError
| OverflowError.

Inductive result (A : Type) : Type :=
| Ok (a : A)
| Raise (e : exn).

Arguments Ok {A} a.
Arguments Raise {A} e.

Definition bind {A B : Type} (r : result A) (k : A -> result B) : result B :=
  match r with
  | Ok a => k a
  | Raise e => Raise e
  end.

Definition exn_eqb (e1 e2 : exn) : bool :=
  match e1, e2 with
  | ValueError, ValueError | TypeError, TypeError
  | KeyError, KeyError | OverflowError, OverflowError => true
  | _, _ => false
  end.

(** [try: body  except (handled...): pass]: a handled exception ends the
    block normally, with the value [fallthrough]; any other one escapes. *)
Definition try_except_pass {A : Type} (body : result A) (handled : list exn)
    (fallthrough : A) : result A :=
  match body with
  | Ok a => Ok a
  | Raise e => if existsb (exn_eqb e) handled then Ok fallthrough else Raise e
  end.

(** Left fold of a fallible step over a list: a [for] loop whose body may raise. *)
Fixpoint for_each {A S : Type} (body : S -> A -> result S) (l : list A) (s : S)
    : result S :=
  match l with
  | [] => Ok s
  | x :: l' => bind (body s x) (for_each body l')
  end.

End Py.

Import Py.

Notation "'let!' x ':=' c1 'in' c2" := (Py.bind c1 (fun x => c2))
  (at level 10, x binder, c1 at level 100, c2 at level 200).

(** * Strings *)

Module PyStr.

Definition code (c : ascii) : Z := Z.of_N (N_of_ascii c).

(** [str.isspace] on one character of the Latin-1 range. *)
Definition isspace (c : ascii) : bool :=
  let n := code c in
  ((9 <=? n) && (n <=? 13)) || ((28 <=? n) && (n <=? 32))
  || (n =? 133) || (n =? 160).

(** C [Py_ISSPACE], after the conversion [float] applies to its argument:
    ASCII white space, plus the non-ASCII spaces that were turned into ' '. *)
Definition isspace_float (c : ascii) : bool :=
  let n := code c in
  ((9 <=? n) && (n <=? 13)) || (n =? 32) || (n =? 133) || (n =? 160).

Definition lower_char (c : ascii) : ascii :=
  let n := code c in
  if ((65 <=? n) && (n <=? 90))
     || ((192 <=? n) && (n <=? 222) && negb (n =? 215))
  then ascii_of_N (Z.to_N (n + 32)) else c.

Fixpoint lstrip_with (sp : ascii -> bool) (l : list ascii) : list ascii :=
  match l with
  | [] => []
  | c :: r => if sp c then lstrip_with sp r else l
  end.

Definition strip_with (sp : ascii -> bool) (l : list ascii) : list ascii :=
  rev (lstrip_with sp (rev (lstrip_with sp l))).

(** [s.strip()] *)
Definition strip (s : string) : string :=
  string_of_list_ascii (strip_with isspace (list_ascii_of_string s)).

(** [s.lower()] *)
Fixpoint lower (s : string) : string :=
  match s with
  | EmptyString => EmptyString
  | String c r => String (lower_char c) (lower r)
  end.

(** Truth value of a string: [if s] *)
Definition truthy (s : string) : bool :=
  match s with
  | EmptyString => false
  | String _ _ => true
  end.

End PyStr.

(** * Binary64 numbers *)

Module PyFloat.

Definition pyfloat : Type := spec_float.

Definition isnan (x : pyfloat) : bool :=
  match x with
  | S754_nan => true
  | _ => false
  end.

(** Nearest integer to [a / b] ([0 <= a], [0 < b]), ties to even. *)
Definition round_half_even_div (a b : Z) : Z :=
  let q := a / b in
  let r := a mod b in
  match 2 * r ?= b with
  | Lt => q
  | Gt => q + 1
  | Eq => if Z.even q then q else q + 1
  end.

(** [n / (d * 2^e)] as a fraction of integers, for either sign of [e]. *)
Definition scale_num (n e : Z) : Z := if e <? 0 then n * 2 ^ (- e) else n.
Definition scale_den (d e : Z) : Z := if e <? 0 then d else d * 2 ^ e.

(** Exponent of the last place of [n / d] in binary64: the [e] with
    [2^52 <= n / (d * 2^e) < 2^53], but never below the subnormal
    exponent [-1074]. *)
Definition binade (n d : Z) : Z :=
  let e0 := Z.log2 n - Z.log2 d - 53 in
  let e1 := if 2 ^ 53 * scale_den d e0 <=? scale_num n e0 then e0 + 1 else e0 in
  Z.max e1 (-1074).

(** The binary64 number nearest to [n / d], ties to even, with sign [neg];
    overflow gives an infinity. This is what a correctly rounded decimal
    to binary conversion ([strtod]) computes from the decimal digits. *)
Definition double_of_ratio (neg : bool) (n d : Z) : pyfloat :=
  if n <=? 0 then S754_zero neg
  else
    let e := binade n d in
    let m := round_half_even_div (scale_num n e) (scale_den d e) in
    let m' := if m =? 2 ^ 53 then 2 ^ 52 else m in
    let e' := if m =? 2 ^ 53 then e + 1 else e in
    if m' <=? 0 then S754_zero neg
    else if 971 <? e' then S754_infinity neg
    else S754_finite neg (Z.to_pos m') e'.

(** ** [float(s)] *)

Definition is_digit (c : ascii) : bool :=
  let n := PyStr.code c in (48 <=? n) && (n <=? 57).

Definition digit_val (c : ascii) : Z := PyStr.code c - 48.

Definition is_char (c : ascii) (n : Z) : bool := PyStr.code c =? n.

(** Underscores are accepted between two digits only and are dropped
    (the loop of [_Py_string_to_number_with_underscores]). *)
Fixpoint drop_underscores (prev : option ascii) (l : list ascii)
    : option (list ascii) :=
  match l with
  | [] =>
      match prev with
      | Some p => if is_char p 95 then None else Some []
      | None => Some []
      end
  | c :: r =>
      if is_char c 95 then
        match prev with
        | Some p => if is_digit p then drop_underscores (Some c) r else None
        | None => None
        end
      else
        match prev with
        | Some p =>
            if is_char p 95 && negb (is_digit c) then None
            else option_map (cons c) (drop_underscores (Some c) r)
        | None => option_map (cons c) (drop_underscores (Some c) r)
        end
  end.

(** A run of decimal digits: its value continued from [acc], how many
    digits were read, and the rest of the input. *)
Fixpoint digits (l : list ascii) (acc : Z) (count : Z) : Z * Z * list ascii :=
  match l with
  | c :: r => if is_digit c then digits r (10 * acc + digit_val c) (count + 1)
              else (acc, count, l)
  | [] => (acc, count, l)
  end.

Definition sign_of (l : list ascii) : bool * list ascii :=
  match l with
  | c :: r => if is_char c 45 then (true, r)
              else if is_char c 43 then (false, r)
              else (false, l)
  | [] => (false, l)
  end.

(** Optional exponent part: [(e|E) [+|-] digit+]. Without a digit after
    the marker the marker is not consumed. *)
Definition exponent (l : list ascii) : Z * list ascii :=
  match l with
  | c :: r =>
      if is_char c 101 || is_char c 69 then
        let '(neg, r1) := sign_of r in
        let '(v, cnt, r2) := digits r1 0 0 in
        if cnt =? 0 then (0, l) else ((if neg then - v else v), r2)
      else (0, l)
  | [] => (0, l)
  end.

(** Decimal literal: sign, digits with an optional point, exponent; the
    whole input must be consumed. The value is [m * 10 ^ e]. *)
Definition decimal_literal (l : list ascii) : option (bool * Z * Z) :=
  let '(neg, l1) := sign_of l in
  let '(ip, icnt, l2) := digits l1 0 0 in
  let '(m, fcnt, l3) :=
    match l2 with
    | c :: r => if is_char c 46 then
                  let '(m, total, l3) := digits r ip icnt in (m, total - icnt, l3)
                else (ip, 0, l2)
    | [] => (ip, 0, l2)
    end in
  if icnt + fcnt =? 0 then None
  else
    let '(ex, l4) := exponent l3 in
    match l4 with
    | [] => Some (neg, m, ex - fcnt)
    | _ :: _ => None
    end.

Definition lower_list (l : list ascii) : list ascii := map PyStr.lower_char l.

(** [inf], [infinity] and [nan], in any case, with an optional sign. *)
Definition inf_or_nan (l : list ascii) : option pyfloat :=
  let '(neg, r) := sign_of l in
  let w := string_of_list_ascii (lower_list r) in
  if String.eqb w "inf" || String.eqb w "infinity" then Some (S754_infinity neg)
  else if String.eqb w "nan" then Some S754_nan
  else None.

Definition double_of_decimal (neg : bool) (m e : Z) : pyfloat :=
  if e <? 0 then double_of_ratio neg m (10 ^ (- e))
  else double_of_ratio neg (m * 10 ^ e) 1.

Definition has_underscore (l : list ascii) : bool :=
  existsb (fun c => is_char c 95) l.

(** [float(s)] for a string argument; raises [ValueError] when [s] is not
    a number. *)
Definition float_of_string (s : string) : result pyfloat :=
  let l := list_ascii_of_string s in
  match (if has_underscore l then drop_underscores None l else Some l) with
  | None => Raise ValueError
  | Some l1 =>
      let l2 := PyStr.strip_with PyStr.isspace_float l1 in
      match decimal_literal l2 with
      | Some (neg, m, e) => Ok (double_of_decimal neg m e)
      | None =>
          match inf_or_nan l2 with
          | Some x => Ok x
          | None => Raise ValueError
          end
      end
  end.

(** ** [round(x, ndigits)] *)

Definition sign_bit (x : pyfloat) : bool :=
  match x with
  | S754_zero s | S754_infinity s | S754_finite s _ _ => s
  | S754_nan => false
  end.

(** [double_round]: the decimal digits of [x] correctly rounded at
    [ndigits] places (ties to even on the exact binary value), converted
    back to binary64; a result out of range raises [OverflowError]. *)
Definition double_round (x : pyfloat) (ndigits : Z) : result pyfloat :=
  match x with
  | S754_finite s m e =>
      let pn := if ndigits <? 0 then 1 else 10 ^ ndigits in
      let pd := if ndigits <? 0 then 10 ^ (- ndigits) else 1 in
      let N := round_half_even_div (scale_num (Z.pos m * pn) (- e))
                                   (scale_den pd (- e)) in
      match double_of_ratio s (N * pd) pn with
      | S754_infinity _ => Raise OverflowError
      | r => Ok r
      end
  | _ => Ok x
  end.

Definition NDIGITS_MAX : Z := 323.
Definition NDIGITS_MIN : Z := -308.

Definition round (x : pyfloat) (ndigits : Z) : result pyfloat :=
  match x with
  | S754_nan | S754_infinity _ => Ok x
  | _ =>
      if NDIGITS_MAX <? ndigits then Ok x
      else if ndigits <? NDIGITS_MIN then Ok (S754_zero (sign_bit x))
      else double_round x ndigits
  end.

(** [x == y] *)
Definition eqb (x y : pyfloat) : bool := SFeqb x y.

(** A finite number in the binary64 range. *)
Definition bounded (x : pyfloat) : Prop :=
  match x with
  | S754_finite _ m e => Z.pos m < 2 ^ 53 /\ e <= 971
  | _ => True
  end.

End PyFloat.

(** * The validator *)

Module Validator.

Import PyFloat.

(** Insertion sort: [x] goes before the first element it is not above, so
    elements that compare equal keep their order. *)
Fixpoint insert_sorted {A : Type} (leb : A -> A -> bool) (x : A) (l : list A)
    : list A :=
  match l with
  | [] => [x]
  | y :: l' => if leb x y then x :: l else y :: insert_sorted leb x l'
  end.

Definition insertion_sort {A : Type} (leb : A -> A -> bool) (l : list A) : list A :=
  foldr (insert_sorted leb) [] l.

(** ** Cell values

    What [df.loc[idx, col]] can hold after [pd.read_excel]: a missing
    object ([None]), a boolean, an integer, a binary64 number (with NaN
    as the missing number), text, a timestamp or the missing time [NaT]. *)
Inductive value : Type :=
| VNone
| VBool (b : bool)
| VInt (z : Z)
| VFloat (x : pyfloat)
| VStr (s : string)
| VTimestamp (t : Z)
| VNaT.

(** [pd.isna(v)] on a scalar *)
Definition isna (v : value) : bool :=
  match v with
  | VNone | VNaT => true
  | VFloat x => isnan x
  | _ => false
  end.

Definition is_None (v : value) : bool :=
  match v with
  | VNone => true
  | _ => false
  end.

(** ** Comparison settings (the four sidebar widgets) *)
Record Config : Type := {
  ignore_case : bool;
  ignore_whitespace : bool;
  float_precision : Z;
  treat_nulls_equal : bool
}.

(** The values the widgets start with. *)
Definition default_config : Config :=
  {| ignore_case := true; ignore_whitespace := true;
     float_precision := 5; treat_nulls_equal := true |}.

(** [number_input(min_value=1, max_value=10)] *)
Definition valid_config (cfg : Config) : Prop :=
  1 <= float_precision cfg <= 10.

(** A row gives each column label its cell. *)
Abbreviation row := (string -> value).

Section Engine.

(** [str] of a finite binary64 number and of a timestamp. The comparator
    uses nothing of them but that they are strings, so they stay
    parameters of the development. *)
Variable float_repr : pyfloat -> string.
Variable timestamp_str : Z -> string.

(** [str(v)] *)
Definition str (v : value) : string :=
  match v with
  | VNone => "None"
  | VBool true => "True"
  | VBool false => "False"
  | VInt z => NilZero.string_of_int (Z.to_int z)
  | VFloat S754_nan => "nan"
  | VFloat (S754_infinity false) => "inf"
  | VFloat (S754_infinity true) => "-inf"
  | VFloat x => float_repr x
  | VStr s => s
  | VTimestamp t => timestamp_str t
  | VNaT => "NaT"
  end.

Variable cfg : Config.

(** Lines 29-38: the string a value is compared as. *)
Definition normalize (v : value) : string :=
  let s := if is_None v then "" else str v in
  let s := if ignore_whitespace cfg then PyStr.strip s else s in
  if ignore_case cfg then PyStr.lower s else s.

(** [float(s) if s else float('nan')] *)
Definition to_number (s : string) : result pyfloat :=
  if PyStr.truthy s then float_of_string s else Ok S754_nan.

(** The body of the [try] block (lines 41-44): [Some b] when it executes
    [return b], [None] when it runs to its end. *)
Definition numeric_attempt (str1 str2 : string) : result (option bool) :=
  let! num1 := to_number str1 in
  let! num2 := to_number str2 in
  if negb (isnan num1) && negb (isnan num2) then
    let! r1 := round num1 (float_precision cfg) in
    let! r2 := round num2 (float_precision cfg) in
    Ok (Some (eqb r1 r2))
  else Ok None.

(** [safe_equals(val1, val2)] *)
Definition safe_equals (val1 val2 : value) : result bool :=
  if treat_nulls_equal cfg && (isna val1 && isna val2) then Ok true
  else if treat_nulls_equal cfg && (isna val1 || isna val2) then Ok false
  else
    let str1 := normalize val1 in
    let str2 := normalize val2 in
    let! attempt :=
      try_except_pass (numeric_attempt str1 str2) [ValueError; TypeError] None in
    match attempt with
    | Some b => Ok b
    | None => Ok (String.eqb str1 str2)
    end.

(** ** Frames

    A frame is the column labels and the rows in index order. Rows are
    total on labels; a label outside [columns] is rejected by [loc]. The
    frames carry the default index [0 .. n-1] ([pd.read_excel], then
    [reset_index(drop=True)] after sorting), so label [idx] is position
    [idx]. *)
Record DataFrame : Type := {
  columns : list string;
  rows : list row
}.

(** [len(df)] *)
Definition len (df : DataFrame) : nat := length (rows df).

(** [df.loc[idx, col]] *)
Definition loc (df : DataFrame) (idx : nat) (col : string) : result value :=
  match rows df !! idx with
  | Some r => if bool_decide (col ∈ columns df) then Ok (r col) else Raise KeyError
  | None => Raise KeyError
  end.

(** ** Natural ordering of key values

    Python orders numbers (booleans, integers, binary64) by value, text
    by code points and timestamps by time; values of two of these kinds
    are not comparable ([TypeError]). Missing values are placed last. *)
Inductive ext : Type :=
| NegInf
| Fin (z : Z)
| PosInf.

Definition ext_leb (a b : ext) : bool :=
  match a, b with
  | NegInf, _ | _, PosInf => true
  | Fin x, Fin y => x <=? y
  | _, _ => false
  end.

(** Exact value of a number in units of [2^-1074], the smallest binary64
    step. *)
Definition num_key (v : value) : ext :=
  match v with
  | VBool b => Fin (Z.shiftl (Z.b2z b) 1074)
  | VInt z => Fin (Z.shiftl z 1074)
  | VFloat (S754_finite s m e) =>
      Fin (Z.shiftl (if s then Z.neg m else Z.pos m) (e + 1074))
  | VFloat (S754_infinity s) => if s then NegInf else PosInf
  | _ => Fin 0
  end.

(** The sort key of a value in its column: its kind with what the kind
    is ordered by. Missing values ([None], NaN, [NaT]) have one key. *)
Inductive key : Type :=
| KNum (x : ext)
| KText (s : string)
| KTime (t : Z)
| KMissing.

Definition key_of (v : value) : key :=
  if isna v then KMissing
  else match v with
       | VStr s => KText s
       | VTimestamp t => KTime t
       | _ => KNum (num_key v)
       end.

Definition key_rank (k : key) : Z :=
  match k with
  | KNum _ => 0
  | KTime _ => 1
  | KText _ => 2
  | KMissing => 3
  end.

(** [a <= b] on sort keys: the natural ordering inside a kind, missing
    last. Between two kinds: text comes after the values that are not
    text, which is how a sort on several keys orders a column that mixes
    them ([_sort_mixed]); numbers and timestamps are never compared,
    [sort_values] raises before, and are ordered here only to make the
    relation total. *)
Definition key_le (a b : key) : bool :=
  match a, b with
  | KNum x, KNum y => ext_leb x y
  | KText s, KText t => String.leb s t
  | KTime s, KTime t => s <=? t
  | _, _ => key_rank a <=? key_rank b
  end.

Definition value_leb (a b : value) : bool := key_le (key_of a) (key_of b).

(** Lexicographic order of two rows on the key columns [by]. *)
Fixpoint key_leb (by_ : list string) (r1 r2 : row) : bool :=
  match by_ with
  | [] => true
  | k :: ks =>
      if value_leb (r1 k) (r2 k)
      then (if value_leb (r2 k) (r1 k) then key_leb ks r1 r2 else true)
      else false
  end.

(** A key column can be sorted on its own when its present values are of
    one kind: the sort compares them with [<]. *)
Definition sortable (df : DataFrame) (k : string) : bool :=
  match filter (fun v => negb (isna v)) (map (fun r : row => r k) (rows df)) with
  | [] => true
  | v :: vs => forallb (fun w => key_rank (key_of w) =? key_rank (key_of v)) vs
  end.

Definition is_text (v : value) : bool :=
  match v with
  | VStr _ => true
  | _ => false
  end.

(** In a sort on several keys every key column is ranked through
    [Categorical(k, ordered=True)], whose categories [safe_sort] puts in
    order; a column that [<] cannot sort goes to [_sort_mixed], which
    sorts the values that are neither text nor missing, then the text.
    So text may be mixed with values of one other kind; the values that
    are not text must be of one kind. *)
Definition sortable_mixed (df : DataFrame) (k : string) : bool :=
  match filter (fun v => negb (isna v) && negb (is_text v))
          (map (fun r : row => r k) (rows df)) with
  | [] => true
  | v :: vs => forallb (fun w => key_rank (key_of w) =? key_rank (key_of v)) vs
  end.

(** Whether the key column [k] can be sorted in a sort on the keys [by]. *)
Definition can_sort (by_ : list string) (df : DataFrame) (k : string) : bool :=
  match by_ with
  | [_] => sortable df k
  | _ => sortable_mixed df k
  end.

(** ** [sort_values] *)

(** The stable sort behind a sort on several keys ([np.lexsort]). *)
Definition stable_sort (leb : row -> row -> bool) (l : list row) : list row :=
  insertion_sort leb l.

(** [df.take(indexer)] on the rows *)
Definition take_rows (indexer : list nat) (l : list row) : list row :=
  omap (fun i => l !! i) indexer.

(** The sort of one column behind [nargsort], asked for with
    [kind='quicksort']: it returns the positions in ascending order of
    the values and promises nothing on the order of equal values. Which
    sort runs depends on the type of the column and on the machine
    (numpy's introsort, a vectorised sort of numpy for a column of
    machine numbers, a stable sort for a text column held by pyarrow),
    so it is a parameter here, and the facts on [sort_values] ask of it
    the ascending order only ([argsort_contract]). Two sorts are
    modelled below and shown to return it: numpy's introsort
    [Numpy.aquicksort], and a stable sort, [insertion_argsort]. *)
Variable argsort : list value -> list nat.

(** Sort on one key ([nargsort]): the rows with a present key in the
    order [argsort] gives, then the rows with a missing key in their
    original order ([na_position='last']). *)
Definition sort_single (k : string) (l : list row) : list row :=
  let present := filter (fun r : row => negb (isna (r k))) l in
  let missing := filter (fun r : row => isna (r k)) l in
  take_rows (argsort (map (fun r : row => r k) present)) present ++ missing.

(** [df.sort_values(by=by_).reset_index(drop=True)], with the defaults
    [ascending=True], [kind='quicksort'], [na_position='last']. *)
Definition sort_values (by_ : list string) (df : DataFrame) : result DataFrame :=
  if negb (forallb (fun k => bool_decide (k ∈ columns df)) by_) then Raise KeyError
  else if negb (forallb (can_sort by_ df) by_) then Raise TypeError
  else
    match by_ with
    | [] => Ok df
    | [k] => Ok {| columns := columns df; rows := sort_single k (rows df) |}
    | _ => Ok {| columns := columns df; rows := stable_sort (key_leb by_) (rows df) |}
    end.

(** ** The comparison loop (lines 91-119) *)

(** The warning of line 92 *)
Inductive message : Type :=
| RowCountMismatch (n_old n_new : nat).

(** One entry of [mismatch_report] is the dictionary [row_data]. *)
Record Report : Type := {
  mismatch_report : list (gmap string value);
  mismatched_columns : gset string
}.

Record RowScan : Type := {
  row_has_mismatch : bool;
  row_data : gmap string value;
  seen_columns : gset string
}.

Section Loop.

Variables df_old_sorted df_new_sorted : DataFrame.
Variable sort_cols : list string.
Variable common_cols : list string.

(** Lines 106-107 *)
Definition add_key (idx : nat) (rd : gmap string value) (key_col : string)
    : result (gmap string value) :=
  let! v := loc df_old_sorted idx key_col in
  Ok (<[String.append "Key_" key_col := v]> rd).

(** Lines 110-116 *)
Definition scan_cell (idx : nat) (st : RowScan) (col : string) : result RowScan :=
  let! old_val := loc df_old_sorted idx col in
  let! new_val := loc df_new_sorted idx col in
  let! same := safe_equals old_val new_val in
  if negb same then
    Ok {| row_has_mismatch := true;
          row_data := <[String.append "New_" col := new_val]>
                        (<[String.append "Old_" col := old_val]> (row_data st));
          seen_columns := {[ col ]} ∪ seen_columns st |}
  else Ok st.

(** Lines 104-119: one iteration of the loop over row positions *)
Definition compare_row (rep : Report) (idx : nat) : result Report :=
  let! keyed :=
    for_each (add_key idx) sort_cols {[ "Row" := VInt (Z.of_nat idx + 1) ]} in
  let! st :=
    for_each (scan_cell idx) common_cols
      {| row_has_mismatch := false; row_data := keyed;
         seen_columns := mismatched_columns rep |} in
  Ok {| mismatch_report :=
          if row_has_mismatch st then mismatch_report rep ++ [row_data st]
          else mismatch_report rep;
        mismatched_columns := seen_columns st |}.

(** [for idx in range(min(len(df_old_sorted), len(df_new_sorted)))] *)
Definition compare_rows : result Report :=
  for_each compare_row
    (seq 0 (Nat.min (len df_old_sorted) (len df_new_sorted)))
    {| mismatch_report := []; mismatched_columns := ∅ |}.

End Loop.

(** ** The loop in closed form

    What one iteration leaves in [row_data], written as folds over the
    key columns and the compared columns of the two rows at a position. *)

(** [not safe_equals(old_val, new_val)] for the cells of one column *)
Definition differs (r_old r_new : row) (col : string) : bool :=
  match safe_equals (r_old col) (r_new col) with
  | Ok false => true
  | _ => false
  end.

Definition with_keys (r_old : row) (sort_cols : list string)
    (rd : gmap string value) : gmap string value :=
  foldl (fun rd k => <[String.append "Key_" k := r_old k]> rd) rd sort_cols.

Definition diff_cells (r_old r_new : row) (cols : list string)
    (rd : gmap string value) : gmap string value :=
  foldl (fun rd col =>
           if differs r_old r_new col
           then <[String.append "New_" col := r_new col]>
                  (<[String.append "Old_" col := r_old col]> rd)
           else rd) rd cols.

(** The record of position [idx], if the two rows there differ. *)
Definition expected_record (df_old df_new : DataFrame)
    (sort_cols common_cols : list string) (idx : nat)
    : option (gmap string value) :=
  match rows df_old !! idx, rows df_new !! idx with
  | Some r_old, Some r_new =>
      if existsb (differs r_old r_new) common_cols
      then Some (diff_cells r_old r_new common_cols
                   (with_keys r_old sort_cols
                      {[ "Row" := VInt (Z.of_nat idx + 1) ]}))
      else None
  | _, _ => None
  end.

(** What a record of [mismatch_report] holds for position [idx]: the row
    number, the key values of the old row, the two cells of every compared
    column on which the rows differ, at least one such column, and
    nothing else. *)
Definition record_at (df_old df_new : DataFrame)
    (sort_cols common_cols : list string) (idx : nat)
    (rd : gmap string value) : Prop :=
  exists r_old r_new,
    rows df_old !! idx = Some r_old /\ rows df_new !! idx = Some r_new /\
    rd !! "Row" = Some (VInt (Z.of_nat idx + 1)) /\
    (forall k v, rd !! String.append "Key_" k = Some v
                 <-> k ∈ sort_cols /\ v = r_old k) /\
    (forall col v, rd !! String.append "Old_" col = Some v
                   <-> col ∈ common_cols
                       /\ safe_equals (r_old col) (r_new col) = Ok false
                       /\ v = r_old col) /\
    (forall col v, rd !! String.append "New_" col = Some v
                   <-> col ∈ common_cols
                       /\ safe_equals (r_old col) (r_new col) = Ok false
                       /\ v = r_new col) /\
    (exists col, is_Some (rd !! String.append "Old_" col)) /\
    (forall key, is_Some (rd !! key) ->
       key = "Row" \/ (exists k, key = String.append "Key_" k)
       \/ (exists col, key = String.append "Old_" col
                       \/ key = String.append "New_" col)).

Record Comparison : Type := {
  warnings : list message;
  report : Report
}.

(** [list(set(a.columns) & set(b.columns))], in the order of [a] *)
Definition common_columns (a b : DataFrame) : list string :=
  filter (fun c => bool_decide (c ∈ columns b)) (remove_dups (columns a)).

(** Lines 91-119, from the two sorted frames on *)
Definition compare_sorted (df_old_sorted df_new_sorted : DataFrame)
    (sort_cols : list string) : result Comparison :=
  let w :=
    if negb (len df_old_sorted =? len df_new_sorted)%nat
    then [RowCountMismatch (len df_old_sorted) (len df_new_sorted)] else [] in
  let common_cols := common_columns df_old_sorted df_new_sorted in
  let! rep := compare_rows df_old_sorted df_new_sorted sort_cols common_cols in
  Ok {| warnings := w; report := rep |}.

(** ** The run (lines 50-175), once both files are read

    The display calls (metrics, previews, the notice on columns that are
    in one file only, the progress bar, the tables) compute nothing the
    comparison uses and are left out. *)

(** How a run that raises nothing ends: with a comparison, or with the
    notice of line 175 that asks for a key column. *)
Inductive outcome : Type :=
| Compared (c : Comparison)
| KeyColumnNeeded.

(** Lines 84-119 and 174-175 *)
Definition run (df_old df_new : DataFrame) (sort_cols : list string)
    : result outcome :=
  match sort_cols with
  | [] => Ok KeyColumnNeeded
  | _ :: _ =>
      let! df_old_sorted := sort_values sort_cols df_old in
      let! df_new_sorted := sort_values sort_cols df_new in
      let! c := compare_sorted df_old_sorted df_new_sorted sort_cols in
      Ok (Compared c)
  end.

End Engine.

(** [l[i]] *)
Definition value_at (l : list value) (i : nat) : value := default VNone (l !! i).

(** ** numpy's introsort

    [npy_aquicksort], the sort numpy runs for [argsort(kind='quicksort')]
    where it has no vectorised sort for the type of the column on the
    machine (an object column, among others): median-of-three quicksort
    on the array of positions [tosort], insertion sort on the parts of
    at most 17 positions, heapsort once the depth allowance is spent.
    The values are read and never moved. It is one of the sorts that
    [argsort] stands for, and it is shown to return the positions in
    ascending order ([IntrosortFacts.aquicksort_contract]). *)

Module Numpy.

Section Sort.

Variable v : list value.

(** [cmp(v[i], v[j]) < 0] *)
Definition less (i j : nat) : bool :=
  negb (value_leb (value_at v j) (value_at v i)).

Definition pos (t : list nat) (p : nat) : nat := default 0%nat (t !! p).

(** [INTP_SWAP] of [t[p]] and [t[q]] *)
Definition swap (t : list nat) (p q : nat) : list nat :=
  <[q := pos t p]> (<[p := pos t q]> t).

(** [do ++pi while v[tosort[pi]] < vp] *)
Fixpoint scan_up (fuel : nat) (t : list nat) (vp pi : nat) : nat :=
  match fuel with
  | O => pi
  | S f => if less (pos t (S pi)) vp then scan_up f t vp (S pi) else S pi
  end.

(** [do --pj while vp < v[tosort[pj]]] *)
Fixpoint scan_down (fuel : nat) (t : list nat) (vp pj : nat) : nat :=
  match fuel with
  | O => pj
  | S f => if less vp (pos t (pred pj)) then scan_down f t vp (pred pj)
           else pred pj
  end.

(** The [for (;;)] loop of the partition *)
Fixpoint exchange (fuel : nat) (t : list nat) (vp pi pj : nat)
    : list nat * nat :=
  match fuel with
  | O => (t, pi)
  | S f =>
      let pi := scan_up (length t) t vp pi in
      let pj := scan_down (length t) t vp pj in
      if (pj <=? pi)%nat then (t, pi) else exchange f (swap t pi pj) vp pi pj
  end.

(** One partition of [tosort[pl..pr]]; returns the place of the pivot. *)
Definition partition (t : list nat) (pl pr : nat) : list nat * nat :=
  let pm := (pl + (pr - pl) / 2)%nat in
  let t := if less (pos t pm) (pos t pl) then swap t pm pl else t in
  let t := if less (pos t pr) (pos t pm) then swap t pr pm else t in
  let t := if less (pos t pm) (pos t pl) then swap t pm pl else t in
  let vp := pos t pm in
  let t := swap t pm (pr - 1) in
  let '(t, pi) := exchange (length t) t vp pl (pr - 1) in
  (swap t pi (pr - 1), pi).

(** Insertion of [vi], read at [pj], into the sorted [tosort[pl..pj-1]]:
    the greater positions move up by one. *)
Fixpoint shift (fuel : nat) (t : list nat) (vi pl pj : nat) : list nat :=
  match fuel with
  | O => <[pj := vi]> t
  | S f =>
      if (pl <? pj)%nat && less vi (pos t (pj - 1))
      then shift f (<[pj := pos t (pj - 1)]> t) vi pl (pj - 1)
      else <[pj := vi]> t
  end.

Definition insertion (t : list nat) (pl pr : nat) : list nat :=
  foldl (fun t pi => shift (length t) t (pos t pi) pl pi) t
    (seq (S pl) (pr - pl)).

(** Heapsort of a part, on positions counted from 1 as in [npy_aheapsort] *)
Definition heap_get (a : list nat) (k : nat) : nat := pos a (k - 1).
Definition heap_set (a : list nat) (k x : nat) : list nat := <[(k - 1)%nat := x]> a.

Fixpoint sift (fuel : nat) (a : list nat) (tmp i j n : nat) : list nat :=
  match fuel with
  | O => heap_set a i tmp
  | S f =>
      if (j <=? n)%nat then
        let j := if (j <? n)%nat && less (heap_get a j) (heap_get a (S j))
                 then S j else j in
        if less tmp (heap_get a j)
        then sift f (heap_set a i (heap_get a j)) tmp j (j + j)%nat n
        else heap_set a i tmp
      else heap_set a i tmp
  end.

Definition heapsort (a : list nat) : list nat :=
  let n := length a in
  let a := foldl (fun a l => sift n a (heap_get a l) l (l + l)%nat n) a
             (rev (seq 1 (n / 2))) in
  foldl (fun a m =>
           let tmp := heap_get a m in
           let a := heap_set a m (heap_get a 1) in
           sift n a tmp 1%nat 2%nat (m - 1)%nat)
        a (rev (seq 2 (n - 1))).

Definition heapsort_part (t : list nat) (pl pr : nat) : list nat :=
  take pl t ++ heapsort (take (S pr - pl) (drop pl t)) ++ drop (S pr) t.

Definition SMALL_QUICKSORT : nat := 16.

(** The outer loop. [in_while] tells the inner [while] loop, which does
    not look at the depth allowance, from the head of the outer one. *)
Fixpoint sort_loop (fuel : nat) (t : list nat) (pl pr : nat) (cdepth : Z)
    (stack : list (nat * nat * Z)) (in_while : bool) : list nat :=
  match fuel with
  | O => t
  | S f =>
      let pop (t : list nat) :=
        match stack with
        | [] => t
        | (pl', pr', d) :: stack' => sort_loop f t pl' pr' d stack' false
        end in
      if negb in_while && (cdepth <? 0) then pop (heapsort_part t pl pr)
      else if (SMALL_QUICKSORT <? pr - pl)%nat then
        let '(t, pi) := partition t pl pr in
        let d := cdepth - 1 in
        if (pi - pl <? pr - pi)%nat
        then sort_loop f t pl (pi - 1) d ((S pi, pr, d) :: stack) true
        else sort_loop f t (S pi) pr d ((pl, (pi - 1)%nat, d) :: stack) true
      else pop (insertion t pl pr)
  end.

End Sort.

(** [npy_get_msb(n) * 2] *)
Definition depth_limit (n : nat) : Z := 2 * Z.log2 (Z.of_nat n).

(** [a.argsort(kind='quicksort')] *)
Definition aquicksort (v : list value) : list nat :=
  let n := length v in
  sort_loop v (2 * n + 2) (seq 0 n) 0 (n - 1) (depth_limit n) [] false.

End Numpy.

(** ** Parts of the array of positions

    The words in which [Numpy.aquicksort] is shown to sort: what a step
    does to a part [t[a..b]] of the array of positions. *)

Section Segments.

Variable v : list value.








End Segments.

(** ** What the development asks of [argsort]

    On the present values of one kind, the positions returned are a
    permutation of [0 .. n-1] and list the values in ascending order. *)
Definition homogeneous (l : list value) : Prop :=
  forall v w, v ∈ l -> w ∈ l ->
    isna v = false /\ key_rank (key_of v) = key_rank (key_of w).

Definition value_le (a b : value) : Prop := value_leb a b = true.

Definition argsort_contract (argsort : list value -> list nat) : Prop :=
  forall l, homogeneous l ->
    argsort l ≡ₚ seq 0 (length l) /\
    Sorted value_le (omap (fun i => l !! i) (argsort l)).

(** A sort that meets it: insertion of the positions from the last to
    the first, which keeps equal values in their order. *)

Definition index_sort (l : list value) (p : list nat) : list nat :=
  insertion_sort (fun i j => value_leb (value_at l i) (value_at l j)) p.

Definition insertion_argsort (l : list value) : list nat :=
  index_sort l (seq 0 (length l)).


(** ** Properties of a sort, as the claims state them *)

Definition rows_le (by_ : list string) (r1 r2 : row) : Prop :=
  key_leb by_ r1 r2 = true.

Definition same_key (by_ : list string) (r1 r2 : row) : bool :=
  key_leb by_ r1 r2 && key_leb by_ r2 r1.

(** [l'] keeps the rows of equal key in the order they have in [l]. *)
Definition stable_on (by_ : list string) (l l' : list row) : Prop :=
  forall r, filter (fun r' => same_key by_ r r' = true) l'
            = filter (fun r' => same_key by_ r r' = true) l.

(** The first [n] rows of a frame *)
Definition first_rows (n : nat) (df : DataFrame) : DataFrame :=
  {| columns := columns df; rows := take n (rows df) |}.

(** ** Example frames *)

Definition row_of (cells : list (string * value)) : row :=
  fun c =>
    match find (fun p => String.eqb (fst p) c) cells with
    | Some p => snd p
    | None => VNone
    end.

Definition frame_of (cols : list string) (l : list (list (string * value)))
    : DataFrame :=
  {| columns := cols; rows := map row_of l |}.

(** Three rows, unsorted, with distinct keys. *)
Definition example_old : DataFrame :=
  frame_of ["id"; "v"]
    [[("id", VInt 3); ("v", VStr "c")];
     [("id", VInt 1); ("v", VStr "a")];
     [("id", VInt 2); ("v", VStr "b")]].

(** The same rows in another order. *)
Definition example_shuffled : DataFrame :=
  frame_of ["id"; "v"]
    [[("id", VInt 2); ("v", VStr "b")];
     [("id", VInt 3); ("v", VStr "c")];
     [("id", VInt 1); ("v", VStr "a")]].

(** Two sorted frames of different lengths that differ in one cell. *)
Definition example_long : DataFrame :=
  frame_of ["id"; "v"]
    [[("id", VInt 1); ("v", VStr "a")];
     [("id", VInt 2); ("v", VStr "b")];
     [("id", VInt 3); ("v", VStr "c")]].

Definition example_short : DataFrame :=
  frame_of ["id"; "v"]
    [[("id", VInt 1); ("v", VStr "a")];
     [("id", VInt 2); ("v", VStr "x")]].

(** Two rows with one key, in the two possible orders. *)
Definition ties_old : DataFrame :=
  frame_of ["id"; "v"]
    [[("id", VInt 1); ("v", VStr "a")];
     [("id", VInt 1); ("v", VStr "b")]].

Definition ties_new : DataFrame :=
  frame_of ["id"; "v"]
    [[("id", VInt 1); ("v", VStr "b")];
     [("id", VInt 1); ("v", VStr "a")]].


(** A first file whose key column "id" mixes text with a number, and a
    second file without the column "id". *)
Definition mixed_keys : DataFrame :=
  frame_of ["id"; "v"]
    [[("id", VStr "x"); ("v", VStr "b")];
     [("id", VInt 1); ("v", VStr "a")]].

Definition no_key : DataFrame :=
  frame_of ["v"]
    [[("v", VStr "a")];
     [("v", VStr "b")]].

(** The number of records of a run, when it ends with a comparison. *)
Definition record_count (r : result outcome) : option nat :=
  match r with
  | Ok (Compared c) => Some (length (mismatch_report (report c)))
  | _ => None
  end.

End Validator.

(** * Closed forms the facts are stated with *)

Module Closed.

Import PyFloat Validator.

(** The number a compared string stands for in the [try] block of
    [safe_equals]: the value of [float(s)] when the conversion succeeds
    and is not NaN. *)
Definition number_of (s : string) : option pyfloat :=
  match to_number s with
  | Ok x => if isnan x then None else Some x
  | Raise _ => None
  end.

End Closed.

(** * What the page shows of the two files and of the report *)

Module Display.

Import PyFloat Validator.

(** ** The column check (lines 63-74) *)

Inductive notice : Type :=
| ColumnMismatchDetected
| ColumnsOnlyInFile1 (cols : gset string)
| ColumnsOnlyInFile2 (cols : gset string).

Definition column_set (df : DataFrame) : gset string := list_to_set (columns df).

Definition column_check (df_old df_new : DataFrame) : list notice :=
  let old_cols := column_set df_old in
  let new_cols := column_set df_new in
  if bool_decide (old_cols ≠ new_cols) then
    let only_in_old := old_cols ∖ new_cols in
    let only_in_new := new_cols ∖ old_cols in
    ColumnMismatchDetected
    :: (if bool_decide (only_in_old ≠ ∅) then [ColumnsOnlyInFile1 only_in_old]
        else [])
    ++ (if bool_decide (only_in_new ≠ ∅) then [ColumnsOnlyInFile2 only_in_new]
        else [])
  else [].

(** ** The key selection (line 82) *)

(** [df.empty]: no row or no column *)
Definition empty (df : DataFrame) : bool :=
  match rows df, columns df with
  | [], _ | _, [] => true
  | _ :: _, _ :: _ => false
  end.

(** The keys the widget starts with,
    [[df_old.columns[0]] if not df_old.empty else []]; [None] is the
    [IndexError] of [columns[0]]. *)
Definition default_sort_cols (df_old : DataFrame) : option (list string) :=
  if negb (empty df_old)
  then match columns df_old !! 0%nat with
       | Some c => Some [c]
       | None => None
       end
  else Some [].

(** ** The progress bar (lines 100-102) *)

(** [idx / min(len(df_old_sorted), len(df_new_sorted))]: the division of
    two integers is the correctly rounded one; [None] is
    [ZeroDivisionError]. *)
Definition progress_percent (idx n_old n_new : nat) : option pyfloat :=
  let n := Nat.min n_old n_new in
  if (n =? 0)%nat then None
  else Some (double_of_ratio false (Z.of_nat idx) (Z.of_nat n)).

(** What [progress_bar.progress] accepts of a float: [0.0 <= value <= 1.0]. *)
Definition progress_ok (value : pyfloat) : bool :=
  match value with
  | S754_zero _ => true
  | S754_finite false m e => (e <=? 0) && (Z.pos m <=? 2 ^ (- e))
  | _ => false
  end.

(** ** The table of the report (line 124)

    [pd.DataFrame(mismatch_report)] has one row for each record and one
    column for each key of some record; only the set of its column labels
    is used below. *)
Definition frame_keys (records : list (gmap string value)) : gset string :=
  ⋃ (dom <$> records).

(** [mismatch_df.empty]: no row or no column *)
Definition frame_empty (records : list (gmap string value)) : bool :=
  match records with
  | [] => true
  | _ :: _ => bool_decide (frame_keys records = ∅)
  end.

(** [sorted(mismatched_columns)] *)
Definition sorted_columns (cols : gset string) : list string :=
  merge_sort String.le (elements cols).

(** Lines 126-129: what is announced *)
Inductive verdict : Type :=
| NoMismatches
| MismatchesFound (cols : list string).

Definition verdict_of (rep : Report) : verdict :=
  if frame_empty (mismatch_report rep) then NoMismatches
  else MismatchesFound (sorted_columns (mismatched_columns rep)).

(** ** The summary view (lines 135-141) *)

(** [f"Old_{col}" in row] *)
Definition has_old (col : string) (rd : gmap string value) : Prop :=
  is_Some (rd !! String.append "Old_" col).

(** [sum(1 for row in mismatch_report if f"Old_{col}" in row)] *)
Definition mismatch_count (records : list (gmap string value)) (col : string)
    : nat :=
  length (filter (has_old col) records).

Definition mismatch_counts (rep : Report) : gmap string nat :=
  set_to_map (fun col => (col, mismatch_count (mismatch_report rep) col))
    (mismatched_columns rep).

Definition hundred : pyfloat := S754_finite false 7036874417766400 (-46).

(** [count / n * 100] on two integers: the division is the correctly
    rounded one and raises [ZeroDivisionError], here [None], when [n] is
    zero; the product is the binary64 one. *)
Definition percent_of_rows (count n : nat) : option pyfloat :=
  if (n =? 0)%nat then None
  else Some (SFmul 53 1024
               (double_of_ratio false (Z.of_nat count) (Z.of_nat n)) hundred).

(** The rows of [summary_df], before it is sorted for display: column,
    count and percentage of the compared rows. *)
Definition summary_rows (rep : Report) (n_old n_new : nat)
    : option (list (string * nat * pyfloat)) :=
  mapM (fun '(col, count) =>
          match percent_of_rows count (Nat.min n_old n_new) with
          | Some pct => Some (col, count, pct)
          | None => None
          end)
       (map_to_list (mismatch_counts rep)).

(** ** The sample differences (lines 145-154) *)

(** [row[key]] on a dictionary *)
Definition getitem (rd : gmap string value) (key : string) : result value :=
  match rd !! key with
  | Some v => Ok v
  | None => Raise KeyError
  end.

Fixpoint map_result {A B : Type} (f : A -> result B) (l : list A)
    : result (list B) :=
  match l with
  | [] => Ok []
  | x :: l' => let! y := f x in let! ys := map_result f l' in Ok (y :: ys)
  end.

(** [[row for row in mismatch_report if f"Old_{col}" in row][:5]] *)
Definition sample_rows (records : list (gmap string value)) (col : string)
    : list (gmap string value) :=
  take 5 (filter (has_old col) records).

(** One row of [sample_df]: row number, old value, new value *)
Definition sample_entry (col : string) (rd : gmap string value)
    : result (value * value * value) :=
  let! r := getitem rd "Row" in
  let! o := getitem rd (String.append "Old_" col) in
  let! n := getitem rd (String.append "New_" col) in
  Ok (r, o, n).

(** The table shown for one column, or nothing when it has no sample. *)
Definition sample_table (records : list (gmap string value)) (col : string)
    : result (option (list (value * value * value))) :=
  match sample_rows records col with
  | [] => Ok None
  | rs => let! t := map_result (sample_entry col) rs in Ok (Some t)
  end.

(** [for col in sorted(mismatched_columns)] *)
Definition sample_tables (rep : Report)
    : result (list (string * option (list (value * value * value)))) :=
  map_result (fun col =>
                let! t := sample_table (mismatch_report rep) col in Ok (col, t))
    (sorted_columns (mismatched_columns rep)).

(** ** The detailed view (lines 130, 157-162) *)

(** The selection the widget starts with: the first three columns *)
Definition default_cols_to_show (rep : Report) : list string :=
  take 3 (sorted_columns (mismatched_columns rep)).

Definition display_cols (sort_cols cols_to_show : list string) : list string :=
  "Row" :: map (String.append "Key_") sort_cols
  ++ flat_map (fun col => [String.append "Old_" col; String.append "New_" col])
       cols_to_show.

(** [[col for col in display_cols if col in mismatch_df.columns]] *)
Definition valid_cols (records : list (gmap string value))
    (sort_cols cols_to_show : list string) : list string :=
  filter (fun col => col ∈ frame_keys records) (display_cols sort_cols cols_to_show).

End Display.

(** * Facts on binary64 conversion and rounding *)

Module PyFloatFacts.

Import PyFloat.

(** ** The model at known values *)

(** [double_of_ratio] agrees with the correctly rounded division of the
    Standard Library's IEEE 754 model, here on a normal, an exactly
    representable and a subnormal quotient. *)
Example double_of_ratio_is_division :
  double_of_ratio false 1 3
  = SFdiv 53 1024 (S754_finite false 1 0) (S754_finite false 3 0) /\
  double_of_ratio true (2 ^ 54 + 6) 1
  = SFdiv 53 1024 (S754_finite true (Z.to_pos (2 ^ 54 + 6)) 0)
      (S754_finite false 1 0) /\
  double_of_ratio false 7 (10 ^ 320)
  = SFdiv 53 1024 (S754_finite false 7 0)
      (S754_finite false (Z.to_pos (10 ^ 320)) 0).
Proof. repeat split; vm_compute; reflexivity. Qed.

(** [float]: spaces and underscores, the largest number, overflow to
    [inf], the smallest subnormal, underflow to zero, the special
    values, and what is no number. *)
Example float_of_string_samples :
  float_of_string " 1_000.5e-3 " = float_of_string "1.0005" /\
  float_of_string "1.7976931348623157e308"
  = Ok (S754_finite false 9007199254740991 971) /\
  float_of_string "1e400" = Ok (S754_infinity false) /\
  float_of_string "5e-324" = Ok (S754_finite false 1 (-1074)) /\
  float_of_string "2e-324" = Ok (S754_zero false) /\
  float_of_string "-Infinity" = Ok (S754_infinity true) /\
  float_of_string "NaN" = Ok S754_nan /\
  float_of_string "1e" = Raise ValueError /\
  float_of_string "1__0" = Raise ValueError /\
  float_of_string "12a" = Raise ValueError /\
  float_of_string "" = Raise ValueError.
Proof. repeat split; vm_compute; reflexivity. Qed.

(** [round]: the binary value of 2.675 is below the tie, 0.125 is an
    exact tie and goes to the even digit, the sign of a zero is kept, and
    a negative number of digits can leave the range. *)
Example round_samples :
  (let! x := float_of_string "2.675" in round x 2) = float_of_string "2.67" /\
  (let! x := float_of_string "0.125" in round x 2) = float_of_string "0.12" /\
  (let! x := float_of_string "-0.000001" in round x 5) = Ok (S754_zero true) /\
  (let! x := float_of_string "1234.5678" in round x (-2))
  = float_of_string "1200" /\
  (let! x := float_of_string "1.7976931348623157e308" in round x (-308))
  = Raise OverflowError.
Proof. repeat split; vm_compute; reflexivity. Qed.

(** ** Equality *)

Lemma eqb_sym (x y : pyfloat) : eqb x y = eqb y x.
Proof.
  unfold eqb, SFeqb.
  destruct x as [sx|sx| |sx mx ex], y as [sy|sy| |sy my ey]; simpl;
    try reflexivity;
    try (destruct sx; reflexivity); try (destruct sy; reflexivity);
    try (destruct sx, sy; reflexivity).
  destruct sx, sy; try reflexivity;
    rewrite (Z.compare_antisym ex ey);
    destruct (ex ?= ey) eqn:E; simpl; try reflexivity;
    rewrite !Pos.compare_cont_spec, (Pos.compare_antisym mx my);
    destruct (mx ?= my)%positive; reflexivity.
Qed.

Lemma eqb_refl (x : pyfloat) : isnan x = false -> eqb x x = true.
Proof.
  unfold eqb, SFeqb.
  destruct x as [s|s| |s m e]; simpl; intros H; try discriminate;
    try (destruct s; reflexivity).
  destruct s; rewrite Z.compare_refl, Pos.compare_cont_refl; reflexivity.
Qed.

Lemma round_half_even_div_le (a b K : Z) :
  0 < b -> a <= K * b -> round_half_even_div a b <= K.
Proof.
  intros Hb Ha. unfold round_half_even_div.
  pose proof (Z.div_mod a b ltac:(lia)) as Hdm.
  pose proof (Z.mod_pos_bound a b Hb) as Hr.
  assert (Hq : a / b <= K) by (apply Z.div_le_upper_bound; lia).
  destruct (Z.eq_dec (a / b) K) as [E|E].
  - assert (a mod b = 0) by nia.
    replace (2 * (a mod b) ?= b) with Lt by (symmetry; apply Z.compare_lt_iff; lia).
    lia.
  - destruct (2 * (a mod b) ?= b); [destruct (Z.even (a / b))| |]; lia.
Qed.

Lemma round_half_even_div_nonneg (a b : Z) :
  0 < b -> 0 <= a -> 0 <= round_half_even_div a b.
Proof.
  intros Hb Ha. unfold round_half_even_div.
  pose proof (Z.div_pos a b Ha Hb).
  destruct (2 * (a mod b) ?= b); [destruct (Z.even (a / b))| |]; lia.
Qed.

(** [n / (d * 2^e) < c], stated with one common shift [L]. *)
Lemma scale_lt_shift (n d c e L : Z) :
  0 <= L -> 0 <= L + e ->
  (scale_num n e < c * scale_den d e <-> n * 2 ^ L < c * d * 2 ^ (L + e)).
Proof.
  intros HL HLe. unfold scale_num, scale_den.
  destruct (e <? 0) eqn:E; [apply Z.ltb_lt in E | apply Z.ltb_ge in E].
  - replace L with ((L + e) + (- e)) at 1 by lia.
    rewrite Z.pow_add_r by lia.
    assert (0 < 2 ^ (L + e)) by (apply Z.pow_pos_nonneg; lia).
    nia.
  - rewrite Z.pow_add_r by lia.
    assert (0 < 2 ^ L) by (apply Z.pow_pos_nonneg; lia).
    nia.
Qed.

Lemma scale_den_pos (d e : Z) : 0 < d -> 0 < scale_den d e.
Proof.
  intros Hd. unfold scale_den. destruct (e <? 0) eqn:E; [lia|].
  apply Z.ltb_ge in E.
  assert (0 < 2 ^ e) by (apply Z.pow_pos_nonneg; lia). nia.
Qed.

Lemma scale_num_nonneg (n e : Z) : 0 <= n -> 0 <= scale_num n e.
Proof.
  intros Hn. unfold scale_num. destruct (e <? 0) eqn:E; [|lia].
  apply Z.ltb_lt in E.
  assert (0 < 2 ^ (- e)) by (apply Z.pow_pos_nonneg; lia). nia.
Qed.

(** At the exponent [binade] picks, the scaled value is below [2^53]. *)
Lemma binade_upper (n d : Z) :
  0 < n -> 0 < d ->
  scale_num n (binade n d) < 2 ^ 53 * scale_den d (binade n d).
Proof.
  intros Hn Hd. unfold binade.
  set (e0 := Z.log2 n - Z.log2 d - 53).
  pose proof (Z.log2_spec n Hn) as [Hn1 Hn2].
  pose proof (Z.log2_spec d Hd) as [Hd1 Hd2].
  pose proof (Z.log2_nonneg n) as Hln. pose proof (Z.log2_nonneg d) as Hld.
  set (e1 := if 2 ^ 53 * scale_den d e0 <=? scale_num n e0 then e0 + 1 else e0).
  assert (H1 : scale_num n e1 < 2 ^ 53 * scale_den d e1).
  { subst e1. destruct (2 ^ 53 * scale_den d e0 <=? scale_num n e0) eqn:T.
    - apply (scale_lt_shift n d (2 ^ 53) (e0 + 1) (Z.log2 d + 54));
        [lia | subst e0; lia |].
      replace (Z.log2 d + 54 + (e0 + 1)) with (Z.succ (Z.log2 n) + 1)
        by (subst e0; lia).
      rewrite !Z.pow_add_r by lia.
      assert (0 < 2 ^ Z.log2 d) by (apply Z.pow_pos_nonneg; lia).
      assert (0 < 2 ^ Z.succ (Z.log2 n)) by (apply Z.pow_pos_nonneg; lia).
      change (2 ^ 1) with 2. change (2 ^ 54) with (2 * 2 ^ 53).
      assert (0 < 2 ^ 53) by reflexivity.
      nia.
    - apply Z.leb_gt in T. exact T. }
  destruct (Z.max_spec e1 (-1074)) as [[Hlt ->]|[Hge ->]]; [|exact H1].
  apply (scale_lt_shift n d (2 ^ 53) (-1074) (- e1)); [lia | lia |].
  apply (scale_lt_shift n d (2 ^ 53) e1 (- e1)) in H1; [|lia|lia].
  replace (- e1 + e1) with 0 in H1 by lia. change (2 ^ 0) with 1 in H1.
  assert (1 <= 2 ^ (- e1 + -1074)) by (apply Z.lt_pred_le, Z.pow_pos_nonneg; lia).
  assert (0 < 2 ^ 53) by reflexivity.
  nia.
Qed.

(** Above the subnormal range, the scaled value has its 53 bits. *)
Lemma binade_lower (n d : Z) :
  0 < n -> 0 < d -> 0 <= binade n d ->
  2 ^ 52 * d * 2 ^ (binade n d) <= n.
Proof.
  intros Hn Hd. unfold binade.
  set (e0 := Z.log2 n - Z.log2 d - 53).
  pose proof (Z.log2_spec n Hn) as [Hn1 Hn2].
  pose proof (Z.log2_spec d Hd) as [Hd1 Hd2].
  pose proof (Z.log2_nonneg n) as Hln. pose proof (Z.log2_nonneg d) as Hld.
  intros He.
  destruct (2 ^ 53 * scale_den d e0 <=? scale_num n e0) eqn:T.
  - rewrite Z.max_l in * by lia.
    apply Z.leb_le in T. unfold scale_den, scale_num in T.
    destruct (e0 <? 0) eqn:E; [apply Z.ltb_lt in E | apply Z.ltb_ge in E].
    + assert (e0 = -1) by lia. subst e0.
      replace (Z.log2 n - Z.log2 d - 53 + 1) with 0 by lia.
      replace (- (Z.log2 n - Z.log2 d - 53)) with 1 in T by lia.
      change (2 ^ 0) with 1. change (2 ^ 1) with 2 in T.
      change (2 ^ 53) with (2 * 2 ^ 52) in T. lia.
    + rewrite Z.pow_add_r by lia. change (2 ^ 1) with 2.
      change (2 ^ 53) with (2 * 2 ^ 52) in T. lia.
  - rewrite Z.max_l in * by lia.
    replace (Z.log2 n) with (Z.log2 d + 1 + 52 + e0) in Hn1 by (subst e0; lia).
    rewrite !Z.pow_add_r in Hn1 by lia.
    rewrite Z.pow_succ_r in Hd2 by lia.
    change (2 ^ 1) with 2 in Hn1.
    assert (0 < 2 ^ e0) by (apply Z.pow_pos_nonneg; lia).
    assert (0 < 2 ^ 52) by reflexivity.
    nia.
Qed.

Lemma double_of_ratio_bounded (neg : bool) (n d : Z) :
  0 < d -> bounded (double_of_ratio neg n d).
Proof.
  intros Hd. unfold double_of_ratio.
  destruct (n <=? 0) eqn:Hn; [exact I|]. apply Z.leb_gt in Hn.
  set (e := binade n d).
  set (m := round_half_even_div (scale_num n e) (scale_den d e)).
  assert (Hm : m <= 2 ^ 53).
  { apply round_half_even_div_le; [apply scale_den_pos; lia|].
    pose proof (binade_upper n d Hn Hd). fold e in H. lia. }
  destruct (m =? 2 ^ 53) eqn:E; [apply Z.eqb_eq in E | apply Z.eqb_neq in E].
  - simpl. destruct (971 <? e + 1) eqn:Ee; [exact I|]. apply Z.ltb_ge in Ee.
    simpl. split; [reflexivity | exact Ee].
  - destruct (m <=? 0) eqn:E0; [exact I|]. apply Z.leb_gt in E0.
    destruct (971 <? e) eqn:Ee; [exact I|]. apply Z.ltb_ge in Ee.
    simpl. rewrite Z2Pos.id by lia. lia.
Qed.

Lemma double_of_ratio_not_nan (neg : bool) (n d : Z) :
  isnan (double_of_ratio neg n d) = false.
Proof.
  unfold double_of_ratio.
  repeat match goal with |- context [if ?c then _ else _] => destruct c end;
    reflexivity.
Qed.

(** A ratio within the binary64 range does not round to an infinity. *)
Lemma double_of_ratio_finite (neg : bool) (n d : Z) (s : bool) :
  0 < d -> n <= (2 ^ 53 - 1) * 2 ^ 971 * d ->
  double_of_ratio neg n d <> S754_infinity s.
Proof.
  intros Hd Hmax. unfold double_of_ratio.
  destruct (n <=? 0) eqn:Hn; [discriminate|]. apply Z.leb_gt in Hn.
  set (e := binade n d).
  set (m := round_half_even_div (scale_num n e) (scale_den d e)).
  assert (Hlow : 972 <= e -> False).
  { intros He. pose proof (binade_lower n d Hn Hd ltac:(fold e; lia)) as Hl.
    fold e in Hl.
    replace e with (971 + 1 + (e - 972)) in Hl by lia.
    rewrite !Z.pow_add_r in Hl by lia. change (2 ^ 1) with 2 in Hl.
    assert (1 <= 2 ^ (e - 972)) by (apply Z.lt_pred_le, Z.pow_pos_nonneg; lia).
    assert (0 < 2 ^ 971) by (apply Z.pow_pos_nonneg; lia).
    change (2 ^ 53) with (2 * 2 ^ 52) in Hmax.
    assert (0 < 2 ^ 52) by reflexivity.
    nia. }
  assert (Hcarry : e = 971 -> m <> 2 ^ 53).
  { intros He. subst m. rewrite He.
    assert (round_half_even_div (scale_num n 971) (scale_den d 971) <= 2 ^ 53 - 1).
    { apply round_half_even_div_le; [apply scale_den_pos; lia|].
      unfold scale_num, scale_den.
      change (971 <? 0) with false. cbv iota.
      rewrite (Z.mul_comm d), Z.mul_assoc. exact Hmax. }
    lia. }
  destruct (m =? 2 ^ 53) eqn:E; [apply Z.eqb_eq in E | apply Z.eqb_neq in E].
  - simpl (2 ^ 52 <=? 0). cbv iota.
    destruct (971 <? e + 1) eqn:Ee; [|discriminate]. apply Z.ltb_lt in Ee.
    exfalso. destruct (Z.eq_dec e 971) as [He|He]; [exact (Hcarry He E)|].
    apply Hlow. lia.
  - destruct (m <=? 0); [discriminate|].
    destruct (971 <? e) eqn:Ee; [|discriminate]. apply Z.ltb_lt in Ee.
    exfalso. apply Hlow. lia.
Qed.

Lemma double_of_decimal_bounded (neg : bool) (m e : Z) :
  bounded (double_of_decimal neg m e).
Proof.
  unfold double_of_decimal. destruct (e <? 0) eqn:E.
  - apply Z.ltb_lt in E. apply double_of_ratio_bounded.
    apply Z.pow_pos_nonneg; lia.
  - apply double_of_ratio_bounded. lia.
Qed.

Lemma inf_or_nan_bounded (l : list ascii) (x : pyfloat) :
  inf_or_nan l = Some x -> bounded x.
Proof.
  unfold inf_or_nan. destruct (sign_of l) as [neg r].
  repeat match goal with |- context [if ?c then _ else _] => destruct c end;
    intros H; inversion H; exact I.
Qed.

(** Whatever [float] returns is a binary64 number. *)
Lemma float_of_string_bounded (s : string) (x : pyfloat) :
  float_of_string s = Ok x -> bounded x.
Proof.
  unfold float_of_string.
  destruct (if has_underscore _ then _ else _) as [l1|]; [|discriminate].
  destruct (decimal_literal _) as [[[neg m] e]|].
  - intros H. inversion H. apply double_of_decimal_bounded.
  - destruct (inf_or_nan _) as [y|] eqn:E; [|discriminate].
    intros H. inversion H. subst. eapply inf_or_nan_bounded, E.
Qed.

(** [float] raises nothing but [ValueError]. *)
Lemma float_of_string_raises (s : string) (e : exn) :
  float_of_string s = Raise e -> e = ValueError.
Proof.
  unfold float_of_string.
  destruct (if has_underscore _ then _ else _) as [l1|]; [|congruence].
  destruct (decimal_literal _) as [[[neg m] ex]|]; [discriminate|].
  destruct (inf_or_nan _); [discriminate | congruence].
Qed.

(** Rounding a binary64 number at a non-negative number of decimal
    places cannot leave the binary64 range: [round] returns. *)
Lemma round_returns (x : pyfloat) (ndigits : Z) :
  bounded x -> 0 <= ndigits ->
  exists y, round x ndigits = Ok y /\ isnan y = isnan x.
Proof.
  intros Hb Hn. unfold round.
  destruct x as [s|s| |s m e]; try (eexists; split; reflexivity).
  - destruct (NDIGITS_MAX <? ndigits); [eexists; split; reflexivity|].
    destruct (ndigits <? NDIGITS_MIN); eexists; split; reflexivity.
  - destruct (NDIGITS_MAX <? ndigits); [eexists; split; reflexivity|].
    destruct (ndigits <? NDIGITS_MIN); [eexists; split; reflexivity|].
    unfold double_round.
    replace (ndigits <? 0) with false by (symmetry; apply Z.ltb_ge; lia).
    set (N := round_half_even_div _ _).
    assert (Hp : 0 < 10 ^ ndigits) by (apply Z.pow_pos_nonneg; lia).
    destruct Hb as [Hm He].
    assert (HN : N * 1 <= (2 ^ 53 - 1) * 2 ^ 971 * 10 ^ ndigits).
    { rewrite Z.mul_1_r. subst N.
      apply round_half_even_div_le; [apply scale_den_pos; lia|].
      unfold scale_num, scale_den.
      destruct (- e <? 0) eqn:E; [apply Z.ltb_lt in E | apply Z.ltb_ge in E].
      - rewrite Z.opp_involutive, Z.mul_1_r.
        assert (H1 : 2 ^ e <= 2 ^ 971) by (apply Z.pow_le_mono_r; lia).
        assert (H2 : 0 < 2 ^ e) by (apply Z.pow_pos_nonneg; lia).
        assert (H3 : Z.pos m <= 2 ^ 53 - 1) by lia.
        transitivity ((2 ^ 53 - 1) * 10 ^ ndigits * 2 ^ e).
        + apply Z.mul_le_mono_nonneg_r; [lia|].
          apply Z.mul_le_mono_nonneg_r; lia.
        + rewrite <- (Z.mul_assoc (2 ^ 53 - 1) (2 ^ 971)).
          rewrite (Z.mul_comm (2 ^ 971)), Z.mul_assoc.
          apply Z.mul_le_mono_nonneg_l; [|exact H1].
          apply Z.mul_nonneg_nonneg; lia.
      - assert (H1 : 1 <= 2 ^ (- e)) by (apply Z.lt_pred_le, Z.pow_pos_nonneg; lia).
        assert (H2 : 1 <= 2 ^ 971) by (apply Z.lt_pred_le, Z.pow_pos_nonneg; lia).
        assert (H3 : Z.pos m <= 2 ^ 53 - 1) by lia.
        rewrite Z.mul_1_l.
        transitivity ((2 ^ 53 - 1) * 10 ^ ndigits).
        + apply Z.mul_le_mono_nonneg_r; lia.
        + transitivity ((2 ^ 53 - 1) * 2 ^ 971 * 10 ^ ndigits * 1); [|
            apply Z.mul_le_mono_nonneg_l; [|exact H1];
            repeat apply Z.mul_nonneg_nonneg; lia].
          rewrite Z.mul_1_r.
          apply Z.mul_le_mono_nonneg_r; [lia|].
          rewrite <- (Z.mul_1_r (2 ^ 53 - 1)) at 1.
          apply Z.mul_le_mono_nonneg_l; [lia | exact H2]. }
    pose proof (double_of_ratio_finite s (N * 1) (10 ^ ndigits)) as Hfin.
    pose proof (double_of_ratio_not_nan s (N * 1) (10 ^ ndigits)) as Hnan.
    destruct (double_of_ratio s (N * 1) (10 ^ ndigits)) as [s'|s'| |s' m' e'];
      try (eexists; split; reflexivity).
    + exfalso. exact (Hfin s' Hp HN eq_refl).
    + discriminate.
Qed.

End PyFloatFacts.

(** * The value comparison *)

Module ComparatorFacts.

Import PyFloat PyFloatFacts Validator.

Section Facts.

Variable float_repr : pyfloat -> string.
Variable timestamp_str : Z -> string.

Local Abbreviation normalize := (normalize float_repr timestamp_str).
Local Abbreviation safe_equals := (safe_equals float_repr timestamp_str).

Lemma to_number_bounded (s : string) (x : pyfloat) :
  to_number s = Ok x -> bounded x.
Proof.
  unfold to_number. destruct (PyStr.truthy s).
  - apply float_of_string_bounded.
  - intros H. inversion H. exact I.
Qed.

Lemma to_number_raises (s : string) (e : exn) :
  to_number s = Raise e -> e = ValueError.
Proof.
  unfold to_number. destruct (PyStr.truthy s); [|discriminate].
  apply float_of_string_raises.
Qed.

(** The string a missing value is compared as is no number. *)
Lemma to_number_isna (cfg : Config) (v : value) :
  isna v = true ->
  to_number (normalize cfg v) = Ok S754_nan
  \/ to_number (normalize cfg v) = Raise ValueError.
Proof.
  intros Hna. unfold Validator.normalize.
  destruct v as [|b|z|x|s|t|]; try discriminate.
  - left. simpl. destruct (ignore_whitespace cfg), (ignore_case cfg); reflexivity.
  - destruct x; try discriminate. left. simpl.
    destruct (ignore_whitespace cfg), (ignore_case cfg); vm_compute; reflexivity.
  - right. simpl.
    destruct (ignore_whitespace cfg), (ignore_case cfg); vm_compute; reflexivity.
Qed.

(** What the [try] block does, by the outcome of the two conversions. *)
Lemma numeric_attempt_numbers (cfg : Config) (s1 s2 : string) (x1 x2 : pyfloat) :
  0 <= float_precision cfg ->
  to_number s1 = Ok x1 -> to_number s2 = Ok x2 ->
  isnan x1 = false -> isnan x2 = false ->
  exists r1 r2,
    round x1 (float_precision cfg) = Ok r1 /\
    round x2 (float_precision cfg) = Ok r2 /\
    isnan r1 = false /\ isnan r2 = false /\
    numeric_attempt cfg s1 s2 = Ok (Some (eqb r1 r2)).
Proof.
  intros Hp H1 H2 N1 N2.
  destruct (round_returns x1 (float_precision cfg)) as (r1 & R1 & E1);
    [eapply to_number_bounded, H1 | exact Hp |].
  destruct (round_returns x2 (float_precision cfg)) as (r2 & R2 & E2);
    [eapply to_number_bounded, H2 | exact Hp |].
  exists r1, r2. unfold numeric_attempt.
  rewrite H1, H2. simpl. rewrite N1, N2. simpl. rewrite R1, R2. simpl.
  repeat split; congruence.
Qed.

Lemma numeric_attempt_nan (cfg : Config) (s1 s2 : string) (x1 x2 : pyfloat) :
  to_number s1 = Ok x1 -> to_number s2 = Ok x2 ->
  isnan x1 = true \/ isnan x2 = true ->
  numeric_attempt cfg s1 s2 = Ok None.
Proof.
  intros H1 H2 N. unfold numeric_attempt. rewrite H1, H2. simpl.
  destruct N as [-> | ->]; [|rewrite andb_false_r]; reflexivity.
Qed.

Lemma numeric_attempt_fails (cfg : Config) (s1 s2 : string) (e : exn) :
  to_number s1 = Raise e
  \/ (exists x1, to_number s1 = Ok x1 /\ to_number s2 = Raise e) ->
  numeric_attempt cfg s1 s2 = Raise ValueError.
Proof.
  unfold numeric_attempt. intros [H | (x1 & H1 & H2)].
  - rewrite H. simpl. f_equal. eapply to_number_raises, H.
  - rewrite H1, H2. simpl. f_equal. eapply to_number_raises, H2.
Qed.

(** Past the null check, [safe_equals] is the numeric attempt followed by
    the string comparison. *)
Lemma safe_equals_not_null (cfg : Config) (a b : value) :
  treat_nulls_equal cfg && (isna a || isna b) = false ->
  safe_equals cfg a b =
    let! attempt :=
      try_except_pass (numeric_attempt cfg (normalize cfg a) (normalize cfg b))
        [ValueError; TypeError] None in
    match attempt with
    | Some r => Ok r
    | None => Ok (String.eqb (normalize cfg a) (normalize cfg b))
    end.
Proof.
  intros H. unfold Validator.safe_equals. rewrite H.
  destruct (treat_nulls_equal cfg); [|reflexivity].
  simpl in H. apply orb_false_elim in H as [-> ->]. reflexivity.
Qed.

Lemma safe_equals_returns (cfg : Config) (a b : value) :
  0 <= float_precision cfg -> exists r, safe_equals cfg a b = Ok r.
Proof.
  intros Hp.
  destruct (treat_nulls_equal cfg && (isna a || isna b)) eqn:Hnull.
  - unfold Validator.safe_equals. rewrite Hnull.
    destruct (treat_nulls_equal cfg && (isna a && isna b)); eexists; reflexivity.
  - rewrite (safe_equals_not_null cfg a b Hnull).
    destruct (to_number (normalize cfg a)) as [x1|e1] eqn:H1.
    2:{ rewrite (numeric_attempt_fails cfg _ _ e1) by (left; exact H1).
        eexists; reflexivity. }
    destruct (to_number (normalize cfg b)) as [x2|e2] eqn:H2.
    2:{ rewrite (numeric_attempt_fails cfg _ _ e2) by (right; eauto).
        eexists; reflexivity. }
    destruct (isnan x1) eqn:N1.
    { rewrite (numeric_attempt_nan cfg _ _ x1 x2) by auto. eexists; reflexivity. }
    destruct (isnan x2) eqn:N2.
    { rewrite (numeric_attempt_nan cfg _ _ x1 x2) by auto. eexists; reflexivity. }
    destruct (numeric_attempt_numbers cfg _ _ x1 x2 Hp H1 H2 N1 N2)
      as (r1 & r2 & _ & _ & _ & _ & ->).
    eexists; reflexivity.
Qed.

(** C1: under every configuration of the sidebar (precision 1 to 10) and
    for every two cell values, [safe_equals] returns a boolean and raises
    nothing; when the conversion of either compared string to a number
    fails, past the null check, the result is the exact comparison of the
    two strings. *)
Theorem safe_equals_total (cfg : Config) (val1 val2 : value) :
  valid_config cfg ->
  (exists r, safe_equals cfg val1 val2 = Ok r) /\
  (forall e,
     treat_nulls_equal cfg && (isna val1 || isna val2) = false ->
     to_number (normalize cfg val1) = Raise e
     \/ (exists x1, to_number (normalize cfg val1) = Ok x1
                    /\ to_number (normalize cfg val2) = Raise e) ->
     safe_equals cfg val1 val2
     = Ok (String.eqb (normalize cfg val1) (normalize cfg val2))).
Proof.
  intros [Hlo Hhi]. split.
  - apply safe_equals_returns. lia.
  - intros e Hnull Hfail. rewrite (safe_equals_not_null cfg _ _ Hnull).
    rewrite (numeric_attempt_fails cfg _ _ e Hfail). reflexivity.
Qed.

Lemma float_of_string_nonempty (s : string) (x : pyfloat) :
  float_of_string s = Ok x -> to_number s = Ok x.
Proof.
  unfold to_number. destruct s; [discriminate | intros H; exact H].
Qed.

(** C2, as the code has it: when the two compared strings both convert
    to numbers other than NaN, [safe_equals] is the equality of the two
    numbers rounded to [float_precision] decimal places; with precision 5,
    "1.000001" and "1.000002" compare equal and "1.00001" and "1.00002"
    do not. (Two strings that convert to NaN are compared as text.) *)
Theorem safe_equals_numeric (cfg : Config) (a b : value) :
  (forall x1 x2,
     valid_config cfg ->
     float_of_string (normalize cfg a) = Ok x1 ->
     float_of_string (normalize cfg b) = Ok x2 ->
     isnan x1 = false -> isnan x2 = false ->
     exists r1 r2,
       round x1 (float_precision cfg) = Ok r1 /\
       round x2 (float_precision cfg) = Ok r2 /\
       safe_equals cfg a b = Ok (eqb r1 r2)) /\
  (float_precision cfg = 5 ->
     safe_equals cfg (VStr "1.000001") (VStr "1.000002") = Ok true /\
     safe_equals cfg (VStr "1.00001") (VStr "1.00002") = Ok false).
Proof.
  split.
  - intros x1 x2 [Hlo Hhi] H1 H2 N1 N2.
    apply float_of_string_nonempty in H1, H2.
    assert (Hnull : treat_nulls_equal cfg && (isna a || isna b) = false).
    { destruct (isna a) eqn:Na.
      { destruct (to_number_isna cfg a Na) as [E|E]; rewrite E in H1;
          inversion H1; subst; discriminate. }
      destruct (isna b) eqn:Nb.
      { destruct (to_number_isna cfg b Nb) as [E|E]; rewrite E in H2;
          inversion H2; subst; discriminate. }
      apply andb_false_r. }
    rewrite (safe_equals_not_null cfg a b Hnull).
    destruct (numeric_attempt_numbers cfg _ _ x1 x2 ltac:(lia) H1 H2 N1 N2)
      as (r1 & r2 & R1 & R2 & _ & _ & ->).
    exists r1, r2. repeat split; assumption.
  - destruct cfg as [ic iw p tn]. simpl. intros ->.
    destruct ic, iw, tn; split; vm_compute; reflexivity.
Qed.

Lemma round_raises (x : pyfloat) (n : Z) (e : exn) :
  round x n = Raise e -> e = OverflowError.
Proof.
  unfold round, double_round.
  destruct x; try discriminate;
    repeat match goal with
           | |- context [if ?c then _ else _] => destruct c
           | |- context [match ?c with S754_zero _ => _ | _ => _ end] => destruct c
           end; congruence.
Qed.

Lemma numeric_attempt_sym (cfg : Config) (s1 s2 : string) :
  numeric_attempt cfg s2 s1 = numeric_attempt cfg s1 s2.
Proof.
  unfold numeric_attempt.
  destruct (to_number s1) as [x1|e1] eqn:H1, (to_number s2) as [x2|e2] eqn:H2;
    simpl; try reflexivity.
  - rewrite (andb_comm (negb (isnan x2))).
    destruct (negb (isnan x1) && negb (isnan x2)); [|reflexivity].
    destruct (round x1 _) as [r1|o1] eqn:R1, (round x2 _) as [r2|o2] eqn:R2;
      simpl; try reflexivity.
    + rewrite eqb_sym. reflexivity.
    + rewrite (round_raises _ _ _ R1), (round_raises _ _ _ R2). reflexivity.
  - rewrite (to_number_raises _ _ H1), (to_number_raises _ _ H2). reflexivity.
Qed.

(** Case and white space: the pair of the settings' help texts. *)
Example safe_equals_case_and_space :
  safe_equals default_config (VStr " Foo ") (VStr "foo") = Ok true /\
  safe_equals {| ignore_case := false; ignore_whitespace := false;
                 float_precision := 5; treat_nulls_equal := true |}
    (VStr " Foo ") (VStr "foo") = Ok false /\
  safe_equals default_config (VInt 10) (VStr "10.00") = Ok true /\
  safe_equals default_config (VBool true) (VStr "TRUE") = Ok true.
Proof. repeat split; vm_compute; reflexivity. Qed.

(** C5: the value comparison is symmetric, under every setting. *)
Theorem safe_equals_sym (cfg : Config) (a b : value) :
  safe_equals cfg a b = safe_equals cfg b a.
Proof.
  unfold Validator.safe_equals.
  rewrite (andb_comm (isna b)), (orb_comm (isna b)).
  rewrite (numeric_attempt_sym cfg (normalize cfg a) (normalize cfg b)).
  rewrite (String.eqb_sym (normalize cfg b)). reflexivity.
Qed.

(** A cell value compares equal to itself. *)
Lemma safe_equals_refl (cfg : Config) (a : value) :
  0 <= float_precision cfg -> safe_equals cfg a a = Ok true.
Proof.
  intros Hp.
  destruct (treat_nulls_equal cfg && (isna a || isna a)) eqn:Hnull.
  - unfold Validator.safe_equals. rewrite orb_diag in Hnull.
    rewrite andb_diag, Hnull. reflexivity.
  - rewrite (safe_equals_not_null cfg a a Hnull).
    destruct (to_number (normalize cfg a)) as [x|e] eqn:H.
    2:{ rewrite (numeric_attempt_fails cfg _ _ e) by (left; exact H).
        simpl. rewrite String.eqb_refl. reflexivity. }
    destruct (isnan x) eqn:N.
    { rewrite (numeric_attempt_nan cfg _ _ x x) by auto.
      simpl. rewrite String.eqb_refl. reflexivity. }
    destruct (numeric_attempt_numbers cfg _ _ x x Hp H H N N)
      as (r1 & r2 & R1 & R2 & N1 & _ & ->).
    simpl. rewrite R1 in R2. inversion R2. subst r2.
    rewrite eqb_refl by exact N1. reflexivity.
Qed.

(** C6: with [treat_nulls_equal] set, two missing values compare equal
    and a missing value differs from every present one: [None] equals
    [None] and differs from ["x"]. *)
Theorem safe_equals_nulls (cfg : Config) :
  treat_nulls_equal cfg = true ->
  (forall a b, isna a = true -> isna b = true -> safe_equals cfg a b = Ok true) /\
  (forall a b, isna a <> isna b -> safe_equals cfg a b = Ok false) /\
  safe_equals cfg VNone VNone = Ok true /\
  safe_equals cfg VNone (VStr "x") = Ok false.
Proof.
  intros Ht.
  assert (H1 : forall a b, isna a = true -> isna b = true ->
                           safe_equals cfg a b = Ok true).
  { intros a b Ha Hb. unfold Validator.safe_equals. rewrite Ht, Ha, Hb. reflexivity. }
  assert (H2 : forall a b, isna a <> isna b -> safe_equals cfg a b = Ok false).
  { intros a b Hab. unfold Validator.safe_equals. rewrite Ht.
    destruct (isna a), (isna b); try reflexivity; congruence. }
  repeat split; [exact H1 | exact H2 | apply H1; reflexivity |
                 apply H2; discriminate].
Qed.

(** C10: with [treat_nulls_equal] set, the empty string is not a missing
    value for the comparison: it differs from [None] and from every other
    missing value, and it equals itself, by the string comparison (the
    numeric attempt gives no answer on two empty strings). *)
Theorem safe_equals_empty_string (cfg : Config) :
  treat_nulls_equal cfg = true ->
  isna (VStr "") = false /\
  safe_equals cfg (VStr "") VNone = Ok false /\
  (forall v, isna v = true -> safe_equals cfg (VStr "") v = Ok false) /\
  safe_equals cfg (VStr "") (VStr "") = Ok true /\
  numeric_attempt cfg (normalize cfg (VStr "")) (normalize cfg (VStr "")) = Ok None.
Proof.
  intros Ht.
  assert (Hmiss : forall v, isna v = true ->
                            safe_equals cfg (VStr "") v = Ok false).
  { intros v Hv. unfold Validator.safe_equals. rewrite Ht, Hv. reflexivity. }
  split; [reflexivity|]. split; [apply Hmiss; reflexivity|].
  split; [exact Hmiss|].
  destruct cfg as [ic iw p tn]. simpl in Ht. subst tn.
  split; destruct ic, iw; reflexivity.
Qed.

End Facts.

(** An instance for C1, at the default settings: "12" against "12a",
    where the second conversion fails. *)
Lemma safe_equals_total_witness :
  valid_config default_config /\
  (exists r, safe_equals (fun _ => "") (fun _ => "") default_config
               (VStr "12") (VStr "12a") = Ok r) /\
  safe_equals (fun _ => "") (fun _ => "") default_config (VStr "12") (VStr "12a")
  = Ok (String.eqb "12" "12a").
Proof.
  assert (H : valid_config default_config) by (split; discriminate).
  destruct (safe_equals_total (fun _ => "") (fun _ => "") default_config
              (VStr "12") (VStr "12a") H) as [H1 H2].
  split; [exact H|]. split; [exact H1|].
  apply (H2 ValueError); [reflexivity|].
  right. eexists. split; vm_compute; reflexivity.
Defined.

(** The claim C2 without the NaN proviso fails: "nan" converts to a
    number on both sides, the rounded numbers differ (NaN is not equal to
    itself), and [safe_equals] answers [True] from the strings. *)
Lemma nan_strings_compared_as_text :
  float_of_string (normalize (fun _ => "") (fun _ => "") default_config (VStr "nan"))
  = Ok S754_nan /\
  (let! r1 := round S754_nan (float_precision default_config) in
   let! r2 := round S754_nan (float_precision default_config) in
   Ok (eqb r1 r2)) = Ok false /\
  safe_equals (fun _ => "") (fun _ => "") default_config (VStr "nan") (VStr "nan")
  = Ok true.
Proof. repeat split; vm_compute; reflexivity. Qed.

(** An instance for C2: "1.25" against "1.250999", and the two pairs of
    the claim, at the default settings. *)
Lemma safe_equals_numeric_witness :
  (exists r1 r2,
     round (S754_finite false 5629499534213120 (-52)) 5 = Ok r1 /\
     round (S754_finite false 5633998630240863 (-52)) 5 = Ok r2 /\
     safe_equals (fun _ => "") (fun _ => "") default_config
       (VStr "1.25") (VStr "1.250999") = Ok (eqb r1 r2)) /\
  safe_equals (fun _ => "") (fun _ => "") default_config
    (VStr "1.000001") (VStr "1.000002") = Ok true /\
  safe_equals (fun _ => "") (fun _ => "") default_config
    (VStr "1.00001") (VStr "1.00002") = Ok false.
Proof.
  destruct (safe_equals_numeric (fun _ => "") (fun _ => "") default_config
              (VStr "1.25") (VStr "1.250999")) as [H1 H2].
  split; [|exact (H2 eq_refl)].
  apply H1; [split; discriminate | vm_compute; reflexivity ..].
Defined.

(** An instance for C6, at the default settings. *)
Lemma safe_equals_nulls_witness :
  safe_equals (fun _ => "") (fun _ => "") default_config VNone VNone = Ok true /\
  safe_equals (fun _ => "") (fun _ => "") default_config VNone (VStr "x") = Ok false.
Proof.
  pose proof (safe_equals_nulls (fun _ => "") (fun _ => "") default_config eq_refl)
    as (_ & _ & H1 & H2).
  split; [exact H1 | exact H2].
Defined.

(** An instance for C10, at the default settings. *)
Lemma safe_equals_empty_string_witness :
  safe_equals (fun _ => "") (fun _ => "") default_config (VStr "") VNone = Ok false /\
  safe_equals (fun _ => "") (fun _ => "") default_config (VStr "") (VStr "") = Ok true.
Proof.
  pose proof (safe_equals_empty_string (fun _ => "") (fun _ => "") default_config
                eq_refl) as (_ & H1 & _ & H2 & _).
  split; [exact H1 | exact H2].
Defined.

End ComparatorFacts.

(** * Ordering and sorting *)

Module SortFacts.

Import PyFloat Validator.

Section InsertionSort.

Context {A : Type} (leb : A -> A -> bool).

Let R : relation A := fun x y => leb x y = true.

Hypothesis leb_total : forall x y, leb x y = true \/ leb y x = true.

Lemma insert_sorted_perm (x : A) (l : list A) : insert_sorted leb x l ≡ₚ x :: l.
Proof.
  induction l as [|y l IH]; simpl; [reflexivity|].
  destruct (leb x y); [reflexivity|].
  rewrite IH. apply perm_swap.
Qed.

Lemma insertion_sort_perm (l : list A) : insertion_sort leb l ≡ₚ l.
Proof.
  induction l as [|x l IH]; simpl; [reflexivity|].
  rewrite insert_sorted_perm. apply perm_skip, IH.
Qed.

Lemma insert_sorted_hd (a x : A) (l : list A) :
  R a x -> HdRel R a l -> HdRel R a (insert_sorted leb x l).
Proof.
  intros Hax Hl. destruct l as [|y l]; simpl; [constructor; exact Hax|].
  destruct (leb x y); constructor; [exact Hax|].
  inversion Hl; assumption.
Qed.

Lemma insert_sorted_sorted (x : A) (l : list A) :
  Sorted R l -> Sorted R (insert_sorted leb x l).
Proof.
  induction 1 as [|y l Hs IH Hhd]; simpl.
  - repeat constructor.
  - destruct (leb x y) eqn:E.
    + constructor; [constructor; assumption | constructor; exact E].
    + constructor; [exact IH|].
      apply insert_sorted_hd; [|exact Hhd].
      destruct (leb_total x y) as [H|H]; [congruence | exact H].
Qed.

Lemma insertion_sort_sorted (l : list A) : Sorted R (insertion_sort leb l).
Proof.
  induction l as [|x l IH]; simpl; [constructor|].
  apply insert_sorted_sorted, IH.
Qed.

Hypothesis leb_trans :
  forall x y z, leb x y = true -> leb y z = true -> leb x z = true.

Let equiv (r x : A) : bool := leb r x && leb x r.

Lemma insert_sorted_filter (r x : A) (l : list A) :
  filter (fun y => equiv r y = true) (insert_sorted leb x l)
  = filter (fun y => equiv r y = true) (x :: l).
Proof.
  induction l as [|y l IH]; simpl; [reflexivity|].
  destruct (leb x y) eqn:E; [reflexivity|].
  rewrite filter_cons, IH, !filter_cons.
  destruct (decide (equiv r y = true)) as [Hy|Hy];
    destruct (decide (equiv r x = true)) as [Hx|Hx]; try reflexivity.
  exfalso. unfold equiv in Hx, Hy.
  apply andb_true_iff in Hx as [_ Hx], Hy as [Hy _].
  rewrite (leb_trans x r y Hx Hy) in E. discriminate.
Qed.

(** Insertion sort is stable. *)
Lemma insertion_sort_filter (r : A) (l : list A) :
  filter (fun y => equiv r y = true) (insertion_sort leb l)
  = filter (fun y => equiv r y = true) l.
Proof.
  induction l as [|x l IH]; simpl; [reflexivity|].
  rewrite insert_sorted_filter, !filter_cons, IH. reflexivity.
Qed.

End InsertionSort.

(** ** The order of key values *)

Lemma ext_leb_total (a b : ext) : ext_leb a b = true \/ ext_leb b a = true.
Proof.
  destruct a, b; simpl; auto.
  destruct (Z.le_ge_cases z z0); [left | right]; apply Z.leb_le; assumption.
Qed.

Lemma ext_leb_trans (a b c : ext) :
  ext_leb a b = true -> ext_leb b c = true -> ext_leb a c = true.
Proof.
  destruct a, b, c; simpl; try congruence.
  rewrite !Z.leb_le. lia.
Qed.

Lemma key_le_total (a b : key) : key_le a b = true \/ key_le b a = true.
Proof.
  destruct a, b; simpl; auto using ext_leb_total, String.leb_total.
  destruct (Z.le_ge_cases t t0); [left | right]; apply Z.leb_le; assumption.
Qed.

Lemma key_le_trans (a b c : key) :
  key_le a b = true -> key_le b c = true -> key_le a c = true.
Proof.
  destruct a, b, c; simpl; try reflexivity;
    try (intros H1 H2; vm_compute in H1, H2; discriminate).
  - apply ext_leb_trans.
  - intros H1 H2. apply Is_true_true. apply Is_true_true in H1, H2.
    exact (transitivity (R := String.le) H1 H2).
  - rewrite !Z.leb_le. lia.
Qed.

Lemma value_leb_total (a b : value) : value_leb a b = true \/ value_leb b a = true.
Proof. apply key_le_total. Qed.

Lemma value_leb_trans (a b c : value) :
  value_leb a b = true -> value_leb b c = true -> value_leb a c = true.
Proof. apply key_le_trans. Qed.

(** Missing values are last. *)
Lemma value_leb_missing_last (a b : value) :
  isna b = true ->
  value_leb a b = true /\ (isna a = false -> value_leb b a = false).
Proof.
  intros Hb. unfold value_leb, key_of. rewrite Hb. split.
  - destruct (isna a); [reflexivity|]. destruct a; reflexivity.
  - intros ->. destruct a; reflexivity.
Qed.

(** ** The order of rows on a key list *)

Lemma key_leb_total (by_ : list string) (r1 r2 : row) :
  key_leb by_ r1 r2 = true \/ key_leb by_ r2 r1 = true.
Proof.
  induction by_ as [|k ks IH]; simpl; [auto|].
  destruct (value_leb (r1 k) (r2 k)) eqn:E1, (value_leb (r2 k) (r1 k)) eqn:E2;
    auto.
  destruct (value_leb_total (r1 k) (r2 k)); congruence.
Qed.

Lemma key_leb_trans (by_ : list string) (r1 r2 r3 : row) :
  key_leb by_ r1 r2 = true -> key_leb by_ r2 r3 = true ->
  key_leb by_ r1 r3 = true.
Proof.
  induction by_ as [|k ks IH]; simpl; [auto|].
  destruct (value_leb (r1 k) (r2 k)) eqn:E12; [|discriminate].
  destruct (value_leb (r2 k) (r3 k)) eqn:E23; [|intros _; discriminate].
  rewrite (value_leb_trans _ _ _ E12 E23).
  destruct (value_leb (r3 k) (r1 k)) eqn:E31; [|reflexivity].
  rewrite (value_leb_trans _ _ _ E23 E31), (value_leb_trans _ _ _ E31 E12).
  exact IH.
Qed.

#[local] Instance rows_le_trans (by_ : list string) : Transitive (rows_le by_).
Proof. intros r1 r2 r3. apply key_leb_trans. Qed.

(** ** Taking rows by position *)

Lemma omap_lookup_shift {A : Type} (x : A) (l : list A) (q : list nat) :
  omap (fun i => (x :: l) !! i) (S <$> q) = omap (fun i => l !! i) q.
Proof.
  induction q as [|i q IH]; [reflexivity|].
  csimpl. destruct (l !! i); csimpl; rewrite IH; reflexivity.
Qed.

Lemma omap_lookup_seq {A : Type} (l : list A) :
  omap (fun i => l !! i) (seq 0 (length l)) = l.
Proof.
  induction l as [|x l IH]; [reflexivity|].
  cbn [length seq]. rewrite <- fmap_S_seq.
  change (omap (fun i => (x :: l) !! i) (0%nat :: (S <$> seq 0 (length l))))
    with (x :: omap (fun i => (x :: l) !! i) (S <$> seq 0 (length l))).
  rewrite omap_lookup_shift, IH. reflexivity.
Qed.

Lemma omap_lookup_perm {A : Type} (l : list A) (q : list nat) :
  q ≡ₚ seq 0 (length l) -> omap (fun i => l !! i) q ≡ₚ l.
Proof. intros ->. rewrite omap_lookup_seq. reflexivity. Qed.

Lemma omap_lookup_fmap {A B : Type} (f : A -> B) (l : list A) (q : list nat) :
  omap (fun i => (f <$> l) !! i) q = f <$> omap (fun i => l !! i) q.
Proof.
  induction q as [|i q IH]; [reflexivity|].
  csimpl. rewrite list_lookup_fmap.
  destruct (l !! i); csimpl; rewrite IH; reflexivity.
Qed.

Lemma omap_lookup_default {A : Type} (d : A) (l : list A) (q : list nat) :
  Forall (fun i => (i < length l)%nat) q ->
  omap (fun i => l !! i) q = (fun i => default d (l !! i)) <$> q.
Proof.
  induction 1 as [|i q Hi _ IH]; [reflexivity|].
  csimpl. destruct (lookup_lt_is_Some_2 l i Hi) as [x Hx].
  rewrite Hx. csimpl. rewrite IH. reflexivity.
Qed.

Lemma Sorted_fmap_inv {A B : Type} (f : A -> B) (R : relation B) (l : list A) :
  Sorted R (f <$> l) -> Sorted (fun x y => R (f x) (f y)) l.
Proof.
  induction l as [|x l IH]; [constructor|].
  intros H. inversion H as [|? ? Hs Hhd]; subst.
  constructor; [apply IH, Hs|].
  destruct l; constructor. inversion Hhd; assumption.
Qed.

Lemma filter_none {A : Type} (P : A -> Prop) `{!forall x, Decision (P x)}
    (l : list A) :
  Forall (fun x => ~ P x) l -> filter P l = [].
Proof.
  induction 1 as [|x l Hx _ IH]; [reflexivity|].
  rewrite filter_cons_False by exact Hx. exact IH.
Qed.

Lemma Sorted_weaken {A : Type} (R1 R2 : relation A) (l : list A) :
  (forall x y, R1 x y -> R2 x y) -> Sorted R1 l -> Sorted R2 l.
Proof.
  intros HR. induction 1 as [|x l _ IH Hhd]; constructor; [exact IH|].
  destruct Hhd; constructor. apply HR. assumption.
Qed.

Lemma StronglySorted_all {A : Type} (R : relation A) (P : A -> Prop) (l : list A) :
  (forall x y, P x -> P y -> R x y) -> Forall P l -> StronglySorted R l.
Proof.
  intros HR. induction 1 as [|x l Hx Hl IH]; constructor; [exact IH|].
  eapply Forall_impl; [exact Hl|]. intros y Hy. apply HR; assumption.
Qed.

(** ** The two sample sorts meet the contract *)

Lemma index_sort_contract (l : list value) (p : list nat) :
  p ≡ₚ seq 0 (length l) ->
  index_sort l p ≡ₚ seq 0 (length l) /\
  Sorted value_le (omap (fun i => l !! i) (index_sort l p)).
Proof.
  intros Hp.
  assert (Hq : index_sort l p ≡ₚ seq 0 (length l)).
  { unfold index_sort. rewrite insertion_sort_perm. exact Hp. }
  split; [exact Hq|].
  rewrite (omap_lookup_default VNone).
  - apply (Sorted_fmap _
             (fun i j => value_leb (value_at l i) (value_at l j) = true)).
    + intros i j H. exact H.
    + apply insertion_sort_sorted. intros i j. apply value_leb_total.
  - apply Forall_forall. intros i Hi. rewrite Hq in Hi.
    apply elem_of_seq in Hi. lia.
Qed.

Lemma insertion_argsort_contract : argsort_contract insertion_argsort.
Proof. intros l _. apply index_sort_contract. reflexivity. Qed.


(** [Numpy.aquicksort] on a sample of forty numbers with repetitions: the
    positions returned are all the positions, and they list the values
    in ascending order. *)
Lemma aquicksort_sample :
  let l := map (fun i => VInt ((Z.of_nat i * 37 + 11) mod 23)) (seq 0 40) in
  insertion_sort Nat.leb (Numpy.aquicksort l) = seq 0 40 /\
  omap (fun i => l !! i) (Numpy.aquicksort l) = insertion_sort value_leb l.
Proof. split; vm_compute; reflexivity. Qed.

(** ** [sort_values] *)

Section SortValues.

Variable argsort : list value -> list nat.
Hypothesis argsort_ok : argsort_contract argsort.

Local Abbreviation sort_single := (sort_single argsort).
Local Abbreviation sort_values := (sort_values argsort).

Lemma partition_missing (k : string) (l : list row) :
  filter (fun r : row => negb (isna (r k))) l
  ++ filter (fun r : row => isna (r k)) l ≡ₚ l.
Proof.
  induction l as [|r l IH]; [reflexivity|].
  rewrite !filter_cons.
  destruct (decide (negb (isna (r k)))) as [H1|H1],
           (decide (isna (r k))) as [H2|H2];
    destruct (isna (r k)); simpl in H1, H2; try contradiction.
  - simpl. apply perm_skip, IH.
  - rewrite <- Permutation_middle. apply perm_skip, IH.
Qed.

Lemma sortable_homogeneous (df : DataFrame) (k : string) :
  sortable df k = true ->
  homogeneous
    ((fun r : row => r k) <$> filter (fun r : row => negb (isna (r k))) (rows df)).
Proof.
  unfold sortable.
  assert (E : filter (fun v => negb (isna v)) (map (fun r : row => r k) (rows df))
              = (fun r : row => r k)
                  <$> filter (fun r : row => negb (isna (r k))) (rows df)).
  { induction (rows df) as [|r l IH]; [reflexivity|].
    simpl. rewrite !filter_cons.
    destruct (decide (negb (isna (r k)))); simpl; rewrite IH; reflexivity. }
  rewrite E. clear E.
  set (vs := (fun r : row => r k) <$> _).
  assert (Hpres : forall v, v ∈ vs -> isna v = false).
  { intros v Hv. apply list_elem_of_fmap in Hv as (r & -> & Hr).
    apply list_elem_of_filter in Hr as [Hr _].
    destruct (isna (r k)); [destruct Hr | reflexivity]. }
  destruct vs as [|v0 vs0] eqn:Evs.
  { intros _ v w Hv. inversion Hv. }
  intros Hall.
  assert (Hrank : forall v, v ∈ v0 :: vs0 ->
                            key_rank (key_of v) = key_rank (key_of v0)).
  { intros v Hv. apply elem_of_cons in Hv as [->|Hv]; [reflexivity|].
    rewrite forallb_forall in Hall.
    apply Z.eqb_eq, Hall, list_elem_of_In, Hv. }
  intros v w Hv Hw. split; [apply Hpres, Hv|].
  rewrite (Hrank v Hv), (Hrank w Hw). reflexivity.
Qed.

Lemma sort_single_perm (df : DataFrame) (k : string) :
  sortable df k = true -> sort_single k (rows df) ≡ₚ rows df.
Proof.
  intros Hs. unfold Validator.sort_single, take_rows.
  destruct (argsort_ok _ (sortable_homogeneous df k Hs)) as [Hperm _].
  rewrite length_fmap in Hperm.
  rewrite (omap_lookup_perm _ _ Hperm). apply partition_missing.
Qed.

Lemma rows_le_single (k : string) (r1 r2 : row) :
  value_leb (r1 k) (r2 k) = true -> rows_le [k] r1 r2.
Proof.
  unfold rows_le. simpl. intros ->. destruct (value_leb (r2 k) (r1 k)); reflexivity.
Qed.

Lemma sort_single_sorted (df : DataFrame) (k : string) :
  sortable df k = true ->
  StronglySorted (rows_le [k]) (sort_single k (rows df)).
Proof.
  intros Hs. unfold Validator.sort_single, take_rows.
  destruct (argsort_ok _ (sortable_homogeneous df k Hs)) as [_ Hsorted].
  rewrite omap_lookup_fmap in Hsorted. apply Sorted_fmap_inv in Hsorted.
  apply StronglySorted_app_2.
  - intros r1 r2 _ H2. apply list_elem_of_filter in H2 as [H2 _].
    apply rows_le_single.
    apply value_leb_missing_last. destruct (isna (r2 k)); [reflexivity | destruct H2].
  - apply Sorted_StronglySorted; [apply rows_le_trans|].
    eapply Sorted_weaken; [|exact Hsorted].
    intros r1 r2 H. apply rows_le_single, H.
  - apply (StronglySorted_all _ (fun r : row => isna (r k) = true)).
    + intros r1 r2 _ H2. apply rows_le_single, value_leb_missing_last, H2.
    + apply Forall_forall. intros r Hr.
      apply list_elem_of_filter in Hr as [Hr _].
      destruct (isna (r k)); [reflexivity | destruct Hr].
Qed.

(** On one key, the rows with a missing key keep their order. *)
Lemma sort_single_missing (df : DataFrame) (k : string) :
  sortable df k = true ->
  filter (fun r : row => isna (r k)) (sort_single k (rows df))
  = filter (fun r : row => isna (r k)) (rows df).
Proof.
  intros Hs. unfold Validator.sort_single, take_rows.
  rewrite filter_app.
  match goal with
  | |- (?a ++ _)%list = _ => assert (E1 : a = [])
  end.
  { apply filter_none, Forall_forall. intros r Hr Hna.
    apply list_elem_of_omap in Hr as (i & _ & Hi).
    apply list_elem_of_lookup_2, list_elem_of_filter in Hi as [Hi _].
    destruct (isna (r k)); [destruct Hi | destruct Hna]. }
  rewrite E1. simpl.
  apply list_filter_filter_r. tauto.
Qed.

(** The present values that [keep] selects are of one kind. *)
Lemma one_kind_iff (keep : value -> bool) (vals : list value) :
  match filter (fun v => keep v) vals with
  | [] => true
  | v :: vs => forallb (fun w => key_rank (key_of w) =? key_rank (key_of v)) vs
  end = true
  <-> forall v w, v ∈ vals -> w ∈ vals -> keep v = true -> keep w = true ->
                  key_rank (key_of v) = key_rank (key_of w).
Proof.
  set (vs := filter (fun v => keep v) vals).
  assert (Hin : forall v, v ∈ vs <-> keep v = true /\ v ∈ vals).
  { intros v. unfold vs. rewrite list_elem_of_filter. split.
    - intros [H1 H2]. split; [apply Is_true_true, H1 | exact H2].
    - intros [H1 H2]. split; [apply Is_true_true, H1 | exact H2]. }
  clearbody vs. split.
  - intros H v w Hv Hw Kv Kw.
    assert (V1 : v ∈ vs) by (apply Hin; auto).
    assert (V2 : w ∈ vs) by (apply Hin; auto).
    destruct vs as [|v0 vs0]; [inversion V1|].
    rewrite forallb_forall in H.
    assert (Hrank : forall u, u ∈ v0 :: vs0 ->
                              key_rank (key_of u) = key_rank (key_of v0)).
    { intros u Hu. apply elem_of_cons in Hu as [->|Hu]; [reflexivity|].
      apply Z.eqb_eq, H, list_elem_of_In, Hu. }
    rewrite (Hrank _ V1), (Hrank _ V2). reflexivity.
  - intros H. destruct vs as [|v0 vs0]; [reflexivity|].
    apply forallb_forall. intros w Hw. apply Z.eqb_eq.
    assert (V0 : v0 ∈ v0 :: vs0) by left.
    assert (Vw : w ∈ v0 :: vs0) by (right; apply list_elem_of_In, Hw).
    apply Hin in V0 as [K0 I0]. apply Hin in Vw as [Kw Iw].
    apply H; assumption.
Qed.

(** A column of one kind of present values can be sorted with any keys. *)
Lemma sortable_spec (df : DataFrame) (k : string) :
  sortable df k = true
  <-> forall v w, v ∈ map (fun r : row => r k) (rows df) ->
                  w ∈ map (fun r : row => r k) (rows df) ->
                  isna v = false -> isna w = false ->
                  key_rank (key_of v) = key_rank (key_of w).
Proof.
  pose proof (one_kind_iff (fun v => negb (isna v))
                (map (fun r : row => r k) (rows df))) as X.
  cbv beta in X. unfold sortable. split.
  - intros H v w Hv Hw Nv Nw. apply (proj1 X H v w Hv Hw); [rewrite Nv | rewrite Nw];
      reflexivity.
  - intros H. apply (proj2 X). intros v w Hv Hw Nv Nw.
    apply H; try assumption; [destruct (isna v) | destruct (isna w)];
      (reflexivity || discriminate).
Qed.

Lemma sortable_mixed_spec (df : DataFrame) (k : string) :
  sortable_mixed df k = true
  <-> forall v w, v ∈ map (fun r : row => r k) (rows df) ->
                  w ∈ map (fun r : row => r k) (rows df) ->
                  isna v = false -> isna w = false ->
                  is_text v = false -> is_text w = false ->
                  key_rank (key_of v) = key_rank (key_of w).
Proof.
  pose proof (one_kind_iff (fun v => negb (isna v) && negb (is_text v))
                (map (fun r : row => r k) (rows df))) as X.
  cbv beta in X. unfold sortable_mixed. split.
  - intros H v w Hv Hw Nv Nw Tv Tw.
    apply (proj1 X H v w Hv Hw); [rewrite Nv, Tv | rewrite Nw, Tw]; reflexivity.
  - intros H. apply (proj2 X). intros v w Hv Hw Kv Kw.
    apply andb_true_iff in Kv as [Nv Tv]. apply andb_true_iff in Kw as [Nw Tw].
    apply H; try assumption;
      [destruct (isna v) | destruct (isna w)
      | destruct (is_text v) | destruct (is_text w)];
      (reflexivity || discriminate).
Qed.

(** A column of one kind of present values can be sorted with any keys. *)
Lemma sortable_can_sort (by_ : list string) (df : DataFrame) (k : string) :
  sortable df k = true -> can_sort by_ df k = true.
Proof.
  intros H.
  assert (Hm : sortable_mixed df k = true).
  { apply sortable_mixed_spec. intros v w Hv Hw Nv Nw _ _.
    apply (proj1 (sortable_spec df k) H); assumption. }
  destruct by_ as [|k0 [|k1 ks]]; [exact Hm | exact H | exact Hm].
Qed.

Lemma can_sort_perm (by_ : list string) (df df' : DataFrame) (k : string) :
  rows df ≡ₚ rows df' -> can_sort by_ df k = true -> can_sort by_ df' k = true.
Proof.
  intros Hp.
  assert (Hin : forall v, v ∈ map (fun r : row => r k) (rows df')
                          -> v ∈ map (fun r : row => r k) (rows df)).
  { intros v. change (map (fun r : row => r k) (rows df'))
      with ((fun r : row => r k) <$> rows df').
    change (map (fun r : row => r k) (rows df))
      with ((fun r : row => r k) <$> rows df).
    rewrite Hp. auto. }
  assert (H1 : sortable df k = true -> sortable df' k = true).
  { rewrite !sortable_spec. intros H v w Hv Hw. apply H; apply Hin; assumption. }
  assert (H2 : sortable_mixed df k = true -> sortable_mixed df' k = true).
  { rewrite !sortable_mixed_spec. intros H v w Hv Hw.
    apply H; apply Hin; assumption. }
  destruct by_ as [|k0 [|k1 ks]]; [exact H2 | exact H1 | exact H2].
Qed.

Lemma sort_values_returns (by_ : list string) (df : DataFrame) :
  (forall k, k ∈ by_ -> k ∈ columns df) ->
  (forall k, k ∈ by_ -> can_sort by_ df k = true) ->
  exists df', sort_values by_ df = Ok df' /\ columns df' = columns df.
Proof.
  intros Hcols Hsort. unfold Validator.sort_values.
  assert (E1 : forallb (fun k => bool_decide (k ∈ columns df)) by_ = true).
  { apply forallb_forall. intros k Hk. apply bool_decide_eq_true, Hcols.
    apply list_elem_of_In, Hk. }
  assert (E2 : forallb (can_sort by_ df) by_ = true).
  { apply forallb_forall. intros k Hk. apply Hsort, list_elem_of_In, Hk. }
  rewrite E1, E2. simpl.
  destruct by_ as [|k [|k' ks]]; eexists; split; reflexivity.
Qed.

Lemma sort_values_inv (by_ : list string) (df df' : DataFrame) :
  sort_values by_ df = Ok df' ->
  (forall k, k ∈ by_ -> k ∈ columns df /\ can_sort by_ df k = true) /\
  columns df' = columns df /\
  rows df' = match by_ with
             | [] => rows df
             | [k] => sort_single k (rows df)
             | _ => stable_sort (key_leb by_) (rows df)
             end.
Proof.
  unfold Validator.sort_values.
  destruct (forallb (fun k => bool_decide (k ∈ columns df)) by_) eqn:E1;
    [|discriminate].
  destruct (forallb (can_sort by_ df) by_) eqn:E2; [|discriminate].
  simpl. intros H. split.
  - intros k Hk. apply list_elem_of_In in Hk.
    rewrite forallb_forall in E1, E2. split; [|apply E2, Hk].
    eapply bool_decide_eq_true_1, E1, Hk.
  - destruct by_ as [|k [|k' ks]]; inversion H; split; reflexivity.
Qed.

End SortValues.

End SortFacts.

(** * numpy's sort of one column returns the positions in ascending order *)

Module IntrosortFacts.

Import PyFloat Validator SortFacts.

Local Open Scope nat_scope.

(** ** Positions and swaps *)



Lemma pos_insert_ne (t : list nat) (p x k : nat) :
  k <> p -> Numpy.pos (<[p := x]> t) k = Numpy.pos t k.
Proof.
  intros Hk. unfold Numpy.pos.
  rewrite list_lookup_insert_ne by congruence. reflexivity.
Qed.









(** ** Parts put in another order *)







Section Order.

Variable v : list value.







End Order.

(** ** The partition *)

Section Partition.

Variable v : list value.






End Partition.

(** ** The insertion sort of a small part *)

Section Insertion.

Variable v : list value.





End Insertion.

(** ** The heapsort of a part *)








Section Heapsort.

Variable v : list value.











End Heapsort.

(** ** The loop *)

Section Loop.

Variable v : list value.





End Loop.

(** ** numpy's sort meets the contract *)




End IntrosortFacts.

(** * The comparison loop *)

Module LoopFacts.

Import PyFloat Validator ComparatorFacts.

Lemma for_each_ext {A S : Type} (f g : S -> A -> result S) (l : list A) (s : S) :
  (forall s' x, x ∈ l -> f s' x = g s' x) ->
  for_each f l s = for_each g l s.
Proof.
  revert s. induction l as [|x l IH]; intros s H; [reflexivity|].
  simpl. rewrite (H s x) by (left; reflexivity).
  destruct (g s x) as [s1|e]; [|reflexivity].
  simpl. apply IH. intros s' y Hy. apply H. right. exact Hy.
Qed.

Lemma omap_length_le {A B : Type} (f : A -> option B) (l : list A) :
  (length (omap f l) <= length l)%nat.
Proof.
  induction l as [|x l IH]; [reflexivity|].
  csimpl. destruct (f x); simpl; lia.
Qed.

(** ** Keys of [row_data] *)

Lemma key_prefix_inj (a b : string) :
  String.append "Key_" a = String.append "Key_" b -> a = b.
Proof. apply (inj (String.app _)). Qed.

Lemma old_prefix_inj (a b : string) :
  String.append "Old_" a = String.append "Old_" b -> a = b.
Proof. apply (inj (String.app _)). Qed.

Lemma new_prefix_inj (a b : string) :
  String.append "New_" a = String.append "New_" b -> a = b.
Proof. apply (inj (String.app _)). Qed.

Ltac prefix_clash :=
  let E := fresh "E" in intros E; cbv in E; discriminate E.

Section Dict.

Variable float_repr : pyfloat -> string.
Variable timestamp_str : Z -> string.
Variable cfg : Config.
Variables r_old r_new : row.

Local Abbreviation differs := (differs float_repr timestamp_str cfg r_old r_new).
Local Abbreviation diff_cells :=
  (diff_cells float_repr timestamp_str cfg r_old r_new).

Lemma with_keys_snoc (ks : list string) (k : string) (rd : gmap string value) :
  with_keys r_old (ks ++ [k]) rd
  = <[String.append "Key_" k := r_old k]> (with_keys r_old ks rd).
Proof. unfold with_keys. rewrite foldl_app. reflexivity. Qed.

Lemma with_keys_lookup_key (ks : list string) (k : string) (rd : gmap string value) :
  k ∈ ks -> with_keys r_old ks rd !! String.append "Key_" k = Some (r_old k).
Proof.
  induction ks as [|k0 ks IH] using rev_ind; intros Hk; [inversion Hk|].
  rewrite with_keys_snoc.
  destruct (decide (k0 = k)) as [->|Hne]; [apply lookup_insert_eq|].
  rewrite lookup_insert_ne by (intros E; apply key_prefix_inj in E; congruence).
  apply IH. apply elem_of_app in Hk as [Hk|Hk]; [exact Hk|].
  apply list_elem_of_singleton in Hk. congruence.
Qed.

Lemma with_keys_lookup_inv (ks : list string) (key : string) (v : value)
    (rd : gmap string value) :
  with_keys r_old ks rd !! key = Some v ->
  (exists k, k ∈ ks /\ key = String.append "Key_" k /\ v = r_old k)
  \/ rd !! key = Some v.
Proof.
  induction ks as [|k0 ks IH] using rev_ind; [right; assumption|].
  rewrite with_keys_snoc.
  destruct (decide (String.append "Key_" k0 = key)) as [<-|Hne].
  - rewrite lookup_insert_eq. intros [= <-]. left. exists k0.
    split; [apply elem_of_app; right; left | split; reflexivity].
  - rewrite lookup_insert_ne by exact Hne. intros H.
    destruct (IH H) as [(k & Hk & E1 & E2)|Hrd]; [left | right; exact Hrd].
    exists k. split; [apply elem_of_app; left; exact Hk | split; assumption].
Qed.

Lemma diff_cells_snoc (cols : list string) (c : string) (rd : gmap string value) :
  diff_cells (cols ++ [c]) rd
  = if differs c
    then <[String.append "New_" c := r_new c]>
           (<[String.append "Old_" c := r_old c]> (diff_cells cols rd))
    else diff_cells cols rd.
Proof. unfold Validator.diff_cells. rewrite foldl_app. reflexivity. Qed.

Lemma diff_cells_lookup_old (cols : list string) (c : string)
    (rd : gmap string value) :
  c ∈ cols -> differs c = true ->
  diff_cells cols rd !! String.append "Old_" c = Some (r_old c).
Proof.
  induction cols as [|c0 cols IH] using rev_ind; intros Hc Hd; [inversion Hc|].
  rewrite diff_cells_snoc.
  destruct (decide (c0 = c)) as [->|Hne].
  - rewrite Hd. rewrite lookup_insert_ne by prefix_clash. apply lookup_insert_eq.
  - assert (Hin : c ∈ cols).
    { apply elem_of_app in Hc as [Hc|Hc]; [exact Hc|].
      apply list_elem_of_singleton in Hc. congruence. }
    destruct (differs c0); [|apply IH; assumption].
    rewrite lookup_insert_ne by prefix_clash.
    rewrite lookup_insert_ne by (intros E; apply old_prefix_inj in E; congruence).
    apply IH; assumption.
Qed.

Lemma diff_cells_lookup_new (cols : list string) (c : string)
    (rd : gmap string value) :
  c ∈ cols -> differs c = true ->
  diff_cells cols rd !! String.append "New_" c = Some (r_new c).
Proof.
  induction cols as [|c0 cols IH] using rev_ind; intros Hc Hd; [inversion Hc|].
  rewrite diff_cells_snoc.
  destruct (decide (c0 = c)) as [->|Hne].
  - rewrite Hd. apply lookup_insert_eq.
  - assert (Hin : c ∈ cols).
    { apply elem_of_app in Hc as [Hc|Hc]; [exact Hc|].
      apply list_elem_of_singleton in Hc. congruence. }
    destruct (differs c0); [|apply IH; assumption].
    rewrite lookup_insert_ne by (intros E; apply new_prefix_inj in E; congruence).
    rewrite lookup_insert_ne by prefix_clash.
    apply IH; assumption.
Qed.

Lemma diff_cells_lookup_inv (cols : list string) (key : string) (v : value)
    (rd : gmap string value) :
  diff_cells cols rd !! key = Some v ->
  (exists c, c ∈ cols /\ differs c = true /\
             ((key = String.append "Old_" c /\ v = r_old c)
              \/ (key = String.append "New_" c /\ v = r_new c)))
  \/ rd !! key = Some v.
Proof.
  induction cols as [|c0 cols IH] using rev_ind; [right; assumption|].
  rewrite diff_cells_snoc.
  assert (Hmono : forall c : string, c ∈ cols -> c ∈ (cols ++ [c0])%list)
    by (intros c Hc; apply elem_of_app; left; exact Hc).
  assert (Hrec : diff_cells cols rd !! key = Some v ->
                 (exists c, c ∈ (cols ++ [c0])%list /\ differs c = true /\
                    ((key = String.append "Old_" c /\ v = r_old c)
                     \/ (key = String.append "New_" c /\ v = r_new c)))
                 \/ rd !! key = Some v).
  { intros H. destruct (IH H) as [(c & Hc & Hd & Hk)|Hrd]; [left | right; exact Hrd].
    exists c. split; [apply Hmono, Hc | split; assumption]. }
  destruct (differs c0) eqn:Hd0; [|exact Hrec].
  assert (Hlast : c0 ∈ (cols ++ [c0])%list) by (apply elem_of_app; right; left).
  destruct (decide (String.append "New_" c0 = key)) as [<-|Hn].
  { rewrite lookup_insert_eq. intros [= <-]. left. exists c0. auto. }
  rewrite lookup_insert_ne by exact Hn.
  destruct (decide (String.append "Old_" c0 = key)) as [<-|Ho].
  { rewrite lookup_insert_eq. intros [= <-]. left. exists c0. auto. }
  rewrite lookup_insert_ne by exact Ho. exact Hrec.
Qed.

Lemma with_keys_lookup_other (ks : list string) (key : string)
    (rd : gmap string value) :
  (forall k, key <> String.append "Key_" k) ->
  with_keys r_old ks rd !! key = rd !! key.
Proof.
  intros Hkey. induction ks as [|k0 ks IH] using rev_ind; [reflexivity|].
  pose proof (Hkey k0) as Hk0.
  rewrite with_keys_snoc, lookup_insert_ne by congruence.
  exact IH.
Qed.

Lemma diff_cells_lookup_other (cols : list string) (key : string)
    (rd : gmap string value) :
  (forall c, key <> String.append "Old_" c /\ key <> String.append "New_" c) ->
  diff_cells cols rd !! key = rd !! key.
Proof.
  intros Hkey. induction cols as [|c0 cols IH] using rev_ind; [reflexivity|].
  rewrite diff_cells_snoc. destruct (differs c0); [|exact IH].
  destruct (Hkey c0) as [Ho Hn].
  rewrite lookup_insert_ne by congruence.
  rewrite lookup_insert_ne by congruence.
  exact IH.
Qed.

Lemma differs_true_iff (c : string) :
  differs c = true
  <-> safe_equals float_repr timestamp_str cfg (r_old c) (r_new c) = Ok false.
Proof.
  unfold Validator.differs.
  destruct (safe_equals _ _ _ _ _) as [[|]|e]; split; congruence.
Qed.

End Dict.

(** The record built for a position is as [record_at] says. *)
Lemma expected_record_at (float_repr : pyfloat -> string)
    (timestamp_str : Z -> string) (cfg : Config) (df_old df_new : DataFrame)
    (sort_cols common_cols : list string) (idx : nat) (rd : gmap string value) :
  expected_record float_repr timestamp_str cfg df_old df_new sort_cols
    common_cols idx = Some rd ->
  record_at float_repr timestamp_str cfg df_old df_new sort_cols common_cols
    idx rd.
Proof.
  unfold expected_record, record_at.
  destruct (rows df_old !! idx) as [r_old|]; [|discriminate].
  destruct (rows df_new !! idx) as [r_new|]; [|discriminate].
  destruct (existsb _ common_cols) eqn:Hany; [|discriminate].
  intros [= <-]. exists r_old, r_new.
  set (base := with_keys r_old sort_cols {[ "Row" := VInt (Z.of_nat idx + 1) ]}).
  assert (Hbase : forall key v, base !! key = Some v ->
            (exists k, k ∈ sort_cols /\ key = String.append "Key_" k /\ v = r_old k)
            \/ (key = "Row" /\ v = VInt (Z.of_nat idx + 1))).
  { intros key v H. apply with_keys_lookup_inv in H as [H|H]; [left; exact H|].
    right. apply lookup_singleton_Some in H as [<- <-]. split; reflexivity. }
  assert (Hinv : forall key v,
            diff_cells float_repr timestamp_str cfg r_old r_new common_cols base
              !! key = Some v ->
            (exists c, c ∈ common_cols /\
               differs float_repr timestamp_str cfg r_old r_new c = true /\
               ((key = String.append "Old_" c /\ v = r_old c)
                \/ (key = String.append "New_" c /\ v = r_new c)))
            \/ (exists k, k ∈ sort_cols /\ key = String.append "Key_" k /\ v = r_old k)
            \/ (key = "Row" /\ v = VInt (Z.of_nat idx + 1))).
  { intros key v H. apply diff_cells_lookup_inv in H as [H|H]; [left; exact H|].
    right. apply Hbase, H. }
  repeat split; try assumption.
  - rewrite diff_cells_lookup_other by (intros c; split; prefix_clash).
    unfold base. rewrite with_keys_lookup_other by (intros k; prefix_clash).
    apply lookup_singleton_eq.
  - apply Hinv in H as [(c & _ & _ & [[E _]|[E _]])|[(k' & Hk & E & _)|[E _]]];
      try (exfalso; revert E; prefix_clash).
    apply key_prefix_inj in E. subst k'. exact Hk.
  - apply Hinv in H as [(c & _ & _ & [[E _]|[E _]])|[(k' & Hk & E & Hv)|[E _]]];
      try (exfalso; revert E; prefix_clash).
    apply key_prefix_inj in E. subst k'. exact Hv.
  - intros [Hk ->].
    rewrite diff_cells_lookup_other by (intros c; split; prefix_clash).
    apply with_keys_lookup_key, Hk.
  - apply Hinv in H as [(c & Hc & _ & [[E _]|[E _]])|[(k' & _ & E & _)|[E _]]];
      try (exfalso; revert E; prefix_clash).
    apply old_prefix_inj in E. subst c. exact Hc.
  - apply Hinv in H as [(c & _ & Hd & [[E _]|[E _]])|[(k' & _ & E & _)|[E _]]];
      try (exfalso; revert E; prefix_clash).
    apply old_prefix_inj in E. subst c. apply differs_true_iff, Hd.
  - apply Hinv in H as [(c & _ & _ & [[E Hv]|[E _]])|[(k' & _ & E & _)|[E _]]];
      try (exfalso; revert E; prefix_clash).
    apply old_prefix_inj in E. subst c. exact Hv.
  - intros (Hc & Hd & ->). apply diff_cells_lookup_old; [exact Hc|].
    apply differs_true_iff, Hd.
  - apply Hinv in H as [(c & Hc & _ & [[E _]|[E _]])|[(k' & _ & E & _)|[E _]]];
      try (exfalso; revert E; prefix_clash).
    apply new_prefix_inj in E. subst c. exact Hc.
  - apply Hinv in H as [(c & _ & Hd & [[E _]|[E _]])|[(k' & _ & E & _)|[E _]]];
      try (exfalso; revert E; prefix_clash).
    apply new_prefix_inj in E. subst c. apply differs_true_iff, Hd.
  - apply Hinv in H as [(c & _ & _ & [[E _]|[E Hv]])|[(k' & _ & E & _)|[E _]]];
      try (exfalso; revert E; prefix_clash).
    apply new_prefix_inj in E. subst c. exact Hv.
  - intros (Hc & Hd & ->). apply diff_cells_lookup_new; [exact Hc|].
    apply differs_true_iff, Hd.
  - apply existsb_exists in Hany as (c & Hc & Hd).
    exists c. rewrite diff_cells_lookup_old; [eauto | | exact Hd].
    apply list_elem_of_In, Hc.
  - intros key [v H].
    apply Hinv in H as [(c & _ & _ & [[E _]|[E _]])|[(k' & _ & E & _)|[E _]]];
      eauto.
Qed.

(** ** One iteration, then all of them *)

Section Loop.

Variable float_repr : pyfloat -> string.
Variable timestamp_str : Z -> string.
Variable cfg : Config.
Hypothesis cfg_ok : valid_config cfg.

Variables df_old df_new : DataFrame.
Variables sort_cols common_cols : list string.

Hypothesis keys_exist : forall k, k ∈ sort_cols -> k ∈ columns df_old.
Hypothesis common_exist :
  forall c, c ∈ common_cols -> c ∈ columns df_old /\ c ∈ columns df_new.

Local Abbreviation safe_equals := (safe_equals float_repr timestamp_str cfg).
Local Abbreviation differs := (differs float_repr timestamp_str cfg).
Local Abbreviation diff_cells := (diff_cells float_repr timestamp_str cfg).
Local Abbreviation scan_cell :=
  (scan_cell float_repr timestamp_str cfg df_old df_new).
Local Abbreviation compare_row :=
  (compare_row float_repr timestamp_str cfg df_old df_new sort_cols common_cols).
Local Abbreviation expected_record :=
  (expected_record float_repr timestamp_str cfg df_old df_new sort_cols
     common_cols).

Lemma loc_lookup (df : DataFrame) (idx : nat) (col : string) (r : row) :
  rows df !! idx = Some r -> col ∈ columns df -> loc df idx col = Ok (r col).
Proof.
  intros Hr Hc. unfold loc. rewrite Hr, bool_decide_eq_true_2 by exact Hc.
  reflexivity.
Qed.

Lemma add_keys_run (idx : nat) (r_old : row) (ks : list string)
    (rd : gmap string value) :
  rows df_old !! idx = Some r_old ->
  (forall k, k ∈ ks -> k ∈ columns df_old) ->
  for_each (add_key df_old idx) ks rd = Ok (with_keys r_old ks rd).
Proof.
  intros Hr. revert rd. induction ks as [|k ks IH]; intros rd Hks; [reflexivity|].
  cbn [for_each]. unfold add_key at 1.
  rewrite (loc_lookup _ _ _ _ Hr) by (apply Hks; left). cbn [Py.bind].
  apply IH. intros k' Hk'. apply Hks. right. exact Hk'.
Qed.

Lemma differs_spec (r_old r_new : row) (col : string) :
  safe_equals (r_old col) (r_new col) = Ok (negb (differs r_old r_new col)).
Proof.
  unfold Validator.differs.
  destruct (safe_equals_returns float_repr timestamp_str cfg (r_old col)
              (r_new col)) as [b ->]; [destruct cfg_ok; lia|].
  destruct b; reflexivity.
Qed.

Lemma scan_cells_run (idx : nat) (r_old r_new : row) (cols : list string)
    (st : RowScan) :
  rows df_old !! idx = Some r_old -> rows df_new !! idx = Some r_new ->
  (forall c, c ∈ cols -> c ∈ columns df_old /\ c ∈ columns df_new) ->
  exists st',
    for_each (scan_cell idx) cols st = Ok st' /\
    row_data st' = diff_cells r_old r_new cols (row_data st) /\
    row_has_mismatch st'
    = row_has_mismatch st || existsb (differs r_old r_new) cols.
Proof.
  intros Ho Hn. revert st.
  induction cols as [|c cols IH]; intros st Hcols.
  { exists st. rewrite orb_false_r. repeat split. }
  destruct (Hcols c ltac:(left)) as [Hco Hcn].
  assert (Hrest : forall c', c' ∈ cols -> c' ∈ columns df_old /\ c' ∈ columns df_new)
    by (intros c' Hc'; apply Hcols; right; exact Hc').
  assert (Hstep :
    scan_cell idx st c
    = Ok (if differs r_old r_new c
          then {| row_has_mismatch := true;
                  row_data := <[String.append "New_" c := r_new c]>
                                (<[String.append "Old_" c := r_old c]> (row_data st));
                  seen_columns := {[ c ]} ∪ seen_columns st |}
          else st)).
  { unfold Validator.scan_cell.
    rewrite (loc_lookup _ _ _ _ Ho Hco), (loc_lookup _ _ _ _ Hn Hcn).
    cbn [Py.bind]. rewrite differs_spec. cbn [Py.bind].
    rewrite negb_involutive. destruct (differs r_old r_new c); reflexivity. }
  cbn [for_each]. rewrite Hstep. cbn [Py.bind].
  match goal with
  | |- context [for_each _ cols ?s] =>
      destruct (IH s Hrest) as (st' & E & E1 & E2)
  end.
  exists st'. split; [exact E|]. rewrite E1, E2.
  unfold Validator.diff_cells. cbn [foldl existsb].
  destruct (differs r_old r_new c); cbn [row_data row_has_mismatch];
    [rewrite orb_true_r | ]; split; reflexivity.
Qed.

Lemma compare_row_run (rep : Report) (idx : nat) :
  (idx < len df_old)%nat -> (idx < len df_new)%nat ->
  exists rep',
    compare_row rep idx = Ok rep' /\
    mismatch_report rep'
    = mismatch_report rep ++ option_list (expected_record idx).
Proof.
  intros Ho Hn.
  destruct (lookup_lt_is_Some_2 (rows df_old) idx Ho) as [r_old Hro].
  destruct (lookup_lt_is_Some_2 (rows df_new) idx Hn) as [r_new Hrn].
  unfold Validator.compare_row, Validator.expected_record.
  rewrite Hro, Hrn.
  rewrite (add_keys_run idx r_old sort_cols _ Hro keys_exist). cbn [Py.bind].
  destruct (scan_cells_run idx r_old r_new common_cols
              {| row_has_mismatch := false;
                 row_data := with_keys r_old sort_cols
                               {[ "Row" := VInt (Z.of_nat idx + 1) ]};
                 seen_columns := mismatched_columns rep |}
              Hro Hrn common_exist) as (st' & E & E1 & E2).
  rewrite E. cbn [Py.bind]. eexists. split; [reflexivity|].
  cbn [mismatch_report]. rewrite E2, E1. cbn [row_data row_has_mismatch orb].
  destruct (existsb (differs r_old r_new) common_cols); cbn [option_list];
    [reflexivity | rewrite app_nil_r; reflexivity].
Qed.

Lemma compare_positions_run (l : list nat) (rep : Report) :
  Forall (fun idx => (idx < len df_old)%nat /\ (idx < len df_new)%nat) l ->
  exists rep',
    for_each compare_row l rep = Ok rep' /\
    mismatch_report rep' = mismatch_report rep ++ omap expected_record l.
Proof.
  intros Hl. revert rep.
  induction Hl as [|idx l [Ho Hn] _ IH]; intros rep.
  { exists rep. rewrite app_nil_r. split; reflexivity. }
  destruct (compare_row_run rep idx Ho Hn) as (rep1 & E1 & R1).
  destruct (IH rep1) as (rep' & E' & R').
  exists rep'. cbn [for_each]. rewrite E1. cbn [Py.bind]. split; [exact E'|].
  rewrite R', R1, <- app_assoc. f_equal. csimpl.
  destruct (expected_record idx); reflexivity.
Qed.

(** The loop returns, and its report lists the records of the positions
    below the shorter length at which the two rows differ, in order. *)
Lemma compare_rows_run :
  exists rep,
    compare_rows float_repr timestamp_str cfg df_old df_new sort_cols common_cols
    = Ok rep /\
    mismatch_report rep
    = omap expected_record (seq 0 (Nat.min (len df_old) (len df_new))).
Proof.
  unfold compare_rows.
  edestruct (compare_positions_run
               (seq 0 (Nat.min (len df_old) (len df_new)))) as (rep & E & R).
  { apply Forall_forall. intros idx Hidx. apply elem_of_seq in Hidx. lia. }
  exists rep. split; [exact E | exact R].
Qed.

End Loop.

End LoopFacts.

(** * The comparison of two sorted frames and the run *)

Module RunFacts.

Import PyFloat Validator ComparatorFacts SortFacts LoopFacts.

Section Run.

Variable float_repr : pyfloat -> string.
Variable timestamp_str : Z -> string.
Variable cfg : Config.

Local Abbreviation safe_equals := (safe_equals float_repr timestamp_str cfg).
Local Abbreviation compare_row := (compare_row float_repr timestamp_str cfg).
Local Abbreviation compare_rows := (compare_rows float_repr timestamp_str cfg).
Local Abbreviation compare_sorted :=
  (compare_sorted float_repr timestamp_str cfg).
Local Abbreviation expected_record :=
  (expected_record float_repr timestamp_str cfg).
Local Abbreviation record_at := (record_at float_repr timestamp_str cfg).

Lemma common_columns_exist (a b : DataFrame) (c : string) :
  c ∈ common_columns a b -> c ∈ columns a /\ c ∈ columns b.
Proof.
  unfold common_columns. intros H.
  apply list_elem_of_filter in H as [Hb Ha].
  rewrite elem_of_remove_dups in Ha. apply bool_decide_unpack in Hb.
  split; assumption.
Qed.

Lemma compare_sorted_run (df_old df_new : DataFrame) (sort_cols : list string) :
  valid_config cfg ->
  (forall k, k ∈ sort_cols -> k ∈ columns df_old) ->
  exists c,
    compare_sorted df_old df_new sort_cols = Ok c /\
    warnings c
    = (if negb (len df_old =? len df_new)%nat
       then [RowCountMismatch (len df_old) (len df_new)] else []) /\
    mismatch_report (report c)
    = omap (expected_record df_old df_new sort_cols
              (common_columns df_old df_new))
        (seq 0 (Nat.min (len df_old) (len df_new))).
Proof.
  intros Hcfg Hkeys. unfold Validator.compare_sorted.
  destruct (compare_rows_run float_repr timestamp_str cfg Hcfg df_old df_new
              sort_cols (common_columns df_old df_new) Hkeys
              (common_columns_exist df_old df_new)) as (rep & -> & R).
  eexists. split; [reflexivity|]. split; [reflexivity | exact R].
Qed.

Lemma record_in_report (df_old df_new : DataFrame)
    (sort_cols common_cols : list string) (l : list nat)
    (rd : gmap string value) :
  rd ∈ omap (expected_record df_old df_new sort_cols common_cols) l ->
  exists idx, idx ∈ l /\ record_at df_old df_new sort_cols common_cols idx rd.
Proof.
  intros H. apply list_elem_of_omap in H as (idx & Hidx & E).
  exists idx. split; [exact Hidx|]. apply expected_record_at, E.
Qed.

(** A position of [l] at which a compared column differs has a record. *)
Lemma differing_position_recorded (df_old df_new : DataFrame)
    (sort_cols common_cols : list string) (l : list nat) (idx : nat)
    (r_old r_new : row) (col : string) :
  idx ∈ l ->
  rows df_old !! idx = Some r_old -> rows df_new !! idx = Some r_new ->
  col ∈ common_cols -> safe_equals (r_old col) (r_new col) = Ok false ->
  exists rd,
    rd ∈ omap (expected_record df_old df_new sort_cols common_cols) l /\
    rd !! "Row" = Some (VInt (Z.of_nat idx + 1)) /\
    rd !! String.append "Old_" col = Some (r_old col) /\
    rd !! String.append "New_" col = Some (r_new col).
Proof.
  intros Hidx Ho Hn Hc Hd.
  destruct (expected_record df_old df_new sort_cols common_cols idx)
    as [rd|] eqn:E.
  2:{ exfalso. unfold Validator.expected_record in E. rewrite Ho, Hn in E.
      replace (existsb _ common_cols) with true in E; [discriminate|].
      symmetry. apply existsb_exists. exists col.
      split; [apply list_elem_of_In, Hc | apply differs_true_iff, Hd]. }
  exists rd. split; [apply list_elem_of_omap; eauto|].
  apply expected_record_at in E
    as (ro & rn & Ho' & Hn' & Hrow & _ & Hold & Hnew & _).
  rewrite Ho in Ho'. rewrite Hn in Hn'.
  injection Ho' as <-. injection Hn' as <-.
  split; [exact Hrow|]. split; [apply Hold | apply Hnew]; auto.
Qed.

Lemma loc_first_rows (n : nat) (df : DataFrame) (idx : nat) (col : string) :
  (idx < n)%nat -> loc (first_rows n df) idx col = loc df idx col.
Proof.
  intros H. unfold loc, first_rows. simpl. rewrite lookup_take_lt by exact H.
  reflexivity.
Qed.

Lemma compare_row_first_rows (n : nat) (df_old df_new : DataFrame)
    (sort_cols common_cols : list string) (rep : Report) (idx : nat) :
  (idx < n)%nat ->
  compare_row (first_rows n df_old) (first_rows n df_new) sort_cols common_cols
    rep idx
  = compare_row df_old df_new sort_cols common_cols rep idx.
Proof.
  intros H. unfold Validator.compare_row.
  rewrite (for_each_ext (add_key (first_rows n df_old) idx) (add_key df_old idx)).
  2:{ intros rd k _. unfold add_key. rewrite loc_first_rows by exact H.
      reflexivity. }
  destruct (for_each (add_key df_old idx) sort_cols _) as [keyed|e];
    [|reflexivity].
  cbn [Py.bind].
  rewrite (for_each_ext
             (scan_cell float_repr timestamp_str cfg (first_rows n df_old)
                (first_rows n df_new) idx)
             (scan_cell float_repr timestamp_str cfg df_old df_new idx)).
  2:{ intros st c _. unfold scan_cell. rewrite !loc_first_rows by exact H.
      reflexivity. }
  reflexivity.
Qed.

(** The loop reads the first [min(len, len)] rows of each frame only. *)
Lemma compare_rows_first_rows (df_old df_new : DataFrame)
    (sort_cols common_cols : list string) :
  let n := Nat.min (len df_old) (len df_new) in
  compare_rows (first_rows n df_old) (first_rows n df_new) sort_cols common_cols
  = compare_rows df_old df_new sort_cols common_cols.
Proof.
  intros n. unfold Validator.compare_rows.
  assert (E : Nat.min (len (first_rows n df_old)) (len (first_rows n df_new)) = n).
  { unfold len, first_rows. simpl. rewrite !length_take. subst n.
    unfold len. lia. }
  rewrite E. apply for_each_ext. intros rep idx Hidx.
  apply compare_row_first_rows. apply elem_of_seq in Hidx. lia.
Qed.

(** C7: when the two sorted frames differ in length, the comparison
    returns (no position is looked up outside a frame), the difference is
    reported as the warning [RowCountMismatch] and not among the records,
    every record belongs to a position below the shorter length, and the
    report is the one of the two frames cut to the shorter length: the
    rows beyond it are not compared. The rows below it are: every
    position that exists in both frames and at which a compared column
    differs has its record, with the row number and the two cells. *)
Theorem row_count_mismatch (df_old_sorted df_new_sorted : DataFrame)
    (sort_cols : list string) :
  valid_config cfg ->
  (forall k, k ∈ sort_cols -> k ∈ columns df_old_sorted) ->
  len df_old_sorted <> len df_new_sorted ->
  let n := Nat.min (len df_old_sorted) (len df_new_sorted) in
  exists c,
    compare_sorted df_old_sorted df_new_sorted sort_cols = Ok c /\
    warnings c = [RowCountMismatch (len df_old_sorted) (len df_new_sorted)] /\
    (forall rd, rd ∈ mismatch_report (report c) ->
       exists idx, (idx < n)%nat /\
                   rd !! "Row" = Some (VInt (Z.of_nat idx + 1))) /\
    (length (mismatch_report (report c)) <= n)%nat /\
    compare_sorted (first_rows n df_old_sorted) (first_rows n df_new_sorted)
      sort_cols
    = Ok {| warnings := []; report := report c |} /\
    (forall idx r_old r_new col,
       rows df_old_sorted !! idx = Some r_old ->
       rows df_new_sorted !! idx = Some r_new ->
       col ∈ common_columns df_old_sorted df_new_sorted ->
       safe_equals (r_old col) (r_new col) = Ok false ->
       (idx < n)%nat /\
       exists rd,
         rd ∈ mismatch_report (report c) /\
         rd !! "Row" = Some (VInt (Z.of_nat idx + 1)) /\
         rd !! String.append "Old_" col = Some (r_old col) /\
         rd !! String.append "New_" col = Some (r_new col)).
Proof.
  intros Hcfg Hkeys Hlen n.
  destruct (compare_sorted_run df_old_sorted df_new_sorted sort_cols Hcfg Hkeys)
    as (c & E & W & R).
  exists c. split; [exact E|]. split; [|split; [|split; [|split]]].
  5:{ intros idx r_old r_new col Ho Hn Hc Hd.
      assert (Hidx : (idx < n)%nat).
      { apply lookup_lt_Some in Ho, Hn. subst n. unfold len. lia. }
      split; [exact Hidx|]. rewrite R.
      apply differing_position_recorded; try assumption.
      apply elem_of_seq. subst n. lia. }
  - rewrite W. apply Nat.eqb_neq in Hlen. rewrite Hlen. reflexivity.
  - intros rd Hrd. rewrite R in Hrd.
    apply record_in_report in Hrd as (idx & Hidx & (ro & rn & _ & _ & Hrow & _)).
    exists idx. split; [|exact Hrow]. apply elem_of_seq in Hidx. subst n. lia.
  - rewrite R. etransitivity; [apply omap_length_le|]. rewrite length_seq.
    reflexivity.
  - unfold Validator.compare_sorted in E |- *.
    assert (En : (len (first_rows n df_old_sorted)
                  =? len (first_rows n df_new_sorted))%nat = true).
    { apply Nat.eqb_eq. unfold len, first_rows. simpl. rewrite !length_take.
      subst n. unfold len. lia. }
    rewrite En. cbn [negb].
    change (common_columns (first_rows n df_old_sorted)
              (first_rows n df_new_sorted))
      with (common_columns df_old_sorted df_new_sorted).
    rewrite (compare_rows_first_rows df_old_sorted df_new_sorted sort_cols).
    destruct (compare_rows df_old_sorted df_new_sorted sort_cols _) as [rep|e];
      [|discriminate].
    cbn [Py.bind] in E |- *. inversion E. reflexivity.
Qed.

(** C8: the comparison returns, and every record of its report belongs
    to one row position and holds, beside the row number and the key
    values of the old row, the old and new cells of exactly the compared
    columns on which the two rows differ, of which there is at least one;
    a position at which every compared column compares equal has no
    record. *)
Theorem records_hold_differences (df_old_sorted df_new_sorted : DataFrame)
    (sort_cols : list string) :
  valid_config cfg ->
  (forall k, k ∈ sort_cols -> k ∈ columns df_old_sorted) ->
  let common_cols := common_columns df_old_sorted df_new_sorted in
  exists c,
    compare_sorted df_old_sorted df_new_sorted sort_cols = Ok c /\
    (forall rd, rd ∈ mismatch_report (report c) ->
       exists idx,
         record_at df_old_sorted df_new_sorted sort_cols common_cols idx rd) /\
    (forall idx r_old r_new,
       rows df_old_sorted !! idx = Some r_old ->
       rows df_new_sorted !! idx = Some r_new ->
       (forall col, col ∈ common_cols ->
          safe_equals (r_old col) (r_new col) = Ok true) ->
       forall rd, rd ∈ mismatch_report (report c) ->
         rd !! "Row" <> Some (VInt (Z.of_nat idx + 1))).
Proof.
  intros Hcfg Hkeys common_cols.
  destruct (compare_sorted_run df_old_sorted df_new_sorted sort_cols Hcfg Hkeys)
    as (c & E & _ & R).
  exists c. split; [exact E|]. split.
  - intros rd Hrd. rewrite R in Hrd.
    apply record_in_report in Hrd as (idx & _ & Hat). exists idx. exact Hat.
  - intros idx r_old r_new Ho Hn Hsame rd Hrd Hrow. rewrite R in Hrd.
    apply record_in_report in Hrd
      as (idx' & _ & (ro & rn & Ho' & Hn' & Hrow' & _ & Hold & _ & [col Hcol] & _)).
    rewrite Hrow in Hrow'. inversion Hrow' as [Eidx].
    assert (idx' = idx) by lia. subst idx'.
    rewrite Ho in Ho'. rewrite Hn in Hn'. inversion Ho'. inversion Hn'. subst ro rn.
    destruct Hcol as [v Hv]. apply Hold in Hv as (Hc & Hd & _).
    rewrite (Hsame col Hc) in Hd. discriminate.
Qed.

End Run.

Section Aligned.

Variable float_repr : pyfloat -> string.
Variable timestamp_str : Z -> string.
Variable cfg : Config.
Variable argsort : list value -> list nat.

Local Abbreviation safe_equals := (safe_equals float_repr timestamp_str cfg).
Local Abbreviation sort_values := (sort_values argsort).
Local Abbreviation compare_sorted :=
  (compare_sorted float_repr timestamp_str cfg).
Local Abbreviation run := (run float_repr timestamp_str cfg argsort).

Lemma sort_values_key_error (by_ : list string) (df : DataFrame) (k : string) :
  k ∈ by_ -> k ∉ columns df -> sort_values by_ df = Raise KeyError.
Proof.
  intros Hk Hnot. unfold Validator.sort_values.
  destruct (forallb _ by_) eqn:E; [|reflexivity].
  exfalso. rewrite forallb_forall in E.
  apply Hnot. eapply bool_decide_eq_true_1, E, list_elem_of_In, Hk.
Qed.

Lemma sort_values_raises (by_ : list string) (df : DataFrame) (e : exn) :
  sort_values by_ df = Raise e -> e = KeyError \/ e = TypeError.
Proof.
  unfold Validator.sort_values.
  destruct (forallb _ by_); [|intros [= <-]; left; reflexivity].
  destruct (forallb (can_sort by_ df) by_); [|intros [= <-]; right; reflexivity].
  destruct by_ as [|k [|k' ks]]; discriminate.
Qed.


(** What [run] does once file 1 is sorted, and when it is not. *)
Lemma run_after_first_sort (df_old df_new : DataFrame) (k : string)
    (ks : list string) :
  run df_old df_new (k :: ks)
  = let! df_old_sorted := sort_values (k :: ks) df_old in
    let! df_new_sorted := sort_values (k :: ks) df_new in
    let! c := compare_sorted df_old_sorted df_new_sorted (k :: ks) in
    Ok (Compared c).
Proof. reflexivity. Qed.

(** C9, as the code has it: with an empty key list the run ends with
    the notice that asks for a key column; with a key that is not a column
    of file 1 it ends with the [KeyError] of the first [sort_values],
    whatever the rows are; with a key that is a column of file 1 and not
    of file 2 (the widget offers the columns of file 1) file 1 is sorted
    first, so the run ends with the [KeyError] of the second
    [sort_values] when the key columns of file 1 can be sorted and with the
    [TypeError] of the first one when they cannot. In none of these cases
    is there a comparison result. *)
Theorem bad_key_spec_rejected (df_old df_new : DataFrame)
    (sort_cols : list string) :
  sort_cols = []
  \/ (exists k, k ∈ sort_cols /\ (k ∉ columns df_old \/ k ∉ columns df_new)) ->
  (forall c, run df_old df_new sort_cols <> Ok (Compared c)) /\
  (sort_cols = [] -> run df_old df_new sort_cols = Ok KeyColumnNeeded) /\
  (forall k, k ∈ sort_cols -> k ∉ columns df_old ->
     run df_old df_new sort_cols = Raise KeyError) /\
  (forall k, k ∈ sort_cols -> k ∉ columns df_new ->
     (forall k', k' ∈ sort_cols -> k' ∈ columns df_old) ->
     run df_old df_new sort_cols
     = if forallb (can_sort sort_cols df_old) sort_cols
       then Raise KeyError else Raise TypeError).
Proof.
  intros Hbad.
  assert (Hold : forall k, k ∈ sort_cols -> k ∉ columns df_old ->
                           run df_old df_new sort_cols = Raise KeyError).
  { intros k Hk Hnot. unfold Validator.run.
    destruct sort_cols as [|k0 ks]; [inversion Hk|].
    rewrite (sort_values_key_error _ _ k Hk Hnot). reflexivity. }
  assert (Hnew : forall k, k ∈ sort_cols -> k ∉ columns df_new ->
                   (forall k', k' ∈ sort_cols -> k' ∈ columns df_old) ->
                   run df_old df_new sort_cols
                   = if forallb (can_sort sort_cols df_old) sort_cols
                     then Raise KeyError else Raise TypeError).
  { intros k Hk Hnot Hcols.
    destruct sort_cols as [|k0 ks]; [inversion Hk|].
    rewrite run_after_first_sort.
    destruct (forallb (can_sort (k0 :: ks) df_old) (k0 :: ks)) eqn:E.
    - destruct (sort_values_returns argsort (k0 :: ks) df_old Hcols)
        as (so & -> & _).
      { intros k' Hk'. rewrite forallb_forall in E.
        apply E, list_elem_of_In, Hk'. }
      cbn [Py.bind]. rewrite (sort_values_key_error _ _ k Hk Hnot). reflexivity.
    - unfold Validator.sort_values at 1. rewrite E.
      replace (forallb _ (k0 :: ks)) with true; [reflexivity|].
      symmetry. apply forallb_forall. intros k' Hk'.
      apply bool_decide_eq_true, Hcols, list_elem_of_In, Hk'. }
  split; [|split; [|split]]; [|intros ->; reflexivity | exact Hold | exact Hnew].
  intros c Hc. destruct Hbad as [->|(k & Hk & [Hnot|Hnot])].
  - discriminate Hc.
  - rewrite (Hold k Hk Hnot) in Hc. discriminate Hc.
  - destruct sort_cols as [|k0 ks]; [inversion Hk|].
    rewrite run_after_first_sort in Hc.
    destruct (sort_values (k0 :: ks) df_old) as [so|e]; [|discriminate Hc].
    cbn [Py.bind] in Hc. rewrite (sort_values_key_error _ _ k Hk Hnot) in Hc.
    discriminate Hc.
Qed.

Lemma stable_sort_facts (by_ : list string) (l : list row) :
  stable_sort (key_leb by_) l ≡ₚ l /\
  StronglySorted (rows_le by_) (stable_sort (key_leb by_) l) /\
  stable_on by_ l (stable_sort (key_leb by_) l).
Proof.
  unfold stable_sort. split; [apply insertion_sort_perm|]. split.
  - apply Sorted_StronglySorted; [apply rows_le_trans|].
    apply insertion_sort_sorted. apply key_leb_total.
  - intros r. apply (insertion_sort_filter (key_leb by_) (key_leb_trans by_)).
Qed.

(** What [sort_values] returns, for key columns it can sort. *)
Lemma sort_values_facts (by_ : list string) (df : DataFrame) :
  argsort_contract argsort ->
  by_ <> [] ->
  (forall k, k ∈ by_ -> k ∈ columns df) ->
  (forall k, k ∈ by_ -> can_sort by_ df k = true) ->
  exists df',
    sort_values by_ df = Ok df' /\
    columns df' = columns df /\
    rows df' ≡ₚ rows df /\
    StronglySorted (rows_le by_) (rows df') /\
    (forall a b, isna b = true ->
       value_leb a b = true /\ (isna a = false -> value_leb b a = false)) /\
    ((2 <= length by_)%nat -> stable_on by_ (rows df) (rows df')) /\
    (forall k, by_ = [k] ->
       filter (fun r : row => isna (r k)) (rows df')
       = filter (fun r : row => isna (r k)) (rows df)) /\
    (forall df_new,
       run df df_new by_
       = let! df_new_sorted := sort_values by_ df_new in
         let! c := compare_sorted df' df_new_sorted by_ in
         Ok (Compared c)).
Proof.
  intros Hargsort Hne Hcols Hsort.
  destruct (sort_values_returns argsort by_ df Hcols Hsort) as (df' & E & Ecols).
  exists df'. split; [exact E|]. split; [exact Ecols|].
  destruct (sort_values_inv argsort by_ df df' E) as (_ & _ & Erows).
  assert (Hrun : forall df_new,
            run df df_new by_
            = let! df_new_sorted := sort_values by_ df_new in
              let! c := compare_sorted df' df_new_sorted by_ in
              Ok (Compared c)).
  { intros df_new. unfold Validator.run.
    destruct by_ as [|k0 ks]; [congruence|]. rewrite E. reflexivity. }
  destruct by_ as [|k [|k' ks]]; [congruence | |].
  - assert (Hk : sortable df k = true) by (apply Hsort; left).
    rewrite Erows.
    split; [apply sort_single_perm; assumption|].
    split; [apply sort_single_sorted; assumption|].
    split; [apply value_leb_missing_last|].
    split; [simpl; lia|].
    split; [|exact Hrun].
    intros k0 [= <-]. apply sort_single_missing; assumption.
  - rewrite Erows.
    destruct (stable_sort_facts (k :: k' :: ks) (rows df)) as (Hp & Hs & Hst).
    split; [exact Hp|]. split; [exact Hs|].
    split; [apply value_leb_missing_last|].
    split; [intros _; exact Hst|].
    split; [discriminate | exact Hrun].
Qed.



Lemma sortable_iff (df : DataFrame) (k : string) :
  sortable df k = true <->
  (forall r1 r2 : row, r1 ∈ rows df -> r2 ∈ rows df ->
     isna (r1 k) = false -> isna (r2 k) = false ->
     key_rank (key_of (r1 k)) = key_rank (key_of (r2 k))).
Proof.
  unfold sortable.
  set (vs := filter (fun v => negb (isna v)) (map (fun r : row => r k) (rows df))).
  assert (Hin : forall v, v ∈ vs <-> isna v = false /\ exists r : row, r ∈ rows df /\ v = r k).
  { intros v. unfold vs. rewrite list_elem_of_filter.
    change (map (fun r : row => r k) (rows df))
      with ((fun r : row => r k) <$> rows df).
    rewrite list_elem_of_fmap. split.
    - intros [Hp (r & -> & Hr)]. split; [|eauto].
      destruct (isna (r k)); [destruct Hp | reflexivity].
    - intros [Hp (r & Hr & ->)]. split; [rewrite Hp; exact I | eauto]. }
  clearbody vs. split.
  - intros H r1 r2 H1 H2 N1 N2.
    assert (V1 : r1 k ∈ vs) by (apply Hin; eauto).
    assert (V2 : r2 k ∈ vs) by (apply Hin; eauto).
    destruct vs as [|v0 vs0]; [inversion V1|].
    rewrite forallb_forall in H.
    assert (Hrank : forall v, v ∈ v0 :: vs0 ->
                              key_rank (key_of v) = key_rank (key_of v0)).
    { intros v Hv. apply elem_of_cons in Hv as [->|Hv]; [reflexivity|].
      apply Z.eqb_eq, H, list_elem_of_In, Hv. }
    rewrite (Hrank _ V1), (Hrank _ V2). reflexivity.
  - intros H. destruct vs as [|v0 vs0]; [reflexivity|].
    apply forallb_forall. intros w Hw. apply Z.eqb_eq.
    assert (V0 : v0 ∈ v0 :: vs0) by left.
    assert (Vw : w ∈ v0 :: vs0) by (right; apply list_elem_of_In, Hw).
    apply Hin in V0 as (N0 & r0 & Hr0 & ->).
    apply Hin in Vw as (Nw & rw & Hrw & ->).
    apply H; assumption.
Qed.

Lemma sortable_perm (df df' : DataFrame) (k : string) :
  rows df ≡ₚ rows df' -> sortable df k = true -> sortable df' k = true.
Proof.
  intros Hp. rewrite !sortable_iff. intros H r1 r2 H1 H2.
  apply H; rewrite Hp; assumption.
Qed.

Lemma omap_none {A B : Type} (f : A -> option B) (l : list A) :
  (forall x, f x = None) -> omap f l = [].
Proof.
  intros H. induction l as [|x l IH]; [reflexivity|].
  csimpl. rewrite H. exact IH.
Qed.

(** A frame compared with itself gives no record. *)
Lemma expected_record_same (df_old df_new : DataFrame)
    (sort_cols common_cols : list string) (idx : nat) :
  valid_config cfg -> rows df_new = rows df_old ->
  expected_record float_repr timestamp_str cfg df_old df_new sort_cols
    common_cols idx = None.
Proof.
  intros [Hlo _] Hrows. unfold expected_record. rewrite Hrows.
  destruct (rows df_old !! idx) as [r|]; [|reflexivity].
  replace (existsb _ common_cols) with false; [reflexivity|].
  symmetry. apply not_true_is_false. intros H.
  apply existsb_exists in H as (c & _ & Hd).
  unfold differs in Hd.
  rewrite (safe_equals_refl float_repr timestamp_str cfg (r c)) in Hd by lia.
  discriminate.
Qed.

(** C4, as the code has it: two frames with the same columns and the
    same rows in any two orders, whose rows are told apart by their key
    (two rows that compare equal on the key columns are one row), give a
    comparison without warning and without mismatch record. *)
Theorem same_rows_no_mismatch (df_old df_new : DataFrame)
    (sort_cols : list string) :
  valid_config cfg ->
  argsort_contract argsort ->
  sort_cols <> [] ->
  (forall k, k ∈ sort_cols -> k ∈ columns df_old) ->
  (forall k, k ∈ sort_cols -> sortable df_old k = true) ->
  columns df_new = columns df_old ->
  rows df_old ≡ₚ rows df_new ->
  (forall r1 r2 : row, r1 ∈ rows df_old -> r2 ∈ rows df_old ->
     rows_le sort_cols r1 r2 -> rows_le sort_cols r2 r1 -> r1 = r2) ->
  exists c,
    run df_old df_new sort_cols = Ok (Compared c) /\
    warnings c = [] /\
    mismatch_report (report c) = [].
Proof.
  intros Hcfg Hargsort Hne Hcols Hsort Ecols Hperm Hdistinct.
  destruct (sort_values_facts sort_cols df_old Hargsort Hne Hcols)
    as (so & Eo & Co & Po & So & _ & _ & _ & Hrun).
  { intros k Hk. apply sortable_can_sort, Hsort, Hk. }
  destruct (sort_values_facts sort_cols df_new Hargsort Hne)
    as (sn & En & Cn & Pn & Sn & _).
  { intros k Hk. rewrite Ecols. apply Hcols, Hk. }
  { intros k Hk. apply sortable_can_sort.
    eapply sortable_perm; [exact Hperm | apply Hsort, Hk]. }
  assert (Erows : rows sn = rows so).
  { symmetry. apply (StronglySorted_unique_strong (rows_le sort_cols));
      [| exact So | exact Sn | rewrite Po, Pn; exact Hperm].
    intros r1 r2 H1 H2. rewrite Po in H1. rewrite Pn, <- Hperm in H2.
    apply Hdistinct; assumption. }
  destruct (compare_sorted_run float_repr timestamp_str cfg so sn sort_cols Hcfg)
    as (c & Ec & W & R).
  { intros k Hk. rewrite Co. apply Hcols, Hk. }
  exists c. rewrite Hrun, En. cbn [Py.bind]. rewrite Ec. cbn [Py.bind].
  split; [reflexivity|]. split.
  - rewrite W. unfold len. rewrite Erows, Nat.eqb_refl. reflexivity.
  - rewrite R. apply omap_none. intros idx.
    apply expected_record_same; assumption.
Qed.

End Aligned.

(** ** The claims at sample frames *)


(** C4 without the proviso on the keys fails: the two rows of [ties_old]
    have one key, [ties_new] holds them in the other order, the sort
    leaves both frames as they are, and the run reports two mismatches. *)
Lemma same_rows_tied_keys_mismatch :
  columns ties_new = columns ties_old /\
  rows ties_old ≡ₚ rows ties_new /\
  record_count
    (run (fun _ => "") (fun _ => "") default_config Numpy.aquicksort
       ties_old ties_new ["id"])
  = Some 2%nat.
Proof.
  split; [reflexivity|]. split; [apply perm_swap|].
  vm_compute. reflexivity.
Qed.

Lemma example_keys_exist (df : DataFrame) :
  "id" ∈ columns df -> forall k, k ∈ ["id"] -> k ∈ columns df.
Proof. intros H k Hk. apply list_elem_of_singleton in Hk. subst k. exact H. Defined.

Lemma valid_default_config : valid_config default_config.
Proof. split; discriminate. Defined.


(** An instance for C4: [example_old] against [example_shuffled]. *)
Lemma same_rows_no_mismatch_witness :
  exists c,
    run (fun _ => "") (fun _ => "") default_config insertion_argsort
      example_old example_shuffled ["id"] = Ok (Compared c) /\
    warnings c = [] /\
    mismatch_report (report c) = [].
Proof.
  apply (same_rows_no_mismatch (fun _ => "") (fun _ => "") default_config
           insertion_argsort example_old example_shuffled ["id"]).
  - exact valid_default_config.
  - exact insertion_argsort_contract.
  - discriminate.
  - apply example_keys_exist. left.
  - intros k Hk. apply list_elem_of_singleton in Hk. subst k. reflexivity.
  - reflexivity.
  - exact (Permutation_app_comm
             [row_of [("id", VInt 3); ("v", VStr "c")];
              row_of [("id", VInt 1); ("v", VStr "a")]]
             [row_of [("id", VInt 2); ("v", VStr "b")]]).
  - intros r1 r2 H1 H2.
    change (rows example_old)
      with [row_of [("id", VInt 3); ("v", VStr "c")];
            row_of [("id", VInt 1); ("v", VStr "a")];
            row_of [("id", VInt 2); ("v", VStr "b")]] in H1, H2.
    repeat (apply elem_of_cons in H1 as [->|H1]);
      [| | |inversion H1];
      (repeat (apply elem_of_cons in H2 as [->|H2]); [| | |inversion H2]);
      intros L1 L2; try reflexivity;
      vm_compute in L1, L2; discriminate.
Defined.

(** An instance for C7: [example_long] (3 rows) against [example_short]
    (2 rows). *)
Lemma row_count_mismatch_witness :
  exists c,
    compare_sorted (fun _ => "") (fun _ => "") default_config
      example_long example_short ["id"] = Ok c /\
    warnings c = [RowCountMismatch 3 2] /\
    (length (mismatch_report (report c)) <= 2)%nat /\
    exists rd,
      rd ∈ mismatch_report (report c) /\
      rd !! "Row" = Some (VInt 2) /\
      rd !! "Old_v" = Some (VStr "b") /\
      rd !! "New_v" = Some (VStr "x").
Proof.
  destruct (row_count_mismatch (fun _ => "") (fun _ => "") default_config
              example_long example_short ["id"])
    as (c & E & W & _ & L & _ & H).
  - exact valid_default_config.
  - apply example_keys_exist. left.
  - discriminate.
  - exists c. split; [exact E|]. split; [exact W|]. split; [exact L|].
    apply (H 1%nat (row_of [("id", VInt 2); ("v", VStr "b")])
             (row_of [("id", VInt 2); ("v", VStr "x")]) "v");
      [reflexivity | reflexivity | | vm_compute; reflexivity].
    apply (bool_decide_unpack _). vm_compute. exact I.
Defined.

(** An instance for C8, at the same two frames. *)
Lemma records_hold_differences_witness :
  exists c,
    compare_sorted (fun _ => "") (fun _ => "") default_config
      example_long example_short ["id"] = Ok c /\
    (forall rd, rd ∈ mismatch_report (report c) ->
       exists idx,
         record_at (fun _ => "") (fun _ => "") default_config
           example_long example_short ["id"]
           (common_columns example_long example_short) idx rd).
Proof.
  destruct (records_hold_differences (fun _ => "") (fun _ => "") default_config
              example_long example_short ["id"])
    as (c & E & R & _).
  - exact valid_default_config.
  - apply example_keys_exist. left.
  - exists c. split; [exact E | exact R].
Defined.

(** C9 as worded fails: a key that file 2 lacks is not noticed before
    rows are processed. [mixed_keys] and [example_old] have the same
    columns and [no_key] has no column "id"; the run on the key "id"
    sorts file 1 first, and ends with the [TypeError] of its key values
    for the one and with the [KeyError] for the other. *)
Lemma missing_key_noticed_after_sort :
  columns mixed_keys = columns example_old /\
  "id" ∈ columns mixed_keys /\
  ("id" ∉ columns no_key) /\
  run (fun _ => "") (fun _ => "") default_config insertion_argsort
    mixed_keys no_key ["id"] = Raise TypeError /\
  run (fun _ => "") (fun _ => "") default_config insertion_argsort
    example_old no_key ["id"] = Raise KeyError.
Proof.
  split; [reflexivity|]. split; [left|]. split.
  - intros H. apply list_elem_of_singleton in H. discriminate H.
  - split; vm_compute; reflexivity.
Qed.

(** An instance for C9: the key "id", which the widget offers for
    [example_old] and which [no_key] lacks. *)
Lemma bad_key_spec_rejected_witness :
  run (fun _ => "") (fun _ => "") default_config insertion_argsort
    example_old no_key ["id"] = Raise KeyError.
Proof.
  assert (Hnot : "id" ∉ columns no_key).
  { intros H. apply list_elem_of_singleton in H. discriminate H. }
  rewrite (proj2 (proj2 (proj2
             (bad_key_spec_rejected (fun _ => "") (fun _ => "") default_config
                insertion_argsort example_old no_key ["id"]
                (or_intror (ex_intro _ "id"
                   (conj (list_elem_of_here "id" []) (or_intror Hnot)))))))
            "id" (list_elem_of_here "id" []) Hnot
            (example_keys_exist example_old (list_elem_of_here "id" ["v"]))).
  reflexivity.
Defined.

End RunFacts.

(** * More on the value comparison *)

Module ComparatorMore.

Import PyFloat PyFloatFacts Validator Closed ComparatorFacts.

Lemma eqb_true_inv (x y : pyfloat) :
  eqb x y = true ->
  (exists s1 s2, x = S754_zero s1 /\ y = S754_zero s2)
  \/ (x = y /\ isnan x = false).
Proof.
  unfold eqb, SFeqb.
  destruct x as [sx|sx| |sx mx ex], y as [sy|sy| |sy my ey]; simpl;
    try discriminate;
    try (destruct sx; discriminate); try (destruct sy; discriminate).
  - intros _. left. eauto.
  - destruct sx, sy; try discriminate; intros _; right; split; reflexivity.
  - destruct sx, sy; try discriminate;
      destruct (ex ?= ey) eqn:E; try discriminate;
      apply Z.compare_eq in E; subst ey;
      rewrite Pos.compare_cont_spec; simpl;
      destruct (mx ?= my)%positive eqn:M; try discriminate;
      apply Pos.compare_eq in M; subst my; intros _; right; split; reflexivity.
Qed.

Lemma eqb_trans (x y z : pyfloat) :
  eqb x y = true -> eqb y z = true -> eqb x z = true.
Proof.
  intros H1 H2.
  destruct (eqb_true_inv _ _ H1) as [(s1 & s2 & -> & ->)|[-> N1]];
    [|exact H2].
  destruct (eqb_true_inv _ _ H2) as [(s3 & s4 & _ & ->)|[<- _]]; reflexivity.
Qed.

Section Facts.

Variable float_repr : pyfloat -> string.
Variable timestamp_str : Z -> string.
Variable cfg : Config.

Local Abbreviation normalize := (normalize float_repr timestamp_str cfg).
Local Abbreviation safe_equals := (safe_equals float_repr timestamp_str cfg).

(** Lines 40-48 as a function of the two compared strings. *)
Lemma compared_strings (a b : value) :
  0 <= float_precision cfg ->
  treat_nulls_equal cfg && (isna a || isna b) = false ->
  exists r : pyfloat -> pyfloat,
    (forall x, bounded x -> round x (float_precision cfg) = Ok (r x)
                            /\ isnan (r x) = isnan x) /\
    safe_equals a b
    = Ok match number_of (normalize a), number_of (normalize b) with
         | Some x1, Some x2 => eqb (r x1) (r x2)
         | _, _ => String.eqb (normalize a) (normalize b)
         end.
Proof.
  intros Hp Hnull.
  exists (fun x => match round x (float_precision cfg) with
                   | Ok y => y
                   | Raise _ => x
                   end).
  split.
  { intros x Hx. destruct (round_returns x _ Hx Hp) as (y & -> & N).
    split; [reflexivity | exact N]. }
  rewrite (safe_equals_not_null float_repr timestamp_str cfg a b Hnull).
  unfold number_of.
  destruct (to_number (normalize a)) as [x1|e1] eqn:H1.
  2:{ rewrite (numeric_attempt_fails cfg _ _ e1) by (left; exact H1).
      reflexivity. }
  destruct (to_number (normalize b)) as [x2|e2] eqn:H2.
  2:{ rewrite (numeric_attempt_fails cfg _ _ e2) by (right; eauto).
      destruct (isnan x1); reflexivity. }
  destruct (isnan x1) eqn:N1.
  { rewrite (numeric_attempt_nan cfg _ _ x1 x2) by auto. reflexivity. }
  destruct (isnan x2) eqn:N2.
  { rewrite (numeric_attempt_nan cfg _ _ x1 x2) by auto. reflexivity. }
  destruct (numeric_attempt_numbers cfg _ _ x1 x2 Hp H1 H2 N1 N2)
    as (r1 & r2 & -> & -> & _ & _ & ->).
  reflexivity.
Qed.

Lemma number_of_bounded (s : string) (x : pyfloat) :
  number_of s = Some x -> bounded x /\ isnan x = false.
Proof.
  unfold number_of. destruct (to_number s) as [y|e] eqn:H; [|discriminate].
  destruct (isnan y) eqn:N; [discriminate|]. intros [= <-].
  split; [eapply to_number_bounded, H | exact N].
Qed.

(** Two values of one null status that are compared as one string compare
    equal. *)
Lemma safe_equals_same_text (a b : value) :
  0 <= float_precision cfg ->
  isna a = isna b -> normalize a = normalize b ->
  safe_equals a b = Ok true.
Proof.
  intros Hp Hna Hs.
  rewrite <- (safe_equals_refl float_repr timestamp_str cfg a Hp).
  unfold Validator.safe_equals. rewrite <- Hna, <- Hs. reflexivity.
Qed.

(** X1: the comparison is reflexive: at the settings of the sidebar every
    cell value, missing or not, compares equal to itself. *)
Theorem safe_equals_reflexive (a : value) :
  valid_config cfg -> safe_equals a a = Ok true.
Proof.
  intros [Hlo _]. apply safe_equals_same_text; [lia | reflexivity ..].
Qed.

(** X2: the comparison is transitive: at the settings of the sidebar, when
    [a] compares equal to [b] and [b] to [c], then [a] compares equal to
    [c]. *)
Theorem safe_equals_transitive (a b c : value) :
  valid_config cfg ->
  safe_equals a b = Ok true -> safe_equals b c = Ok true ->
  safe_equals a c = Ok true.
Proof.
  intros [Hlo _] Hab Hbc.
  assert (Hp : 0 <= float_precision cfg) by lia.
  assert (Hcore : treat_nulls_equal cfg && (isna a || isna b) = false ->
                  treat_nulls_equal cfg && (isna b || isna c) = false ->
                  treat_nulls_equal cfg && (isna a || isna c) = false ->
                  safe_equals a c = Ok true).
  { intros Nab Nbc Nac.
    destruct (compared_strings a b Hp Nab) as (r & Hr & Eab).
    destruct (compared_strings b c Hp Nbc) as (r' & Hr' & Ebc).
    destruct (compared_strings a c Hp Nac) as (r'' & Hr'' & Eac).
    rewrite Eab in Hab. rewrite Ebc in Hbc. rewrite Eac.
    assert (Er : forall s x, number_of s = Some x -> r' x = r x /\ r'' x = r x).
    { intros s x Hx. apply number_of_bounded in Hx as [Hx _].
      destruct (Hr x Hx) as [R _], (Hr' x Hx) as [R' _], (Hr'' x Hx) as [R'' _].
      split; congruence. }
    destruct (number_of (normalize a)) as [xa|] eqn:Na,
             (number_of (normalize b)) as [xb|] eqn:Nb,
             (number_of (normalize c)) as [xc|] eqn:Nc;
      injection Hab as Hab'; injection Hbc as Hbc'; f_equal;
      try (apply String.eqb_eq in Hab'); try (apply String.eqb_eq in Hbc');
      try congruence.
    - destruct (Er _ _ Na) as [_ Ea], (Er _ _ Nb) as [Eb _],
               (Er _ _ Nc) as [Ec Ec'].
      rewrite Eb, Ec in Hbc'. rewrite Ea, Ec'.
      eapply eqb_trans; eassumption.
    - rewrite Hab', Hbc'. apply String.eqb_refl. }
  destruct (treat_nulls_equal cfg) eqn:Ht; [|apply Hcore; reflexivity].
  unfold Validator.safe_equals in Hab, Hbc. rewrite Ht in Hab, Hbc.
  destruct (isna a) eqn:Ia, (isna b) eqn:Ib, (isna c) eqn:Ic;
    try discriminate Hab; try discriminate Hbc.
  - unfold Validator.safe_equals. rewrite Ht, Ia, Ic. reflexivity.
  - apply Hcore; rewrite ?Ia, ?Ib, ?Ic; reflexivity.
Qed.

(** X3: with [treat_nulls_equal] off, [None] is compared as the empty string:
    it equals the values whose compared string is empty and no other, so
    it equals [""] and differs from NaN and from [NaT]. *)
Theorem safe_equals_none_as_empty :
  treat_nulls_equal cfg = false ->
  (forall v, safe_equals VNone v = Ok (String.eqb "" (normalize v))) /\
  safe_equals VNone (VStr "") = Ok true /\
  safe_equals VNone (VFloat S754_nan) = Ok false /\
  safe_equals VNone VNaT = Ok false.
Proof.
  intros Ht.
  assert (H : forall v, safe_equals VNone v = Ok (String.eqb "" (normalize v))).
  { intros v. rewrite safe_equals_not_null by (rewrite Ht; reflexivity).
    assert (E : normalize VNone = "").
    { unfold Validator.normalize. simpl.
      destruct (ignore_whitespace cfg), (ignore_case cfg); reflexivity. }
    rewrite E.
    destruct (to_number (normalize v)) as [x|e] eqn:Hv.
    - rewrite (numeric_attempt_nan cfg _ _ S754_nan x);
        [reflexivity | reflexivity | exact Hv | left; reflexivity].
    - rewrite (numeric_attempt_fails cfg _ _ e); [reflexivity|].
      right. exists S754_nan. split; [reflexivity | exact Hv]. }
  split; [exact H|]. rewrite !H. unfold Validator.normalize. simpl.
  destruct (ignore_whitespace cfg), (ignore_case cfg); repeat split; reflexivity.
Qed.

Lemma isspace_lower_char (c : ascii) :
  PyStr.isspace (PyStr.lower_char c) = PyStr.isspace c.
Proof.
  destruct c as [b0 b1 b2 b3 b4 b5 b6 b7].
  destruct b0, b1, b2, b3, b4, b5, b6, b7; vm_compute; reflexivity.
Qed.

Lemma lower_list_ascii (s : string) :
  list_ascii_of_string (PyStr.lower s)
  = map PyStr.lower_char (list_ascii_of_string s).
Proof. induction s as [|c s IH]; simpl; [reflexivity | rewrite IH; reflexivity]. Qed.

Lemma lower_of_list (l : list ascii) :
  PyStr.lower (string_of_list_ascii l)
  = string_of_list_ascii (map PyStr.lower_char l).
Proof. induction l as [|c l IH]; simpl; [reflexivity | rewrite IH; reflexivity]. Qed.

Lemma lstrip_lower (l : list ascii) :
  PyStr.lstrip_with PyStr.isspace (map PyStr.lower_char l)
  = map PyStr.lower_char (PyStr.lstrip_with PyStr.isspace l).
Proof.
  induction l as [|c l IH]; [reflexivity|].
  simpl. rewrite isspace_lower_char.
  destruct (PyStr.isspace c); [exact IH | reflexivity].
Qed.

(** Lower-casing and stripping commute. *)
Lemma lower_strip (s : string) :
  PyStr.lower (PyStr.strip s) = PyStr.strip (PyStr.lower s).
Proof.
  unfold PyStr.strip, PyStr.strip_with.
  rewrite lower_of_list, lower_list_ascii.
  rewrite lstrip_lower, <- map_rev, lstrip_lower, <- map_rev. reflexivity.
Qed.

(** X4: what the settings [ignore_case] and [ignore_whitespace] promise: two
    present values whose texts are equal up to case compare equal when
    case is ignored, and two whose texts are equal up to surrounding white
    space compare equal when white space is ignored. *)
Theorem safe_equals_ignores_case_and_space (a b : value) :
  valid_config cfg -> isna a = false -> isna b = false ->
  (ignore_case cfg = true ->
   PyStr.lower (str float_repr timestamp_str a)
   = PyStr.lower (str float_repr timestamp_str b) ->
   safe_equals a b = Ok true) /\
  (ignore_whitespace cfg = true ->
   PyStr.strip (str float_repr timestamp_str a)
   = PyStr.strip (str float_repr timestamp_str b) ->
   safe_equals a b = Ok true).
Proof.
  intros [Hlo _] Ia Ib.
  assert (Na : is_None a = false) by (destruct a; try reflexivity; discriminate).
  assert (Nb : is_None b = false) by (destruct b; try reflexivity; discriminate).
  split; intros Hset Htext; (apply safe_equals_same_text; [lia | congruence |]);
    unfold Validator.normalize; rewrite Na, Nb, Hset.
  - destruct (ignore_whitespace cfg); [|exact Htext].
    rewrite !lower_strip, Htext. reflexivity.
  - rewrite Htext. reflexivity.
Qed.

Lemma numeric_attempt_raises (s1 s2 : string) (e : exn) :
  numeric_attempt cfg s1 s2 = Raise e -> e = ValueError \/ e = OverflowError.
Proof.
  unfold numeric_attempt.
  destruct (to_number s1) as [x1|e1] eqn:H1.
  2:{ intros [= <-]. left. eapply to_number_raises, H1. }
  destruct (to_number s2) as [x2|e2] eqn:H2.
  2:{ intros [= <-]. left. eapply to_number_raises, H2. }
  cbn [Py.bind]. destruct (negb (isnan x1) && negb (isnan x2)); [|discriminate].
  destruct (round x1 _) as [r1|o1] eqn:R1.
  2:{ intros [= <-]. right. eapply round_raises, R1. }
  destruct (round x2 _) as [r2|o2] eqn:R2; [discriminate|].
  intros [= <-]. right. eapply round_raises, R2.
Qed.

(** X5: what escapes [safe_equals]: the [try] block lets nothing out but the
    [OverflowError] of [round], and that needs a negative precision, which
    the sidebar does not offer. *)
Theorem safe_equals_raises (a b : value) (e : exn) :
  safe_equals a b = Raise e -> e = OverflowError /\ float_precision cfg < 0.
Proof.
  intros H. split.
  - unfold Validator.safe_equals in H.
    destruct (treat_nulls_equal cfg && (isna a && isna b)); [discriminate|].
    destruct (treat_nulls_equal cfg && (isna a || isna b)); [discriminate|].
    destruct (numeric_attempt cfg _ _) as [[r|]|e'] eqn:A; try discriminate.
    apply numeric_attempt_raises in A as [-> | ->]; [discriminate|].
    simpl in H. congruence.
  - destruct (Z.lt_ge_cases (float_precision cfg) 0) as [Hlt|Hge]; [exact Hlt|].
    destruct (safe_equals_returns float_repr timestamp_str cfg a b Hge) as [r Hr].
    rewrite Hr in H. discriminate.
Qed.

End Facts.

(** An instance of transitivity at the default settings: 1, "1.0" and
    " 1.000001 ". *)
Lemma safe_equals_transitive_witness :
  safe_equals (fun _ => "") (fun _ => "") default_config
    (VInt 1) (VStr " 1.000001 ") = Ok true.
Proof.
  apply (safe_equals_transitive (fun _ => "") (fun _ => "") default_config
           (VInt 1) (VStr "1.0") (VStr " 1.000001 "));
    [split; discriminate | vm_compute; reflexivity ..].
Defined.

Lemma safe_equals_reflexive_witness :
  safe_equals (fun _ => "") (fun _ => "") default_config
    (VFloat S754_nan) (VFloat S754_nan) = Ok true.
Proof.
  apply (safe_equals_reflexive (fun _ => "") (fun _ => "") default_config).
  split; discriminate.
Defined.

Lemma safe_equals_none_as_empty_witness :
  safe_equals (fun _ => "") (fun _ => "")
    {| ignore_case := true; ignore_whitespace := true;
       float_precision := 5; treat_nulls_equal := false |}
    VNone (VStr "  ") = Ok true.
Proof.
  rewrite (proj1 (safe_equals_none_as_empty (fun _ => "") (fun _ => "")
                    {| ignore_case := true; ignore_whitespace := true;
                       float_precision := 5; treat_nulls_equal := false |}
                    eq_refl)).
  reflexivity.
Defined.

(** [True] against "TRUE", and "abc " against "abc". *)
Lemma safe_equals_ignores_case_and_space_witness :
  safe_equals (fun _ => "") (fun _ => "") default_config
    (VBool true) (VStr "TRUE") = Ok true /\
  safe_equals (fun _ => "") (fun _ => "") default_config
    (VStr "abc ") (VStr "abc") = Ok true.
Proof.
  split.
  - apply (proj1 (safe_equals_ignores_case_and_space (fun _ => "") (fun _ => "")
                    default_config (VBool true) (VStr "TRUE")
                    ltac:(split; discriminate) eq_refl eq_refl));
      reflexivity.
  - apply (proj2 (safe_equals_ignores_case_and_space (fun _ => "") (fun _ => "")
                    default_config (VStr "abc ") (VStr "abc")
                    ltac:(split; discriminate) eq_refl eq_refl));
      reflexivity.
Defined.

(** The largest binary64 number rounded at [-308] places is out of
    range. *)
Lemma safe_equals_raises_witness :
  safe_equals (fun _ => "") (fun _ => "")
    {| ignore_case := true; ignore_whitespace := true;
       float_precision := -308; treat_nulls_equal := true |}
    (VStr "1.7976931348623157e308") (VStr "1") = Raise OverflowError /\
  -308 < 0.
Proof.
  assert (H : safe_equals (fun _ => "") (fun _ => "")
                {| ignore_case := true; ignore_whitespace := true;
                   float_precision := -308; treat_nulls_equal := true |}
                (VStr "1.7976931348623157e308") (VStr "1") = Raise OverflowError)
    by (vm_compute; reflexivity).
  split; [exact H|].
  exact (proj2 (safe_equals_raises (fun _ => "") (fun _ => "") _ _ _ _ H)).
Defined.

End ComparatorMore.

(** * The report: its columns, its order and what the page shows of it *)

Module ReportFacts.

Import PyFloat Validator Closed Display.
Import ComparatorFacts SortFacts LoopFacts RunFacts.

Lemma filter_omap_Forall2 {A B : Type} (f : A -> option B) (l : list A) :
  Forall2 (fun x y => f x = Some y)
    (filter (fun x => is_Some (f x)) l) (omap f l).
Proof.
  induction l as [|x l IH]; [constructor|].
  rewrite filter_cons. csimpl.
  destruct (f x) as [y|] eqn:E.
  - rewrite decide_True by eauto. constructor; [exact E | exact IH].
  - rewrite decide_False by (intros [y Hy]; discriminate). exact IH.
Qed.

Lemma StronglySorted_seq (a n : nat) : StronglySorted lt (seq a n).
Proof.
  revert a. induction n as [|n IH]; intros a; [constructor|].
  simpl. constructor; [apply IH|].
  apply Forall_forall. intros i Hi. apply elem_of_seq in Hi. lia.
Qed.

Lemma StronglySorted_filter {A : Type} (R : relation A) (P : A -> Prop)
    `{!forall x, Decision (P x)} (l : list A) :
  StronglySorted R l -> StronglySorted R (filter P l).
Proof.
  induction 1 as [|x l Hl IH Hx]; [constructor|].
  rewrite filter_cons. destruct (decide (P x)); [|exact IH].
  constructor; [exact IH|].
  apply Forall_forall. intros y Hy. apply list_elem_of_filter in Hy as [_ Hy].
  rewrite Forall_forall in Hx. apply Hx, Hy.
Qed.

Section Loop.

Variable float_repr : pyfloat -> string.
Variable timestamp_str : Z -> string.
Variable cfg : Config.
Hypothesis cfg_ok : valid_config cfg.

Variables df_old df_new : DataFrame.
Variables sort_cols common_cols : list string.

Hypothesis keys_exist : forall k, k ∈ sort_cols -> k ∈ columns df_old.
Hypothesis common_exist :
  forall c, c ∈ common_cols -> c ∈ columns df_old /\ c ∈ columns df_new.

Local Abbreviation safe_equals := (safe_equals float_repr timestamp_str cfg).
Local Abbreviation differs := (differs float_repr timestamp_str cfg).
Local Abbreviation scan_cell :=
  (scan_cell float_repr timestamp_str cfg df_old df_new).
Local Abbreviation compare_row :=
  (compare_row float_repr timestamp_str cfg df_old df_new sort_cols common_cols).

(** The set of mismatched columns through the cells of one row. *)
Lemma scan_cells_seen (idx : nat) (r_old r_new : row) (cols : list string)
    (st st' : RowScan) :
  rows df_old !! idx = Some r_old -> rows df_new !! idx = Some r_new ->
  (forall c, c ∈ cols -> c ∈ columns df_old /\ c ∈ columns df_new) ->
  for_each (scan_cell idx) cols st = Ok st' ->
  forall col, col ∈ seen_columns st'
              <-> col ∈ seen_columns st
                  \/ (col ∈ cols /\ differs r_old r_new col = true).
Proof.
  intros Ho Hn. revert st.
  induction cols as [|c cols IH]; intros st Hcols Hrun col.
  { injection Hrun as <-. split; [auto|]. intros [H|[H _]]; [exact H|inversion H]. }
  destruct (Hcols c ltac:(left)) as [Hco Hcn].
  assert (Hrest : forall c', c' ∈ cols -> c' ∈ columns df_old /\ c' ∈ columns df_new)
    by (intros c' Hc'; apply Hcols; right; exact Hc').
  cbn [for_each] in Hrun. unfold Validator.scan_cell at 1 in Hrun.
  rewrite (loc_lookup _ _ _ _ Ho Hco), (loc_lookup _ _ _ _ Hn Hcn) in Hrun.
  cbn [Py.bind] in Hrun.
  rewrite (differs_spec float_repr timestamp_str cfg cfg_ok) in Hrun.
  cbn [Py.bind] in Hrun. rewrite negb_involutive in Hrun.
  destruct (differs r_old r_new c) eqn:Hd; cbn [Py.bind] in Hrun;
    rewrite (IH _ Hrest Hrun col); cbn [seen_columns];
    rewrite ?elem_of_union, ?elem_of_singleton, elem_of_cons.
  - split.
    + intros [[->|H]|[H1 H2]]; auto.
    + intros [H|[[->|H1] H2]]; auto.
  - split.
    + intros [H|[H1 H2]]; auto.
    + intros [H|[[->|H1] H2]]; auto. congruence.
Qed.

Lemma compare_row_columns (rep rep' : Report) (idx : nat) (r_old r_new : row) :
  rows df_old !! idx = Some r_old -> rows df_new !! idx = Some r_new ->
  compare_row rep idx = Ok rep' ->
  forall col, col ∈ mismatched_columns rep'
              <-> col ∈ mismatched_columns rep
                  \/ (col ∈ common_cols /\ differs r_old r_new col = true).
Proof.
  intros Hro Hrn Hrun. unfold Validator.compare_row in Hrun.
  rewrite (add_keys_run df_old idx r_old sort_cols _ Hro keys_exist) in Hrun.
  cbn [Py.bind] in Hrun.
  destruct (for_each (scan_cell idx) common_cols _) as [st'|e] eqn:E;
    [|discriminate].
  cbn [Py.bind] in Hrun. injection Hrun as <-. cbn [mismatched_columns].
  intros col.
  rewrite (scan_cells_seen idx r_old r_new common_cols _ st' Hro Hrn common_exist E).
  reflexivity.
Qed.

Lemma compare_positions_columns (l : list nat) (rep rep' : Report) :
  Forall (fun idx => (idx < len df_old)%nat /\ (idx < len df_new)%nat) l ->
  for_each compare_row l rep = Ok rep' ->
  forall col, col ∈ mismatched_columns rep'
              <-> col ∈ mismatched_columns rep
                  \/ exists idx r_old r_new,
                       idx ∈ l /\ rows df_old !! idx = Some r_old /\
                       rows df_new !! idx = Some r_new /\
                       col ∈ common_cols /\ differs r_old r_new col = true.
Proof.
  intros Hl. revert rep.
  induction Hl as [|idx l [Ho Hn] _ IH]; intros rep Hrun col.
  { injection Hrun as <-. split; [auto|].
    intros [H|(idx & ro & rn & H & _)]; [exact H | inversion H]. }
  destruct (lookup_lt_is_Some_2 (rows df_old) idx Ho) as [r_old Hro].
  destruct (lookup_lt_is_Some_2 (rows df_new) idx Hn) as [r_new Hrn].
  cbn [for_each] in Hrun.
  destruct (compare_row rep idx) as [rep1|e] eqn:E1; [|discriminate].
  cbn [Py.bind] in Hrun.
  rewrite (IH rep1 Hrun col), (compare_row_columns rep rep1 idx r_old r_new Hro Hrn E1).
  split.
  - intros [[H|[H1 H2]]|(i & ro & rn & Hi & H)]; [auto | |].
    + right. exists idx, r_old, r_new. repeat split; try assumption. left.
    + right. exists i, ro, rn. split; [right; exact Hi | exact H].
  - intros [H|(i & ro & rn & Hi & H1 & H2 & H3 & H4)]; [auto|].
    apply elem_of_cons in Hi as [->|Hi].
    + left. right. rewrite Hro in H1. rewrite Hrn in H2.
      injection H1 as <-. injection H2 as <-. auto.
    + right. exists i, ro, rn. auto.
Qed.

End Loop.

Lemma frame_keys_elem (records : list (gmap string value)) (key : string) :
  key ∈ frame_keys records <-> exists rd, rd ∈ records /\ is_Some (rd !! key).
Proof.
  unfold frame_keys. rewrite elem_of_union_list. split.
  - intros (X & HX & Hk). apply list_elem_of_fmap in HX as (rd & -> & Hrd).
    exists rd. split; [exact Hrd|]. apply elem_of_dom, Hk.
  - intros (rd & Hrd & Hk). exists (dom rd).
    split; [apply list_elem_of_fmap; eauto|]. apply elem_of_dom, Hk.
Qed.

Lemma sorted_columns_elem (cols : gset string) (col : string) :
  col ∈ sorted_columns cols <-> col ∈ cols.
Proof.
  unfold sorted_columns. rewrite merge_sort_Permutation. apply elem_of_elements.
Qed.

Lemma map_result_Forall2 {A B : Type} (f : A -> result B) (P : A -> B -> Prop)
    (l : list A) :
  (forall x, x ∈ l -> exists y, f x = Ok y /\ P x y) ->
  exists ys, map_result f l = Ok ys /\ Forall2 P l ys.
Proof.
  induction l as [|x l IH]; intros H.
  { exists []. split; [reflexivity | constructor]. }
  destruct (H x ltac:(left)) as (y & E & Hy).
  destruct IH as (ys & Es & Hys); [intros x' Hx'; apply H; right; exact Hx'|].
  exists (y :: ys). cbn [map_result]. rewrite E. cbn [Py.bind]. rewrite Es.
  split; [reflexivity | constructor; assumption].
Qed.

Section Sorted.

Variable float_repr : pyfloat -> string.
Variable timestamp_str : Z -> string.
Variable cfg : Config.

Variables df_old df_new : DataFrame.
Variable sort_cols : list string.

Local Abbreviation safe_equals := (safe_equals float_repr timestamp_str cfg).
Local Abbreviation differs := (differs float_repr timestamp_str cfg).
Local Abbreviation compare_sorted :=
  (compare_sorted float_repr timestamp_str cfg).
Local Abbreviation common_cols := (common_columns df_old df_new).
Local Abbreviation expected_record :=
  (expected_record float_repr timestamp_str cfg df_old df_new sort_cols
     (common_columns df_old df_new)).
Local Abbreviation record_at :=
  (record_at float_repr timestamp_str cfg df_old df_new sort_cols
     (common_columns df_old df_new)).

(** The comparison returns; its records and its set of columns in closed
    form. *)
Lemma compare_sorted_full :
  valid_config cfg ->
  (forall k, k ∈ sort_cols -> k ∈ columns df_old) ->
  exists c,
    compare_sorted df_old df_new sort_cols = Ok c /\
    warnings c
    = (if negb (len df_old =? len df_new)%nat
       then [RowCountMismatch (len df_old) (len df_new)] else []) /\
    mismatch_report (report c)
    = omap expected_record (seq 0 (Nat.min (len df_old) (len df_new))) /\
    (forall col,
       col ∈ mismatched_columns (report c)
       <-> exists idx r_old r_new,
             rows df_old !! idx = Some r_old /\ rows df_new !! idx = Some r_new /\
             col ∈ common_cols /\ differs r_old r_new col = true).
Proof.
  intros Hcfg Hkeys.
  destruct (compare_sorted_run float_repr timestamp_str cfg df_old df_new
              sort_cols Hcfg Hkeys) as (c & E & W & R).
  exists c. split; [exact E|]. split; [exact W|]. split; [exact R|].
  unfold Validator.compare_sorted in E.
  destruct (compare_rows _ _ _ _ _ _ _) as [rep|e] eqn:Erows; [|discriminate].
  cbn [Py.bind] in E. injection E as <-. cbn [report].
  unfold compare_rows in Erows. intros col.
  assert (Hin : Forall (fun idx => (idx < len df_old)%nat /\ (idx < len df_new)%nat)
                  (seq 0 (Nat.min (len df_old) (len df_new)))).
  { apply Forall_forall. intros idx Hidx. apply elem_of_seq in Hidx. lia. }
  rewrite (compare_positions_columns float_repr timestamp_str cfg Hcfg
             df_old df_new sort_cols common_cols Hkeys
             (common_columns_exist df_old df_new) _ _ rep Hin Erows col).
  cbn [mismatched_columns]. split.
  - intros [H|(idx & ro & rn & _ & H)]; [set_solver|]. exists idx, ro, rn. exact H.
  - intros (idx & ro & rn & Ho & Hn & H). right. exists idx, ro, rn.
    split; [|auto].
    apply elem_of_seq. apply lookup_lt_Some in Ho, Hn. unfold len. lia.
Qed.

(** A record that holds ["Old_" ++ col] belongs to a position at which
    the column differs, and holds the two cells. *)
Lemma record_old_cell (l : list nat) (rd : gmap string value) (col : string) :
  rd ∈ omap expected_record l -> has_old col rd ->
  exists idx r_old r_new,
    idx ∈ l /\
    rows df_old !! idx = Some r_old /\ rows df_new !! idx = Some r_new /\
    rd !! "Row" = Some (VInt (Z.of_nat idx + 1)) /\
    rd !! String.append "Old_" col = Some (r_old col) /\
    rd !! String.append "New_" col = Some (r_new col) /\
    col ∈ common_cols /\
    safe_equals (r_old col) (r_new col) = Ok false.
Proof.
  intros Hrd [v Hv].
  apply (record_in_report float_repr timestamp_str cfg) in Hrd
    as (idx & Hidx & (ro & rn & Ho & Hn & Hrow & _ & Hold & Hnew & _)).
  exists idx, ro, rn.
  pose proof (proj1 (Hold col v) Hv) as (Hc & Hd & ->).
  repeat split; try assumption. apply Hnew. auto.
Qed.

Lemma differing_cell_recorded (l : list nat) (idx : nat) (r_old r_new : row)
    (col : string) :
  idx ∈ l ->
  rows df_old !! idx = Some r_old -> rows df_new !! idx = Some r_new ->
  col ∈ common_cols -> differs r_old r_new col = true ->
  exists rd, rd ∈ omap expected_record l /\ has_old col rd.
Proof.
  intros Hidx Ho Hn Hc Hd. eexists. split.
  - apply list_elem_of_omap. exists idx. split; [exact Hidx|].
    unfold Validator.expected_record. rewrite Ho, Hn.
    replace (existsb _ _) with true; [reflexivity|].
    symmetry. apply existsb_exists. exists col.
    split; [apply list_elem_of_In, Hc | exact Hd].
  - unfold has_old. rewrite diff_cells_lookup_old by assumption. eauto.
Qed.

(** X14: the records come in ascending row order, one for each position
    below the shorter length at which some compared column differs: no
    such position is left out and none is reported twice. *)
Theorem report_in_row_order :
  valid_config cfg ->
  (forall k, k ∈ sort_cols -> k ∈ columns df_old) ->
  exists c idxs,
    compare_sorted df_old df_new sort_cols = Ok c /\
    StronglySorted lt idxs /\
    Forall2 record_at idxs (mismatch_report (report c)) /\
    (forall idx,
       idx ∈ idxs
       <-> exists r_old r_new col,
             rows df_old !! idx = Some r_old /\ rows df_new !! idx = Some r_new /\
             col ∈ common_cols /\
             safe_equals (r_old col) (r_new col) = Ok false).
Proof.
  intros Hcfg Hkeys.
  destruct (compare_sorted_full Hcfg Hkeys) as (c & E & _ & R & _).
  set (n := Nat.min (len df_old) (len df_new)) in *.
  exists c, (filter (fun idx => is_Some (expected_record idx)) (seq 0 n)).
  split; [exact E|]. split; [apply StronglySorted_filter, StronglySorted_seq|].
  split.
  - rewrite R. eapply Forall2_impl; [apply filter_omap_Forall2|].
    intros idx rd H. apply expected_record_at, H.
  - intros idx. rewrite list_elem_of_filter, elem_of_seq.
    unfold Validator.expected_record. split.
    + intros [[rd Hrd] _].
      destruct (rows df_old !! idx) as [ro|]; [|discriminate].
      destruct (rows df_new !! idx) as [rn|]; [|discriminate].
      destruct (existsb _ _) eqn:Hany; [|discriminate].
      apply existsb_exists in Hany as (col & Hc & Hd).
      exists ro, rn, col. repeat split; [apply list_elem_of_In, Hc|].
      apply differs_true_iff, Hd.
    + intros (ro & rn & col & Ho & Hn & Hc & Hd). rewrite Ho, Hn.
      replace (existsb _ _) with true.
      2:{ symmetry. apply existsb_exists. exists col.
          split; [apply list_elem_of_In, Hc | apply differs_true_iff, Hd]. }
      split; [eauto|].
      apply lookup_lt_Some in Ho, Hn. unfold n, len. lia.
Qed.

(** X15: [mismatched_columns] is the set of the compared columns that differ
    at some compared position, and these are the columns for which some
    record holds the old cell; a column of one file only is never among
    them. *)
Theorem mismatched_columns_spec :
  valid_config cfg ->
  (forall k, k ∈ sort_cols -> k ∈ columns df_old) ->
  exists c,
    compare_sorted df_old df_new sort_cols = Ok c /\
    (forall col,
       col ∈ mismatched_columns (report c)
       <-> exists idx r_old r_new,
             rows df_old !! idx = Some r_old /\ rows df_new !! idx = Some r_new /\
             col ∈ common_cols /\
             safe_equals (r_old col) (r_new col) = Ok false) /\
    (forall col,
       col ∈ mismatched_columns (report c)
       <-> exists rd, rd ∈ mismatch_report (report c) /\ has_old col rd) /\
    (forall col,
       col ∈ mismatched_columns (report c) ->
       col ∈ columns df_old /\ col ∈ columns df_new).
Proof.
  intros Hcfg Hkeys.
  destruct (compare_sorted_full Hcfg Hkeys) as (c & E & _ & R & C).
  exists c. split; [exact E|].
  assert (C1 : forall col,
            col ∈ mismatched_columns (report c)
            <-> exists idx r_old r_new,
                  rows df_old !! idx = Some r_old /\
                  rows df_new !! idx = Some r_new /\
                  col ∈ common_cols /\
                  safe_equals (r_old col) (r_new col) = Ok false).
  { intros col. rewrite C. split; intros (idx & ro & rn & Ho & Hn & Hc & Hd);
      exists idx, ro, rn; repeat split; try assumption;
      apply differs_true_iff, Hd. }
  split; [exact C1|]. split.
  - intros col. rewrite R. split.
    + intros H. apply C in H as (idx & ro & rn & Ho & Hn & Hc & Hd).
      apply (differing_cell_recorded _ idx ro rn); try assumption.
      apply elem_of_seq. apply lookup_lt_Some in Ho, Hn. unfold len. lia.
    + intros (rd & Hrd & Hold). apply C1.
      destruct (record_old_cell _ rd col Hrd Hold)
        as (idx & ro & rn & _ & Ho & Hn & _ & _ & _ & Hc & Hd).
      exists idx, ro, rn. auto.
  - intros col H. apply C1 in H as (_ & _ & _ & _ & _ & Hc & _).
    apply common_columns_exist, Hc.
Qed.

Lemma record_has_row (l : list nat) (rd : gmap string value) :
  rd ∈ omap expected_record l -> is_Some (rd !! "Row").
Proof.
  intros H. apply (record_in_report float_repr timestamp_str cfg) in H
    as (idx & _ & (ro & rn & _ & _ & Hrow & _)).
  eauto.
Qed.

Lemma record_has_old (l : list nat) (rd : gmap string value) :
  rd ∈ omap expected_record l -> exists col, has_old col rd.
Proof.
  intros H. apply (record_in_report float_repr timestamp_str cfg) in H
    as (idx & _ & (ro & rn & _ & _ & _ & _ & _ & _ & Hcol & _)).
  exact Hcol.
Qed.

Lemma record_has_key (l : list nat) (rd : gmap string value) (k : string) :
  rd ∈ omap expected_record l -> k ∈ sort_cols ->
  is_Some (rd !! String.append "Key_" k).
Proof.
  intros H Hk. apply (record_in_report float_repr timestamp_str cfg) in H
    as (idx & _ & (ro & rn & _ & _ & _ & Hkey & _)).
  exists (ro k). apply Hkey. auto.
Qed.

(** The table of a report is empty only when there is no record. *)
Lemma frame_empty_report (l : list nat) :
  frame_empty (omap expected_record l) = true <-> omap expected_record l = [].
Proof.
  destruct (omap expected_record l) as [|rd rest] eqn:E; [split; reflexivity|].
  split; [|discriminate]. intros H. exfalso.
  apply bool_decide_eq_true_1 in H.
  assert (Hrow : "Row" ∈ frame_keys (rd :: rest)).
  { apply frame_keys_elem. exists rd. split; [left|].
    apply (record_has_row l). rewrite E. left. }
  rewrite H in Hrow. set_solver.
Qed.

(** X16: what is announced (lines 124-129): the message that no mismatch was
    found appears exactly when every compared column compares equal at
    every position below the shorter length, whatever the two files hold
    beyond; otherwise the columns are listed in ascending order, each
    once, and these are the mismatched columns, at least one. *)
Theorem verdict_spec :
  valid_config cfg ->
  (forall k, k ∈ sort_cols -> k ∈ columns df_old) ->
  exists c,
    compare_sorted df_old df_new sort_cols = Ok c /\
    (verdict_of (report c) = NoMismatches
     <-> forall idx r_old r_new col,
           rows df_old !! idx = Some r_old -> rows df_new !! idx = Some r_new ->
           col ∈ common_cols -> safe_equals (r_old col) (r_new col) = Ok true) /\
    (forall cols,
       verdict_of (report c) = MismatchesFound cols ->
       cols <> [] /\ Sorted String.le cols /\ NoDup cols /\
       forall col, col ∈ cols <-> col ∈ mismatched_columns (report c)).
Proof.
  intros Hcfg Hkeys.
  destruct (compare_sorted_full Hcfg Hkeys) as (c & E & _ & R & C).
  set (n := Nat.min (len df_old) (len df_new)) in *.
  exists c. split; [exact E|].
  assert (Hv : verdict_of (report c) = NoMismatches
               <-> omap expected_record (seq 0 n) = []).
  { unfold verdict_of. rewrite R, <- frame_empty_report.
    destruct (frame_empty _); split; congruence. }
  split.
  - rewrite Hv. split.
    + intros Hnil idx ro rn col Ho Hn Hc.
      rewrite (differs_spec float_repr timestamp_str cfg Hcfg).
      destruct (differs ro rn col) eqn:Hd; [|reflexivity]. exfalso.
      destruct (differing_cell_recorded (seq 0 n) idx ro rn col)
        as (rd & Hrd & _); try assumption.
      { apply elem_of_seq. apply lookup_lt_Some in Ho, Hn. unfold n, len. lia. }
      rewrite Hnil in Hrd. inversion Hrd.
    + intros Hall.
      destruct (omap expected_record (seq 0 n)) as [|rd rest] eqn:Eo;
        [reflexivity|]. exfalso.
      assert (Hrd : rd ∈ omap expected_record (seq 0 n)) by (rewrite Eo; left).
      destruct (record_has_old _ rd Hrd) as [col Hcol].
      destruct (record_old_cell _ rd col Hrd Hcol)
        as (idx & ro & rn & _ & Ho & Hn & _ & _ & _ & Hc & Hd).
      rewrite (Hall idx ro rn col Ho Hn Hc) in Hd. discriminate.
  - intros cols Hcols. unfold verdict_of in Hcols.
    destruct (frame_empty _) eqn:Hfe; [discriminate|]. injection Hcols as <-.
    split; [|split; [|split]].
    + rewrite R in Hfe.
      destruct (omap expected_record (seq 0 n)) as [|rd rest] eqn:Eo;
        [discriminate Hfe|].
      assert (Hrd : rd ∈ omap expected_record (seq 0 n)) by (rewrite Eo; left).
      destruct (record_has_old _ rd Hrd) as [col Hcol].
      destruct (record_old_cell _ rd col Hrd Hcol)
        as (idx & ro & rn & _ & Ho & Hn & _ & _ & _ & Hc & Hd).
      assert (Hin : col ∈ sorted_columns (mismatched_columns (report c))).
      { apply sorted_columns_elem, C. exists idx, ro, rn.
        repeat split; try assumption. apply differs_true_iff, Hd. }
      intros Hnil. rewrite Hnil in Hin. inversion Hin.
    + apply Sorted_merge_sort. apply _.
    + unfold sorted_columns. rewrite merge_sort_Permutation. apply NoDup_elements.
    + intros col. apply sorted_columns_elem.
Qed.

Lemma mismatch_counts_lookup (rep : Report) (col : string) (count : nat) :
  mismatch_counts rep !! col = Some count
  <-> col ∈ mismatched_columns rep
      /\ count = mismatch_count (mismatch_report rep) col.
Proof.
  unfold mismatch_counts. rewrite lookup_set_to_map.
  - split.
    + intros (y & Hy & Ey). injection Ey as -> <-. auto.
    + intros [H ->]. exists col. auto.
  - intros y y' _ _ H. exact H.
Qed.

Lemma mismatch_count_bounds (l : list nat) (col : string) :
  (exists rd, rd ∈ omap expected_record l /\ has_old col rd) ->
  (1 <= mismatch_count (omap expected_record l) col
   <= length (omap expected_record l))%nat.
Proof.
  intros (rd & Hrd & Hold). unfold mismatch_count. split; [|apply length_filter].
  assert (Hin : rd ∈ filter (has_old col) (omap expected_record l))
    by (apply list_elem_of_filter; auto).
  destruct (filter _ _); [inversion Hin | simpl; lia].
Qed.

(** X17: the summary view (lines 135-141): the table is built without a
    division by zero; it has one line for each mismatched column, and the
    count of a line, the number of records that hold the old cell of the
    column, is at least one and at most the number of compared rows. *)
Theorem summary_counts :
  valid_config cfg ->
  (forall k, k ∈ sort_cols -> k ∈ columns df_old) ->
  exists c t,
    compare_sorted df_old df_new sort_cols = Ok c /\
    summary_rows (report c) (len df_old) (len df_new) = Some t /\
    NoDup (map (fun x => fst (fst x)) t) /\
    (forall col,
       col ∈ mismatched_columns (report c)
       <-> exists count pct, (col, count, pct) ∈ t) /\
    (forall col count pct,
       (col, count, pct) ∈ t ->
       count = mismatch_count (mismatch_report (report c)) col /\
       (1 <= count <= Nat.min (len df_old) (len df_new))%nat /\
       percent_of_rows count (Nat.min (len df_old) (len df_new)) = Some pct).
Proof.
  intros Hcfg Hkeys.
  destruct (mismatched_columns_spec Hcfg Hkeys) as (c & E & _ & C2 & _).
  destruct (compare_sorted_full Hcfg Hkeys) as (c' & E' & _ & R & _).
  rewrite E in E'. injection E' as <-.
  set (n := Nat.min (len df_old) (len df_new)) in *.
  assert (Hlen : (length (mismatch_report (report c)) <= n)%nat).
  { rewrite R. etransitivity; [apply omap_length_le|]. rewrite length_seq.
    reflexivity. }
  assert (Hcount : forall col, col ∈ mismatched_columns (report c) ->
            (1 <= mismatch_count (mismatch_report (report c)) col <= n)%nat).
  { intros col Hcol. apply C2 in Hcol. rewrite R in Hcol |- *.
    pose proof (mismatch_count_bounds _ col Hcol) as [H1 H2].
    rewrite R in Hlen. lia. }
  set (f := fun '((col, count) : string * nat) =>
              match percent_of_rows count n with
              | Some pct => Some (col, count, pct)
              | None => None
              end).
  assert (Hf : forall col count y,
            f (col, count) = Some y
            <-> fst (fst y) = col /\ snd (fst y) = count
                /\ percent_of_rows count n = Some (snd y)).
  { intros col count [[col' count'] pct']. unfold f. simpl.
    destruct (percent_of_rows count n) as [pct|]; split.
    - intros [= <- <- <-]. auto.
    - intros (-> & -> & [= ->]). reflexivity.
    - discriminate.
    - intros (_ & _ & H). discriminate H. }
  assert (Hsome : is_Some (mapM f (map_to_list (mismatch_counts (report c))))).
  { apply mapM_is_Some, Forall_forall. intros [col count] Hin.
    apply elem_of_map_to_list, mismatch_counts_lookup in Hin as [Hcol ->].
    destruct (Hcount col Hcol) as [H1 H2].
    unfold compose, f, percent_of_rows.
    destruct (n =? 0)%nat eqn:En; [apply Nat.eqb_eq in En; lia | eauto]. }
  destruct Hsome as [t Ht]. exists c, t. split; [exact E|].
  split; [exact Ht|].
  apply mapM_Some in Ht.
  assert (Hfst : map (fun x => fst (fst x)) t
                 = (map_to_list (mismatch_counts (report c))).*1).
  { clear -Ht Hf. induction Ht as [|[col count] y l k Hxy _ IH]; [reflexivity|].
    simpl. apply Hf in Hxy as (-> & _). f_equal. exact IH. }
  split; [rewrite Hfst; apply NoDup_fst_map_to_list|].
  assert (Hmem : forall col count pct,
            (col, count, pct) ∈ t
            <-> (col ∈ mismatched_columns (report c)
                 /\ count = mismatch_count (mismatch_report (report c)) col)
                /\ percent_of_rows count n = Some pct).
  { intros col count pct. rewrite <- mismatch_counts_lookup,
      <- elem_of_map_to_list. split.
    - intros Hin. apply list_elem_of_lookup in Hin as [i Hi].
      destruct (Forall2_lookup_r _ _ _ _ _ Ht Hi) as ([col' count'] & Hx & Hxy).
      apply Hf in Hxy as (<- & <- & Hp). simpl in *.
      split; [eapply list_elem_of_lookup_2, Hx | exact Hp].
    - intros [Hin Hp]. apply list_elem_of_lookup in Hin as [i Hi].
      destruct (Forall2_lookup_l _ _ _ _ _ Ht Hi) as (y & Hy & Hxy).
      apply Hf in Hxy as (E1 & E2 & E3). destruct y as [[col' count'] pct'].
      simpl in *. subst col' count'. rewrite Hp in E3. injection E3 as <-.
      eapply list_elem_of_lookup_2, Hy. }
  split.
  - intros col. split.
    + intros Hcol. destruct (Hcount col Hcol) as [H1 H2].
      destruct (percent_of_rows (mismatch_count (mismatch_report (report c)) col) n)
        as [pct|] eqn:Hp.
      * exists (mismatch_count (mismatch_report (report c)) col), pct.
        apply Hmem. auto.
      * unfold percent_of_rows in Hp.
        destruct (n =? 0)%nat eqn:En; [apply Nat.eqb_eq in En; lia | discriminate].
    + intros (count & pct & Hin). apply Hmem in Hin as [[H _] _]. exact H.
  - intros col count pct Hin. apply Hmem in Hin as ((Hcol & ->) & Hp).
    split; [reflexivity|]. split; [apply Hcount, Hcol | exact Hp].
Qed.

Lemma getitem_lookup (rd : gmap string value) (key : string) (v : value) :
  rd !! key = Some v -> getitem rd key = Ok v.
Proof. unfold getitem. intros ->. reflexivity. Qed.

(** X18: the sample differences (lines 145-154): no lookup in a record fails;
    every mismatched column gets a table, in ascending order of the
    columns, of at least one and at most five lines; and every line gives
    the row number and the two cells of the column at a position where
    they compare unequal. *)
Theorem sample_tables_spec :
  valid_config cfg ->
  (forall k, k ∈ sort_cols -> k ∈ columns df_old) ->
  exists c ts,
    compare_sorted df_old df_new sort_cols = Ok c /\
    sample_tables (report c) = Ok ts /\
    map fst ts = sorted_columns (mismatched_columns (report c)) /\
    (forall col t,
       (col, t) ∈ ts ->
       exists entries,
         t = Some entries /\ (1 <= length entries <= 5)%nat /\
         forall r o n,
           (r, o, n) ∈ entries ->
           exists idx r_old r_new,
             rows df_old !! idx = Some r_old /\ rows df_new !! idx = Some r_new /\
             r = VInt (Z.of_nat idx + 1) /\ o = r_old col /\ n = r_new col /\
             safe_equals o n = Ok false).
Proof.
  intros Hcfg Hkeys.
  destruct (mismatched_columns_spec Hcfg Hkeys) as (c & E & _ & C2 & _).
  destruct (compare_sorted_full Hcfg Hkeys) as (c' & E' & _ & R & _).
  rewrite E in E'. injection E' as <-.
  set (Q := fun (col : string) (e : value * value * value) =>
              exists idx r_old r_new,
                rows df_old !! idx = Some r_old /\
                rows df_new !! idx = Some r_new /\
                fst (fst e) = VInt (Z.of_nat idx + 1) /\
                snd (fst e) = r_old col /\ snd e = r_new col /\
                safe_equals (snd (fst e)) (snd e) = Ok false).
  set (P := fun (col : string)
                (y : string * option (list (value * value * value))) =>
              fst y = col /\
              exists entries,
                snd y = Some entries /\ (1 <= length entries <= 5)%nat /\
                Forall (Q col) entries).
  destruct (map_result_Forall2
              (fun col =>
                 let! t := sample_table (mismatch_report (report c)) col in
                 Ok (col, t))
              P (sorted_columns (mismatched_columns (report c))))
    as (ts & Ets & Hts).
  { intros col Hcol. apply sorted_columns_elem, C2 in Hcol.
    destruct Hcol as (rd0 & Hrd0 & Hold0).
    unfold sample_table.
    assert (Hrs : forall rd, rd ∈ sample_rows (mismatch_report (report c)) col ->
              exists e, sample_entry col rd = Ok e /\ Q col e).
    { intros rd Hrd. unfold sample_rows in Hrd.
      apply elem_of_take in Hrd as (i & Hi & _).
      apply list_elem_of_lookup_2, list_elem_of_filter in Hi as [Hold Hin].
      rewrite R in Hin.
      destruct (record_old_cell _ rd col Hin Hold)
        as (idx & ro & rn & _ & Ho & Hn & Hrow & Hov & Hnv & _ & Hd).
      unfold sample_entry.
      rewrite (getitem_lookup _ _ _ Hrow), (getitem_lookup _ _ _ Hov),
        (getitem_lookup _ _ _ Hnv).
      eexists. split; [reflexivity|]. exists idx, ro, rn.
      repeat split; assumption. }
    assert (Hlen : (1 <= length (sample_rows (mismatch_report (report c)) col)
                    <= 5)%nat).
    { unfold sample_rows. rewrite length_take.
      assert (Hin : rd0 ∈ filter (has_old col) (mismatch_report (report c)))
        by (apply list_elem_of_filter; auto).
      destruct (filter _ _); [inversion Hin | cbn [length]; lia]. }
    destruct (map_result_Forall2 (sample_entry col) (fun _ e => Q col e)
                (sample_rows (mismatch_report (report c)) col))
      as (entries & Ee & He).
    { intros rd Hrd. apply Hrs, Hrd. }
    destruct (sample_rows (mismatch_report (report c)) col) as [|rd1 rs] eqn:Ers;
      [simpl in Hlen; lia|].
    rewrite Ee. cbn [Py.bind]. eexists. split; [reflexivity|].
    split; [reflexivity|]. exists entries. split; [reflexivity|].
    split; [rewrite <- (Forall2_length _ _ _ He); exact Hlen|].
    clear -He. induction He; constructor; assumption. }
  exists c, ts. split; [exact E|]. split; [exact Ets|]. split.
  - clear -Hts. induction Hts as [|col y l k [Hy _] _ IH]; [reflexivity|].
    simpl. rewrite Hy, IH. reflexivity.
  - intros col t Hin. apply list_elem_of_lookup in Hin as [i Hi].
    destruct (Forall2_lookup_r _ _ _ _ _ Hts Hi) as (col' & _ & [Hc Hy]).
    simpl in Hc. subst col'. destruct Hy as (entries & Ht & Hlen & Hall).
    simpl in Ht. exists entries. split; [exact Ht|]. split; [exact Hlen|].
    intros r o n Hron. rewrite Forall_forall in Hall.
    destruct (Hall _ Hron) as (idx & ro & rn & Ho & Hn & H1 & H2 & H3 & H4).
    simpl in *. subst. exists idx, ro, rn. repeat split; assumption.
Qed.

Lemma filter_all {A : Type} (P : A -> Prop) `{!forall x, Decision (P x)}
    (l : list A) :
  (forall x, x ∈ l -> P x) -> filter P l = l.
Proof.
  induction l as [|x l IH]; intros Hall; [reflexivity|].
  rewrite filter_cons, decide_True by (apply Hall; left).
  f_equal. apply IH. intros y Hy. apply Hall. right. exact Hy.
Qed.

(** X19: the detailed view (lines 130, 157-162): the columns the widget
    offers and starts with are mismatched columns, at most three, and
    when there is a record at least one; for a selection among the
    mismatched columns no column asked for is missing from the table, so
    the filter of line 161 drops nothing. *)
Theorem detailed_view_columns (cols_to_show : list string) :
  valid_config cfg ->
  (forall k, k ∈ sort_cols -> k ∈ columns df_old) ->
  exists c,
    compare_sorted df_old df_new sort_cols = Ok c /\
    (forall col, col ∈ default_cols_to_show (report c) ->
                 col ∈ mismatched_columns (report c)) /\
    (length (default_cols_to_show (report c)) <= 3)%nat /\
    (mismatch_report (report c) <> [] ->
     default_cols_to_show (report c) <> [] /\
     ((forall col, col ∈ cols_to_show -> col ∈ mismatched_columns (report c)) ->
      valid_cols (mismatch_report (report c)) sort_cols cols_to_show
      = display_cols sort_cols cols_to_show)).
Proof.
  intros Hcfg Hkeys.
  destruct (mismatched_columns_spec Hcfg Hkeys) as (c & E & _ & C2 & _).
  destruct (compare_sorted_full Hcfg Hkeys) as (c' & E' & _ & R & _).
  rewrite E in E'. injection E' as <-.
  exists c. split; [exact E|]. unfold default_cols_to_show.
  split; [|split; [rewrite length_take; lia|]].
  { intros col Hcol. apply elem_of_take in Hcol as (i & Hi & _).
    eapply sorted_columns_elem, list_elem_of_lookup_2, Hi. }
  intros Hne.
  destruct (mismatch_report (report c)) as [|rd rest] eqn:Erep; [congruence|].
  assert (Hrd : rd ∈ omap expected_record
                  (seq 0 (Nat.min (len df_old) (len df_new))))
    by (rewrite <- R; left).
  split.
  - destruct (record_has_old _ rd Hrd) as [col Hcol].
    assert (Hin : col ∈ sorted_columns (mismatched_columns (report c))).
    { apply sorted_columns_elem, C2. exists rd. split; [left | exact Hcol]. }
    destruct (sorted_columns _); [inversion Hin | discriminate].
  - intros Hsel. unfold valid_cols. apply filter_all. intros key Hkey.
    apply frame_keys_elem. unfold display_cols in Hkey.
    apply elem_of_cons in Hkey as [->|Hkey].
    { exists rd. split; [left | apply (record_has_row _ rd Hrd)]. }
    apply elem_of_app in Hkey as [Hkey|Hkey].
    { apply list_elem_of_In, in_map_iff in Hkey as (k & <- & Hk).
      exists rd. split; [left|].
      apply (record_has_key _ rd k Hrd), list_elem_of_In, Hk. }
    apply list_elem_of_In, in_flat_map in Hkey as (col & Hcol & Hkey).
    apply list_elem_of_In, Hsel, C2 in Hcol as (rd' & Hrd' & Hold).
    exists rd'. split; [exact Hrd'|].
    rewrite R in Hrd'.
    destruct (record_old_cell _ rd' col Hrd' Hold)
      as (idx & ro & rn & _ & _ & _ & _ & Hov & Hnv & _).
    destruct Hkey as [<-|[<-|[]]]; eauto.
Qed.

End Sorted.

(** ** The order of the compared columns *)

Lemma omap_pointwise {A B : Type} (f g : A -> option B) (l : list A) :
  (forall x, f x = g x) -> omap f l = omap g l.
Proof.
  intros H. induction l as [|x l IH]; [reflexivity|].
  csimpl. rewrite H, IH. reflexivity.
Qed.

Lemma existsb_perm {A : Type} (f : A -> bool) (l l' : list A) :
  l ≡ₚ l' -> existsb f l = existsb f l'.
Proof.
  induction 1 as [|x l l' _ IH|x y l|l1 l2 l3 _ IH1 _ IH2]; simpl.
  - reflexivity.
  - rewrite IH. reflexivity.
  - destruct (f x), (f y); reflexivity.
  - congruence.
Qed.

Section ColumnOrder.

Variable float_repr : pyfloat -> string.
Variable timestamp_str : Z -> string.
Variable cfg : Config.

Local Abbreviation differs := (differs float_repr timestamp_str cfg).
Local Abbreviation diff_cells := (diff_cells float_repr timestamp_str cfg).
Local Abbreviation expected_record :=
  (expected_record float_repr timestamp_str cfg).
Local Abbreviation compare_rows := (compare_rows float_repr timestamp_str cfg).

Lemma diff_cells_perm (r_old r_new : row) (cols cols' : list string) :
  cols ≡ₚ cols' ->
  forall rd, diff_cells r_old r_new cols rd = diff_cells r_old r_new cols' rd.
Proof.
  unfold Validator.diff_cells.
  induction 1 as [|x l l' _ IH|x y l|l1 l2 l3 _ IH1 _ IH2]; intros rd.
  - reflexivity.
  - simpl. apply IH.
  - simpl. f_equal.
    destruct (differs r_old r_new y) eqn:Hy, (differs r_old r_new x) eqn:Hx;
      try reflexivity.
    destruct (decide (x = y)) as [->|Hne]; [reflexivity|].
    assert (Hoo : String.append "Old_" x <> String.append "Old_" y)
      by (intros E; apply old_prefix_inj in E; congruence).
    assert (Hnn : String.append "New_" x <> String.append "New_" y)
      by (intros E; apply new_prefix_inj in E; congruence).
    assert (Hon : String.append "Old_" x <> String.append "New_" y)
      by prefix_clash.
    assert (Hno : String.append "New_" x <> String.append "Old_" y)
      by prefix_clash.
    rewrite (insert_insert_ne _ (String.append "Old_" x) (String.append "New_" y))
      by exact Hon.
    rewrite (insert_insert_ne _ (String.append "Old_" x) (String.append "Old_" y))
      by exact Hoo.
    rewrite (insert_insert_ne _ (String.append "New_" x) (String.append "New_" y))
      by exact Hnn.
    rewrite (insert_insert_ne _ (String.append "New_" x) (String.append "Old_" y))
      by exact Hno.
    reflexivity.
  - rewrite IH1. apply IH2.
Qed.

Lemma expected_record_perm (df_old df_new : DataFrame)
    (sort_cols cols cols' : list string) (idx : nat) :
  cols ≡ₚ cols' ->
  expected_record df_old df_new sort_cols cols' idx
  = expected_record df_old df_new sort_cols cols idx.
Proof.
  intros Hperm. unfold Validator.expected_record.
  destruct (rows df_old !! idx) as [ro|]; [|reflexivity].
  destruct (rows df_new !! idx) as [rn|]; [|reflexivity].
  rewrite (existsb_perm _ _ _ Hperm), (diff_cells_perm ro rn _ _ Hperm).
  reflexivity.
Qed.

(** X13: the report does not depend on the order in which the compared
    columns are visited (the order of [list(set & set)] is not fixed):
    for two orders of the same columns the loop returns the same records
    and the same set of mismatched columns. *)
Theorem compare_rows_column_order (df_old df_new : DataFrame)
    (sort_cols cols cols' : list string) :
  valid_config cfg ->
  (forall k, k ∈ sort_cols -> k ∈ columns df_old) ->
  (forall c, c ∈ cols -> c ∈ columns df_old /\ c ∈ columns df_new) ->
  cols ≡ₚ cols' ->
  exists rep,
    compare_rows df_old df_new sort_cols cols = Ok rep /\
    compare_rows df_old df_new sort_cols cols' = Ok rep.
Proof.
  intros Hcfg Hkeys Hcols Hperm.
  assert (Hcols' : forall c, c ∈ cols' -> c ∈ columns df_old /\ c ∈ columns df_new).
  { intros c Hc. apply Hcols. rewrite Hperm. exact Hc. }
  destruct (compare_rows_run float_repr timestamp_str cfg Hcfg df_old df_new
              sort_cols cols Hkeys Hcols) as (rep & E & R).
  destruct (compare_rows_run float_repr timestamp_str cfg Hcfg df_old df_new
              sort_cols cols' Hkeys Hcols') as (rep' & E' & R').
  exists rep. split; [exact E|]. rewrite E'. f_equal.
  assert (Hin : Forall (fun idx => (idx < len df_old)%nat /\ (idx < len df_new)%nat)
                  (seq 0 (Nat.min (len df_old) (len df_new)))).
  { apply Forall_forall. intros idx Hidx. apply elem_of_seq in Hidx. lia. }
  unfold Validator.compare_rows in E, E'.
  pose proof (compare_positions_columns float_repr timestamp_str cfg Hcfg
                df_old df_new sort_cols cols Hkeys Hcols _ _ rep Hin E) as C.
  pose proof (compare_positions_columns float_repr timestamp_str cfg Hcfg
                df_old df_new sort_cols cols' Hkeys Hcols' _ _ rep' Hin E') as C'.
  destruct rep as [l s], rep' as [l' s']. cbn [mismatch_report mismatched_columns] in *.
  f_equal.
  - rewrite R, R'. apply omap_pointwise. intros idx.
    apply expected_record_perm, Hperm.
  - apply set_eq. intros col. rewrite C, C'.
    split; (intros [H|(idx & ro & rn & Hi & Ho & Hn & Hc & Hd)];
            [left; exact H | right; exists idx, ro, rn]);
      repeat split; try assumption.
    + rewrite Hperm. exact Hc.
    + rewrite <- Hperm. exact Hc.
Qed.

End ColumnOrder.

(** X7: the column check (lines 63-74): nothing is shown exactly when the
    two files have the same column labels, in whatever order; otherwise
    the warning comes first and is followed by at least one of the two
    lists, and a list is never empty: it names the columns of one file
    that the other lacks, none of which is compared. *)
Theorem column_check_spec (df_old df_new : DataFrame) :
  (column_check df_old df_new = []
   <-> forall c, c ∈ columns df_old <-> c ∈ columns df_new) /\
  (column_check df_old df_new <> [] ->
   exists rest,
     column_check df_old df_new = ColumnMismatchDetected :: rest /\
     rest <> [] /\ ColumnMismatchDetected ∉ rest) /\
  (forall cols,
     ColumnsOnlyInFile1 cols ∈ column_check df_old df_new ->
     cols <> ∅ /\
     forall c, c ∈ cols <-> c ∈ columns df_old /\ c ∉ columns df_new) /\
  (forall cols,
     ColumnsOnlyInFile2 cols ∈ column_check df_old df_new ->
     cols <> ∅ /\
     forall c, c ∈ cols <-> c ∈ columns df_new /\ c ∉ columns df_old) /\
  (forall cols c,
     ColumnsOnlyInFile1 cols ∈ column_check df_old df_new
     \/ ColumnsOnlyInFile2 cols ∈ column_check df_old df_new ->
     c ∈ cols -> c ∉ common_columns df_old df_new).
Proof.
  assert (Hset : forall df c, c ∈ column_set df <-> c ∈ columns df).
  { intros df c. unfold column_set. apply elem_of_list_to_set. }
  assert (H1 : forall cols,
            ColumnsOnlyInFile1 cols ∈ column_check df_old df_new ->
            cols <> ∅ /\
            forall c, c ∈ cols <-> c ∈ columns df_old /\ c ∉ columns df_new).
  { intros cols. unfold column_check.
    case_bool_decide as Hne; [|intros H; inversion H].
    intros H. apply elem_of_cons in H as [H|H]; [discriminate|].
    apply elem_of_app in H as [H|H].
    - case_bool_decide as Ho; [|inversion H].
      apply list_elem_of_singleton in H. injection H as ->.
      split; [exact Ho|]. intros c.
      rewrite elem_of_difference, !Hset. reflexivity.
    - case_bool_decide; [|inversion H].
      apply list_elem_of_singleton in H. discriminate. }
  assert (H2 : forall cols,
            ColumnsOnlyInFile2 cols ∈ column_check df_old df_new ->
            cols <> ∅ /\
            forall c, c ∈ cols <-> c ∈ columns df_new /\ c ∉ columns df_old).
  { intros cols. unfold column_check.
    case_bool_decide as Hne; [|intros H; inversion H].
    intros H. apply elem_of_cons in H as [H|H]; [discriminate|].
    apply elem_of_app in H as [H|H].
    - case_bool_decide; [|inversion H].
      apply list_elem_of_singleton in H. discriminate.
    - case_bool_decide as Hn; [|inversion H].
      apply list_elem_of_singleton in H. injection H as ->.
      split; [exact Hn|]. intros c.
      rewrite elem_of_difference, !Hset. reflexivity. }
  split; [|split; [|split; [exact H1|split; [exact H2|]]]].
  - unfold column_check. case_bool_decide as Hne.
    + split; [discriminate|]. intros Hall. exfalso. apply Hne.
      apply set_eq. intros c. rewrite !Hset. apply Hall.
    + split; [|reflexivity]. intros _ c. rewrite <- !Hset.
      rewrite Hne. reflexivity.
  - unfold column_check. case_bool_decide as Hne; [|congruence].
    intros _. eexists. split; [reflexivity|]. split.
    + assert (Hsome : column_set df_old ∖ column_set df_new ≠ ∅
                      \/ column_set df_new ∖ column_set df_old ≠ ∅).
      { destruct (decide (column_set df_old ∖ column_set df_new = ∅)) as [Eo|No];
          [|left; exact No].
        destruct (decide (column_set df_new ∖ column_set df_old = ∅)) as [En|Nn];
          [|right; exact Nn].
        exfalso. apply Hne, set_eq. intros c. split; intros Hc.
        - destruct (decide (c ∈ column_set df_new)) as [Hin|Hout]; [exact Hin|].
          exfalso. apply (not_elem_of_empty (C := gset string) c).
          rewrite <- Eo. apply elem_of_difference. auto.
        - destruct (decide (c ∈ column_set df_old)) as [Hin|Hout]; [exact Hin|].
          exfalso. apply (not_elem_of_empty (C := gset string) c).
          rewrite <- En. apply elem_of_difference. auto. }
      destruct Hsome as [Ho|Hn].
      * rewrite (bool_decide_eq_true_2 _ Ho). discriminate.
      * rewrite (bool_decide_eq_true_2 _ Hn).
        case_bool_decide; discriminate.
    + intros H. apply elem_of_app in H as [H|H]; case_bool_decide;
        try (inversion H; fail);
        apply list_elem_of_singleton in H; discriminate.
  - intros cols c [H|H] Hc Hcommon;
      apply common_columns_exist in Hcommon as [Ho Hn].
    + apply H1 in H as [_ H]. apply H in Hc as [_ Hc]. contradiction.
    + apply H2 in H as [_ H]. apply H in Hc as [_ Hc]. contradiction.
Qed.

(** ** The facts at sample frames: [example_long] against
    [example_short], which differ in column "v" of the second row *)

Lemma report_in_row_order_witness :
  exists c idxs,
    compare_sorted (fun _ => "") (fun _ => "") default_config
      example_long example_short ["id"] = Ok c /\
    StronglySorted lt idxs /\
    Forall2 (record_at (fun _ => "") (fun _ => "") default_config
               example_long example_short ["id"]
               (common_columns example_long example_short))
      idxs (mismatch_report (report c)).
Proof.
  destruct (report_in_row_order (fun _ => "") (fun _ => "") default_config
              example_long example_short ["id"])
    as (c & idxs & E & S & F & _).
  - exact valid_default_config.
  - apply example_keys_exist. left.
  - exists c, idxs. split; [exact E|]. split; [exact S | exact F].
Defined.

Lemma mismatched_columns_spec_witness :
  exists c,
    compare_sorted (fun _ => "") (fun _ => "") default_config
      example_long example_short ["id"] = Ok c /\
    (forall col,
       col ∈ mismatched_columns (report c)
       <-> exists rd, rd ∈ mismatch_report (report c) /\ has_old col rd).
Proof.
  destruct (mismatched_columns_spec (fun _ => "") (fun _ => "") default_config
              example_long example_short ["id"])
    as (c & E & _ & H & _).
  - exact valid_default_config.
  - apply example_keys_exist. left.
  - exists c. split; [exact E | exact H].
Defined.

Lemma verdict_spec_witness :
  exists c,
    compare_sorted (fun _ => "") (fun _ => "") default_config
      example_long example_short ["id"] = Ok c /\
    verdict_of (report c) = MismatchesFound ["v"] /\
    Sorted String.le ["v"].
Proof.
  destruct (verdict_spec (fun _ => "") (fun _ => "") default_config
              example_long example_short ["id"])
    as (c & E & _ & H).
  - exact valid_default_config.
  - apply example_keys_exist. left.
  - assert (Hv : verdict_of (report c) = MismatchesFound ["v"]).
    { pose proof E as E'. vm_compute in E'. injection E' as <-.
      vm_compute. reflexivity. }
    exists c. split; [exact E|]. split; [exact Hv|].
    exact (proj1 (proj2 (H ["v"] Hv))).
Defined.

Lemma summary_counts_witness :
  exists c t,
    compare_sorted (fun _ => "") (fun _ => "") default_config
      example_long example_short ["id"] = Ok c /\
    summary_rows (report c) (len example_long) (len example_short) = Some t /\
    forall col count pct,
      (col, count, pct) ∈ t -> (1 <= count <= 2)%nat.
Proof.
  destruct (summary_counts (fun _ => "") (fun _ => "") default_config
              example_long example_short ["id"])
    as (c & t & E & Et & _ & _ & H).
  - exact valid_default_config.
  - apply example_keys_exist. left.
  - exists c, t. split; [exact E|]. split; [exact Et|].
    intros col count pct Hin. exact (proj1 (proj2 (H col count pct Hin))).
Defined.

Lemma sample_tables_spec_witness :
  exists c ts,
    compare_sorted (fun _ => "") (fun _ => "") default_config
      example_long example_short ["id"] = Ok c /\
    sample_tables (report c) = Ok ts /\
    map fst ts = sorted_columns (mismatched_columns (report c)).
Proof.
  destruct (sample_tables_spec (fun _ => "") (fun _ => "") default_config
              example_long example_short ["id"])
    as (c & ts & E & Et & Ef & _).
  - exact valid_default_config.
  - apply example_keys_exist. left.
  - exists c, ts. split; [exact E|]. split; [exact Et | exact Ef].
Defined.

Lemma detailed_view_columns_witness :
  exists c,
    compare_sorted (fun _ => "") (fun _ => "") default_config
      example_long example_short ["id"] = Ok c /\
    valid_cols (mismatch_report (report c)) ["id"] ["v"]
    = ["Row"; "Key_id"; "Old_v"; "New_v"].
Proof.
  destruct (detailed_view_columns (fun _ => "") (fun _ => "") default_config
              example_long example_short ["id"] ["v"])
    as (c & E & _ & _ & H).
  - exact valid_default_config.
  - apply example_keys_exist. left.
  - exists c. split; [exact E|].
    pose proof E as E'. vm_compute in E'. injection E' as Ec.
    destruct H as [_ H]; [rewrite <- Ec; discriminate|].
    rewrite H; [reflexivity|].
    intros col Hcol. apply list_elem_of_singleton in Hcol. subst col.
    rewrite <- Ec. apply (bool_decide_unpack _). vm_compute. exact I.
Defined.

(** The columns "id", "v" in the two orders. *)
Lemma compare_rows_column_order_witness :
  exists rep,
    compare_rows (fun _ => "") (fun _ => "") default_config
      example_long example_short ["id"] ["id"; "v"] = Ok rep /\
    compare_rows (fun _ => "") (fun _ => "") default_config
      example_long example_short ["id"] ["v"; "id"] = Ok rep.
Proof.
  apply compare_rows_column_order.
  - exact valid_default_config.
  - apply example_keys_exist. left.
  - intros c Hc. change (columns example_long) with ["id"; "v"].
    change (columns example_short) with ["id"; "v"]. split; exact Hc.
  - apply perm_swap.
Defined.

(** The two lists of the column check, for files with columns "id", "v"
    and "id", "w". *)
Lemma column_check_spec_witness :
  column_check (frame_of ["id"; "v"] []) (frame_of ["id"; "w"] [])
  = [ColumnMismatchDetected; ColumnsOnlyInFile1 {[ "v" ]};
     ColumnsOnlyInFile2 {[ "w" ]}] /\
  "v" ∉ common_columns (frame_of ["id"; "v"] []) (frame_of ["id"; "w"] []).
Proof.
  assert (E : column_check (frame_of ["id"; "v"] []) (frame_of ["id"; "w"] [])
              = [ColumnMismatchDetected; ColumnsOnlyInFile1 {[ "v" ]};
                 ColumnsOnlyInFile2 {[ "w" ]}])
    by (vm_compute; reflexivity).
  split; [exact E|].
  apply (proj2 (proj2 (proj2 (proj2
           (column_check_spec (frame_of ["id"; "v"] [])
              (frame_of ["id"; "w"] []))))) {[ "v" ]} "v").
  - left. rewrite E. right. left.
  - apply elem_of_singleton. reflexivity.
Defined.

End ReportFacts.

(** * The run: how it ends, and what the order of the input rows changes *)

Module RunMore.

Import PyFloat Validator Closed Display.
Import ComparatorFacts SortFacts LoopFacts RunFacts.

Lemma forallb_false {A : Type} (f : A -> bool) (l : list A) :
  forallb f l = false <-> exists x, x ∈ l /\ f x = false.
Proof.
  induction l as [|x l IH]; simpl.
  - split; [discriminate|]. intros (x & Hx & _). inversion Hx.
  - rewrite andb_false_iff, IH. split.
    + intros [H|(y & Hy & H)].
      * exists x. split; [left | exact H].
      * exists y. split; [right; exact Hy | exact H].
    + intros (y & Hy & H). apply elem_of_cons in Hy as [->|Hy];
        [left; exact H | right; eauto].
Qed.

Lemma frame_eq (a b : DataFrame) :
  columns a = columns b -> rows a = rows b -> a = b.
Proof. destruct a, b. simpl. intros -> ->. reflexivity. Qed.

Section Run.

Variable float_repr : pyfloat -> string.
Variable timestamp_str : Z -> string.
Variable cfg : Config.
Variable argsort : list value -> list nat.

Local Abbreviation sort_values := (sort_values argsort).
Local Abbreviation compare_sorted :=
  (compare_sorted float_repr timestamp_str cfg).
Local Abbreviation run := (run float_repr timestamp_str cfg argsort).

(** Why [sort_values] raises. *)
Lemma sort_values_error (by_ : list string) (df : DataFrame) (e : exn) :
  sort_values by_ df = Raise e ->
  (e = KeyError /\ exists k, k ∈ by_ /\ k ∉ columns df)
  \/ (e = TypeError /\ (forall k, k ∈ by_ -> k ∈ columns df)
      /\ exists k, k ∈ by_ /\ can_sort by_ df k = false).
Proof.
  unfold Validator.sort_values.
  destruct (forallb (fun k => bool_decide (k ∈ columns df)) by_) eqn:E1.
  - destruct (forallb (can_sort by_ df) by_) eqn:E2.
    + destruct by_ as [|k [|k' ks]]; discriminate.
    + simpl. intros [= <-]. right. split; [reflexivity|]. split.
      * intros k Hk. rewrite forallb_forall in E1.
        eapply bool_decide_eq_true_1, E1, list_elem_of_In, Hk.
      * apply forallb_false, E2.
  - simpl. intros [= <-]. left. split; [reflexivity|].
    apply forallb_false in E1 as (k & Hk & H). exists k. split; [exact Hk|].
    apply bool_decide_eq_false_1 in H. exact H.
Qed.

Lemma run_cons (df_old df_new : DataFrame) (k : string) (ks : list string) :
  run df_old df_new (k :: ks)
  = let! df_old_sorted := sort_values (k :: ks) df_old in
    let! df_new_sorted := sort_values (k :: ks) df_new in
    let! c := compare_sorted df_old_sorted df_new_sorted (k :: ks) in
    Ok (Compared c).
Proof. reflexivity. Qed.

(** The three ways a run ends. *)
Lemma run_cases (df_old df_new : DataFrame) (sort_cols : list string) :
  valid_config cfg ->
  (run df_old df_new sort_cols = Ok KeyColumnNeeded <-> sort_cols = []) /\
  ((exists c, run df_old df_new sort_cols = Ok (Compared c))
   <-> sort_cols <> [] /\
       forall k, k ∈ sort_cols ->
         (k ∈ columns df_old /\ can_sort sort_cols df_old k = true) /\
         (k ∈ columns df_new /\ can_sort sort_cols df_new k = true)) /\
  (forall e,
     run df_old df_new sort_cols = Raise e ->
     (e = KeyError
      /\ exists k, k ∈ sort_cols /\ (k ∉ columns df_old \/ k ∉ columns df_new))
     \/ (e = TypeError
         /\ exists k, k ∈ sort_cols
                      /\ (can_sort sort_cols df_old k = false
                          \/ can_sort sort_cols df_new k = false))).
Proof.
  intros Hcfg. destruct sort_cols as [|k0 ks].
  { split; [split; reflexivity|]. split; [|discriminate].
    split; [intros [c Hc]; discriminate Hc | intros [H _]; congruence]. }
  rewrite run_cons. set (by_ := k0 :: ks).
  assert (Herr : forall df e,
            sort_values by_ df = Raise e ->
            (e = KeyError /\ exists k, k ∈ by_ /\ k ∉ columns df)
            \/ (e = TypeError /\ exists k, k ∈ by_ /\ can_sort by_ df k = false)).
  { intros df e H. apply sort_values_error in H as [H|(H1 & _ & H2)]; auto. }
  assert (Hnot : forall df e,
            sort_values by_ df = Raise e ->
            ~ forall k, k ∈ by_ -> k ∈ columns df /\ can_sort by_ df k = true).
  { intros df e H Hall.
    destruct (sort_values_returns argsort by_ df) as (df' & E & _);
      [intros k Hk; apply Hall, Hk ..|].
    rewrite E in H. discriminate. }
  destruct (sort_values by_ df_old) as [so|e1] eqn:Eo; cbn [Py.bind].
  2:{ split; [split; discriminate|]. split.
      - split; [intros [c Hc]; discriminate Hc|]. intros [_ Hall]. exfalso.
        apply (Hnot _ _ Eo). intros k Hk. apply Hall, Hk.
      - intros e [= <-].
        destruct (Herr _ _ Eo) as [[-> (k & Hk & H)]|[-> (k & Hk & H)]];
          [left | right]; split; try reflexivity; exists k; auto. }
  destruct (sort_values by_ df_new) as [sn|e2] eqn:En; cbn [Py.bind].
  2:{ split; [split; discriminate|]. split.
      - split; [intros [c Hc]; discriminate Hc|]. intros [_ Hall]. exfalso.
        apply (Hnot _ _ En). intros k Hk. apply Hall, Hk.
      - intros e [= <-].
        destruct (Herr _ _ En) as [[-> (k & Hk & H)]|[-> (k & Hk & H)]];
          [left | right]; split; try reflexivity; exists k; auto. }
  destruct (sort_values_inv argsort by_ df_old so Eo) as (Hko & Co & _).
  destruct (sort_values_inv argsort by_ df_new sn En) as (Hkn & _).
  destruct (compare_sorted_run float_repr timestamp_str cfg so sn by_ Hcfg)
    as (c & -> & _).
  { intros k Hk. rewrite Co. apply Hko, Hk. }
  cbn [Py.bind]. split; [split; discriminate|]. split; [|discriminate].
  split; [|eauto]. intros _. split; [discriminate|].
  intros k Hk. split; [apply Hko, Hk | apply Hkn, Hk].
Qed.

(** X9: how a run ends, at the settings of the sidebar: with the notice that
    asks for a key exactly when no key is selected; with a comparison
    exactly when every selected key is a column of both files and can be
    sorted in each ([can_sort]: on a single key the present values are of
    one kind; on several keys the present values other than text are of
    one kind); and otherwise with the [KeyError] of a key that one file
    lacks or the [TypeError] of a key column that cannot be sorted, and
    with no other exception. *)
Theorem run_outcomes (df_old df_new : DataFrame) (sort_cols : list string) :
  valid_config cfg ->
  (run df_old df_new sort_cols = Ok KeyColumnNeeded <-> sort_cols = []) /\
  ((exists c, run df_old df_new sort_cols = Ok (Compared c))
   <-> sort_cols <> [] /\
       forall k, k ∈ sort_cols ->
         (k ∈ columns df_old /\ can_sort sort_cols df_old k = true) /\
         (k ∈ columns df_new /\ can_sort sort_cols df_new k = true)) /\
  (forall e,
     run df_old df_new sort_cols = Raise e ->
     (e = KeyError
      /\ exists k, k ∈ sort_cols /\ (k ∉ columns df_old \/ k ∉ columns df_new))
     \/ (e = TypeError
         /\ exists k, k ∈ sort_cols
                      /\ (can_sort sort_cols df_old k = false
                          \/ can_sort sort_cols df_new k = false))).
Proof. apply run_cases. Qed.

(** X8: the keys the widget starts with (line 82): the guard on the empty
    file keeps [columns[0]] from failing; the selection is at most the
    first column of the first file, which is one of the options; it is
    empty exactly when the first file has no row or no column, and then
    the run asks for a key instead of comparing; and with it no [KeyError]
    comes from the first file. *)
Theorem default_keys_spec (df_old df_new : DataFrame) :
  valid_config cfg ->
  exists keys,
    default_sort_cols df_old = Some keys /\
    (forall k, k ∈ keys -> columns df_old !! 0%nat = Some k) /\
    (keys = [] <-> rows df_old = [] \/ columns df_old = []) /\
    (run df_old df_new keys = Ok KeyColumnNeeded
     <-> rows df_old = [] \/ columns df_old = []) /\
    (run df_old df_new keys = Raise KeyError ->
     exists k, k ∈ keys /\ k ∉ columns df_new).
Proof.
  intros Hcfg. unfold default_sort_cols, empty.
  destruct (rows df_old) as [|r rs] eqn:Er.
  { exists []. split; [reflexivity|]. split; [intros k Hk; inversion Hk|].
    split; [split; auto|]. split; [split; auto | discriminate]. }
  destruct (columns df_old) as [|c cs] eqn:Ec.
  { exists []. split; [reflexivity|]. split; [intros k Hk; inversion Hk|].
    split; [split; auto|]. split; [split; auto | discriminate]. }
  exists [c]. split; [reflexivity|]. split.
  { intros k Hk. apply list_elem_of_singleton in Hk. subst k. reflexivity. }
  split; [split; [discriminate | intros [H|H]; discriminate H]|].
  destruct (run_cases df_old df_new [c] Hcfg) as (H1 & _ & H3).
  split.
  - rewrite H1. split; [discriminate | intros [H|H]; discriminate H].
  - intros H. destruct (H3 _ H) as [(_ & k & Hk & [Hno|Hno])|(He & _)];
      [| eauto | discriminate He].
    exfalso. apply Hno. apply list_elem_of_singleton in Hk. subst k.
    rewrite Ec. left.
Qed.

(** X10: the row-count warning speaks of the two files as they were read:
    for keys the two files can be sorted on, the run ends with a
    comparison whose warning is present exactly when the files differ in
    their number of rows and gives these two numbers, and the report has
    at most as many records as the shorter file has rows. *)
Theorem row_count_warning_from_inputs (df_old df_new : DataFrame)
    (sort_cols : list string) :
  valid_config cfg -> argsort_contract argsort ->
  sort_cols <> [] ->
  (forall k, k ∈ sort_cols -> k ∈ columns df_old /\ sortable df_old k = true) ->
  (forall k, k ∈ sort_cols -> k ∈ columns df_new /\ sortable df_new k = true) ->
  exists c,
    run df_old df_new sort_cols = Ok (Compared c) /\
    warnings c
    = (if (len df_old =? len df_new)%nat then []
       else [RowCountMismatch (len df_old) (len df_new)]) /\
    (length (mismatch_report (report c))
     <= Nat.min (len df_old) (len df_new))%nat.
Proof.
  intros Hcfg Hargsort Hne Hold Hnew.
  destruct (sort_values_facts float_repr timestamp_str cfg argsort sort_cols
              df_old Hargsort Hne)
    as (so & Eo & Co & Po & _ & _ & _ & _ & Hrun);
    [intros k Hk; apply Hold, Hk
    |intros k Hk; apply sortable_can_sort, Hold, Hk|].
  destruct (sort_values_facts float_repr timestamp_str cfg argsort sort_cols
              df_new Hargsort Hne)
    as (sn & En & _ & Pn & _);
    [intros k Hk; apply Hnew, Hk
    |intros k Hk; apply sortable_can_sort, Hnew, Hk|].
  destruct (compare_sorted_run float_repr timestamp_str cfg so sn sort_cols Hcfg)
    as (c & Ec & W & R).
  { intros k Hk. rewrite Co. apply Hold, Hk. }
  assert (Lo : len so = len df_old) by (apply Permutation_length, Po).
  assert (Ln : len sn = len df_new) by (apply Permutation_length, Pn).
  exists c. rewrite Hrun, En. cbn [Py.bind]. rewrite Ec. cbn [Py.bind].
  split; [reflexivity|]. split.
  - rewrite W, Lo, Ln. destruct (len df_old =? len df_new)%nat; reflexivity.
  - rewrite R. etransitivity; [apply omap_length_le|].
    rewrite length_seq, Lo, Ln. reflexivity.
Qed.

(** Sorting forgets the order the rows came in, when the keys tell the
    rows apart. *)
Lemma sort_values_perm (by_ : list string) (df df' : DataFrame) :
  argsort_contract argsort -> by_ <> [] ->
  columns df' = columns df -> rows df' ≡ₚ rows df ->
  (forall r1 r2 : row, r1 ∈ rows df -> r2 ∈ rows df ->
     rows_le by_ r1 r2 -> rows_le by_ r2 r1 -> r1 = r2) ->
  sort_values by_ df' = sort_values by_ df.
Proof.
  intros Hargsort Hne Ecols Hperm Hdistinct.
  assert (Hto : (forall k, k ∈ by_ -> k ∈ columns df /\ can_sort by_ df k = true) ->
                forall k, k ∈ by_ -> k ∈ columns df' /\ can_sort by_ df' k = true).
  { intros H k Hk. destruct (H k Hk) as [H1 H2]. rewrite Ecols.
    split; [exact H1|]. eapply can_sort_perm; [symmetry; exact Hperm | exact H2]. }
  assert (Hfrom : (forall k, k ∈ by_ -> k ∈ columns df' /\ can_sort by_ df' k = true) ->
                  forall k, k ∈ by_ -> k ∈ columns df /\ can_sort by_ df k = true).
  { intros H k Hk. destruct (H k Hk) as [H1 H2]. rewrite <- Ecols.
    split; [exact H1|]. eapply can_sort_perm; [exact Hperm | exact H2]. }
  destruct (sort_values by_ df) as [so|e] eqn:E.
  - destruct (sort_values_inv argsort by_ df so E) as (Hk & _).
    destruct (sort_values_facts float_repr timestamp_str cfg argsort by_ df
                Hargsort Hne) as (so2 & E2 & Co & Po & So & _);
      [intros k Hk'; apply Hk, Hk' ..|].
    rewrite E in E2. injection E2 as <-.
    destruct (sort_values_facts float_repr timestamp_str cfg argsort by_ df'
                Hargsort Hne) as (so' & E' & Co' & Po' & So' & _);
      [intros k Hk'; apply (Hto Hk), Hk' ..|].
    rewrite E'. f_equal. apply frame_eq; [congruence|].
    apply (StronglySorted_unique_strong (rows_le by_));
      [| exact So' | exact So | rewrite Po', Po; exact Hperm].
    intros r1 r2 H1 H2. rewrite Po', Hperm in H1. rewrite Po in H2.
    apply Hdistinct; assumption.
  - destruct (sort_values by_ df') as [so'|e'] eqn:E'.
    + exfalso. destruct (sort_values_inv argsort by_ df' so' E') as (Hk & _).
      destruct (sort_values_returns argsort by_ df) as (so & Eso & _);
        [intros k Hk'; apply (Hfrom Hk), Hk' ..|].
      rewrite Eso in E. discriminate.
    + f_equal.
      apply sort_values_error in E as [[-> (k & Hk & H)]|(-> & Hall & k & Hk & H)].
      * rewrite <- Ecols in H.
        rewrite (sort_values_key_error argsort by_ df' k Hk H) in E'.
        congruence.
      * apply sort_values_error in E'
          as [[-> (k' & Hk' & H')]|(-> & _)]; [|reflexivity].
        exfalso. apply H'. rewrite Ecols. apply Hall, Hk'.
Qed.

(** X11: the order of the rows in the two files does not matter when the keys
    tell the rows of each file apart: for key columns of both files whose
    present values are of one kind, the run on the two files and the run
    on the same rows in any other order end with one and the same
    comparison, warning and report. *)
Theorem run_order_independent (df_old df_old' df_new df_new' : DataFrame)
    (sort_cols : list string) :
  valid_config cfg -> argsort_contract argsort ->
  sort_cols <> [] ->
  (forall k, k ∈ sort_cols -> k ∈ columns df_old /\ sortable df_old k = true) ->
  (forall k, k ∈ sort_cols -> k ∈ columns df_new /\ sortable df_new k = true) ->
  columns df_old' = columns df_old -> rows df_old' ≡ₚ rows df_old ->
  columns df_new' = columns df_new -> rows df_new' ≡ₚ rows df_new ->
  (forall r1 r2 : row, r1 ∈ rows df_old -> r2 ∈ rows df_old ->
     rows_le sort_cols r1 r2 -> rows_le sort_cols r2 r1 -> r1 = r2) ->
  (forall r1 r2 : row, r1 ∈ rows df_new -> r2 ∈ rows df_new ->
     rows_le sort_cols r1 r2 -> rows_le sort_cols r2 r1 -> r1 = r2) ->
  exists c,
    run df_old df_new sort_cols = Ok (Compared c) /\
    run df_old' df_new' sort_cols = Ok (Compared c).
Proof.
  intros Hcfg Hargsort Hne Hold Hnew Co Po Cn Pn Do Dn.
  destruct (sort_values_facts float_repr timestamp_str cfg argsort sort_cols
              df_old Hargsort Hne)
    as (so & Eo & Cso & _ & _ & _ & _ & _ & Hrun);
    [intros k Hk; apply Hold, Hk
    |intros k Hk; apply sortable_can_sort, Hold, Hk|].
  destruct (sort_values_returns argsort sort_cols df_new) as (sn & En & _);
    [intros k Hk; apply Hnew, Hk
    |intros k Hk; apply sortable_can_sort, Hnew, Hk|].
  destruct (compare_sorted_run float_repr timestamp_str cfg so sn sort_cols Hcfg)
    as (c & Ec & _).
  { intros k Hk. rewrite Cso. apply Hold, Hk. }
  assert (E : run df_old df_new sort_cols = Ok (Compared c)).
  { rewrite Hrun, En. cbn [Py.bind]. rewrite Ec. reflexivity. }
  exists c. split; [exact E|]. rewrite <- E.
  destruct sort_cols as [|k ks]; [reflexivity|].
  rewrite !run_cons.
  rewrite (sort_values_perm (k :: ks) df_old df_old') by (assumption || discriminate).
  rewrite (sort_values_perm (k :: ks) df_new df_new') by (assumption || discriminate).
  reflexivity.
Qed.

End Run.

(** ** The facts at sample frames *)

Lemma example_old_distinct (r1 r2 : row) :
  r1 ∈ rows example_old -> r2 ∈ rows example_old ->
  rows_le ["id"] r1 r2 -> rows_le ["id"] r2 r1 -> r1 = r2.
Proof.
  intros H1 H2.
  change (rows example_old)
    with [row_of [("id", VInt 3); ("v", VStr "c")];
          row_of [("id", VInt 1); ("v", VStr "a")];
          row_of [("id", VInt 2); ("v", VStr "b")]] in H1, H2.
  repeat (apply elem_of_cons in H1 as [->|H1]);
    [| | |inversion H1];
    (repeat (apply elem_of_cons in H2 as [->|H2]); [| | |inversion H2]);
    intros L1 L2; try reflexivity;
    vm_compute in L1, L2; discriminate.
Defined.

Lemma example_short_distinct (r1 r2 : row) :
  r1 ∈ rows example_short -> r2 ∈ rows example_short ->
  rows_le ["id"] r1 r2 -> rows_le ["id"] r2 r1 -> r1 = r2.
Proof.
  intros H1 H2.
  change (rows example_short)
    with [row_of [("id", VInt 1); ("v", VStr "a")];
          row_of [("id", VInt 2); ("v", VStr "x")]] in H1, H2.
  repeat (apply elem_of_cons in H1 as [->|H1]);
    [| |inversion H1];
    (repeat (apply elem_of_cons in H2 as [->|H2]); [| |inversion H2]);
    intros L1 L2; try reflexivity;
    vm_compute in L1, L2; discriminate.
Defined.

Lemma example_keys_sortable (df : DataFrame) :
  "id" ∈ columns df -> sortable df "id" = true ->
  forall k, k ∈ ["id"] -> k ∈ columns df /\ sortable df k = true.
Proof.
  intros H1 H2 k Hk. apply list_elem_of_singleton in Hk. subst k.
  split; [exact H1 | exact H2].
Defined.

(** The default keys of [example_old]: its first column "id". *)
Lemma default_keys_spec_witness :
  default_sort_cols example_old = Some ["id"] /\
  default_sort_cols (frame_of ["id"] []) = Some [].
Proof.
  destruct (default_keys_spec (fun _ => "") (fun _ => "") default_config
              insertion_argsort example_old example_old valid_default_config)
    as (keys & E & _).
  destruct (default_keys_spec (fun _ => "") (fun _ => "") default_config
              insertion_argsort (frame_of ["id"] []) example_old
              valid_default_config)
    as (keys' & E' & _ & H & _).
  split.
  - rewrite E. vm_compute in E. exact (eq_sym E).
  - rewrite E'. f_equal. apply H. left. reflexivity.
Defined.

(** [example_old] against [example_shuffled], on the key "id"; and
    [mixed_keys], whose column "id" mixes text with a number, against
    itself on the two keys "id" and "v". *)
Lemma run_outcomes_witness :
  (exists c,
     run (fun _ => "") (fun _ => "") default_config insertion_argsort
       example_old example_shuffled ["id"] = Ok (Compared c)) /\
  (exists c,
     run (fun _ => "") (fun _ => "") default_config insertion_argsort
       mixed_keys mixed_keys ["id"; "v"] = Ok (Compared c)) /\
  can_sort ["id"] mixed_keys "id" = false.
Proof.
  split; [|split; [|reflexivity]].
  - apply (proj2 (proj1 (proj2
             (run_outcomes (fun _ => "") (fun _ => "") default_config
                insertion_argsort example_old example_shuffled ["id"]
                valid_default_config)))).
    split; [discriminate|]. intros k Hk.
    apply list_elem_of_singleton in Hk. subst k.
    repeat split; (left || reflexivity).
  - apply (proj2 (proj1 (proj2
             (run_outcomes (fun _ => "") (fun _ => "") default_config
                insertion_argsort mixed_keys mixed_keys ["id"; "v"]
                valid_default_config)))).
    split; [discriminate|]. intros k Hk.
    repeat (apply elem_of_cons in Hk as [->|Hk]);
      [repeat split; (left || (right; left) || reflexivity) ..|].
    inversion Hk.
Defined.

(** [example_old] (3 rows) against [example_short] (2 rows). *)
Lemma row_count_warning_from_inputs_witness :
  exists c,
    run (fun _ => "") (fun _ => "") default_config insertion_argsort
      example_old example_short ["id"] = Ok (Compared c) /\
    warnings c = [RowCountMismatch 3 2].
Proof.
  destruct (row_count_warning_from_inputs (fun _ => "") (fun _ => "")
              default_config insertion_argsort example_old example_short ["id"])
    as (c & E & W & _).
  - exact valid_default_config.
  - exact insertion_argsort_contract.
  - discriminate.
  - apply example_keys_sortable; [left | reflexivity].
  - apply example_keys_sortable; [left | reflexivity].
  - exists c. split; [exact E | exact W].
Defined.

(** [example_shuffled] holds the rows of [example_old] in another
    order. *)
Lemma run_order_independent_witness :
  exists c,
    run (fun _ => "") (fun _ => "") default_config insertion_argsort
      example_old example_short ["id"] = Ok (Compared c) /\
    run (fun _ => "") (fun _ => "") default_config insertion_argsort
      example_shuffled example_short ["id"] = Ok (Compared c).
Proof.
  apply run_order_independent.
  - exact valid_default_config.
  - exact insertion_argsort_contract.
  - discriminate.
  - apply example_keys_sortable; [left | reflexivity].
  - apply example_keys_sortable; [left | reflexivity].
  - reflexivity.
  - exact (Permutation_app_comm
             [row_of [("id", VInt 2); ("v", VStr "b")]]
             [row_of [("id", VInt 3); ("v", VStr "c")];
              row_of [("id", VInt 1); ("v", VStr "a")]]).
  - reflexivity.
  - reflexivity.
  - exact example_old_distinct.
  - exact example_short_distinct.
Defined.

End RunMore.

(** * The progress bar *)

Module ProgressFacts.

Import PyFloat PyFloatFacts Validator Display.

(** A ratio of at most one rounds to a binary64 number of at most one. *)
Lemma ratio_at_most_one (a b : Z) :
  0 <= a <= b -> 0 < b -> progress_ok (double_of_ratio false a b) = true.
Proof.
  intros Ha Hb. unfold double_of_ratio.
  destruct (a <=? 0) eqn:Hn; [reflexivity|]. apply Z.leb_gt in Hn.
  set (e := binade a b).
  assert (He : e < 0).
  { destruct (Z.lt_ge_cases e 0) as [H|H]; [exact H|]. exfalso.
    pose proof (binade_lower a b Hn Hb H) as Hl. fold e in Hl.
    assert (H52 : 2 <= 2 ^ 52) by (vm_compute; discriminate).
    assert (He : 1 <= 2 ^ e) by (pose proof (Z.pow_pos_nonneg 2 e); lia).
    assert (2 * b <= 2 ^ 52 * b * 2 ^ e); [|lia].
    rewrite <- Z.mul_assoc, (Z.mul_comm b), Z.mul_assoc.
    apply Z.mul_le_mono_nonneg_r; [lia|].
    replace 2 with (2 * 1) at 1 by reflexivity.
    apply Z.mul_le_mono_nonneg; lia. }
  set (m := round_half_even_div (scale_num a e) (scale_den b e)).
  assert (Hpos : 0 < 2 ^ (- e)) by (apply Z.pow_pos_nonneg; lia).
  assert (Hm : m <= 2 ^ (- e)).
  { apply round_half_even_div_le; [apply scale_den_pos; lia|].
    unfold scale_num, scale_den. rewrite (proj2 (Z.ltb_lt e 0) He).
    rewrite (Z.mul_comm a). apply Z.mul_le_mono_nonneg_l; lia. }
  destruct (m =? 2 ^ 53) eqn:E; [apply Z.eqb_eq in E | apply Z.eqb_neq in E].
  - assert (H53 : 53 <= - e).
    { apply (Z.pow_le_mono_r_iff 2); [lia | lia |]. rewrite <- E. exact Hm. }
    assert (H52 : 2 ^ 52 <= 2 ^ (- (e + 1)))
      by (apply Z.pow_le_mono_r; lia).
    assert (P52 : 0 < 2 ^ 52) by (apply Z.pow_pos_nonneg; lia).
    replace (2 ^ 52 <=? 0) with false by (symmetry; apply Z.leb_gt; exact P52).
    replace (971 <? e + 1) with false by (symmetry; apply Z.ltb_ge; lia).
    cbn [progress_ok]. rewrite Z2Pos.id by exact P52.
    apply andb_true_intro. split; [apply Z.leb_le; lia | apply Z.leb_le, H52].
  - destruct (m <=? 0) eqn:Em; [reflexivity|]. apply Z.leb_gt in Em.
    replace (971 <? e) with false by (symmetry; apply Z.ltb_ge; lia).
    cbn [progress_ok]. rewrite Z2Pos.id by exact Em.
    apply andb_true_intro. split; [apply Z.leb_le; lia | apply Z.leb_le, Hm].
Qed.

(** X12: the progress bar (lines 100-102): at every position of the loop the
    division is by a length that is not zero, and its value lies between
    0.0 and 1.0, as [progress] requires. *)
Theorem progress_in_range (idx n_old n_new : nat) :
  (idx < Nat.min n_old n_new)%nat ->
  exists value,
    progress_percent idx n_old n_new = Some value /\ progress_ok value = true.
Proof.
  intros Hidx. unfold progress_percent.
  destruct (Nat.min n_old n_new =? 0)%nat eqn:En;
    [apply Nat.eqb_eq in En; lia|].
  eexists. split; [reflexivity|]. apply ratio_at_most_one; lia.
Qed.

(** Position 10 of 30 rows against 40. *)
Lemma progress_in_range_witness :
  exists value, progress_percent 10 30 40 = Some value /\ progress_ok value = true.
Proof. apply progress_in_range. vm_compute. lia. Defined.

End ProgressFacts.

(** * Numbers with white space around them *)

Module PaddingFacts.

Import PyFloat PyFloatFacts Validator Closed ComparatorFacts ComparatorMore.

Local Abbreviation spaces sp p := (Forall (fun c : ascii => sp c = true) p).

Lemma space_is_plain (c : ascii) :
  PyStr.isspace_float c = true ->
  is_char c 95 = false /\ is_digit c = false /\ PyStr.isspace c = true.
Proof.
  destruct c as [b0 b1 b2 b3 b4 b5 b6 b7].
  destruct b0, b1, b2, b3, b4, b5, b6, b7; vm_compute; intros H;
    try discriminate H; repeat split.
Qed.

Lemma isspace_float_lower_char (c : ascii) :
  PyStr.isspace_float (PyStr.lower_char c) = PyStr.isspace_float c.
Proof.
  destruct c as [b0 b1 b2 b3 b4 b5 b6 b7].
  destruct b0, b1, b2, b3, b4, b5, b6, b7; vm_compute; reflexivity.
Qed.

Lemma list_ascii_app (a b : string) :
  list_ascii_of_string (String.append a b)
  = (list_ascii_of_string a ++ list_ascii_of_string b)%list.
Proof.
  induction a as [|c a IH]; [reflexivity|].
  change (String.append (String c a) b) with (String c (String.append a b)).
  simpl. rewrite IH. reflexivity.
Qed.

Lemma lower_app (a b : string) :
  PyStr.lower (String.append a b)
  = String.append (PyStr.lower a) (PyStr.lower b).
Proof.
  induction a as [|c a IH]; [reflexivity|].
  change (String.append (String c a) b) with (String c (String.append a b)).
  simpl. rewrite IH. reflexivity.
Qed.

(** ** Stripping *)

Section Strip.

Variable sp : ascii -> bool.

Lemma lstrip_spaces (p : list ascii) :
  spaces sp p -> PyStr.lstrip_with sp p = [].
Proof. induction 1 as [|c p Hc _ IH]; [reflexivity|]. simpl. rewrite Hc. exact IH. Qed.

Lemma lstrip_pad_l (p l : list ascii) :
  spaces sp p -> PyStr.lstrip_with sp (p ++ l) = PyStr.lstrip_with sp l.
Proof. induction 1 as [|c p Hc _ IH]; [reflexivity|]. simpl. rewrite Hc. exact IH. Qed.

Lemma lstrip_app_r (l p : list ascii) :
  PyStr.lstrip_with sp (l ++ p)
  = match PyStr.lstrip_with sp l with
    | [] => PyStr.lstrip_with sp p
    | k => (k ++ p)%list
    end.
Proof.
  induction l as [|c l IH]; [simpl; destruct (PyStr.lstrip_with sp p); reflexivity|].
  simpl. destruct (sp c); [exact IH | reflexivity].
Qed.

Lemma strip_pad (p1 l p2 : list ascii) :
  spaces sp p1 -> spaces sp p2 ->
  PyStr.strip_with sp (p1 ++ l ++ p2) = PyStr.strip_with sp l.
Proof.
  intros H1 H2. unfold PyStr.strip_with.
  rewrite lstrip_pad_l by exact H1. rewrite lstrip_app_r.
  destruct (PyStr.lstrip_with sp l) as [|c k].
  - rewrite (lstrip_spaces p2 H2). reflexivity.
  - rewrite rev_app_distr, (lstrip_pad_l (rev p2)); [reflexivity|].
    apply Forall_rev, H2.
Qed.

End Strip.

(** ** Underscores *)

Lemma drop_underscores_spaces (prev : option ascii) (p : list ascii) :
  (forall q, prev = Some q -> is_char q 95 = false) ->
  spaces PyStr.isspace_float p ->
  drop_underscores prev p = Some p.
Proof.
  intros Hprev Hp. revert prev Hprev.
  induction Hp as [|c p Hc _ IH]; intros prev Hprev.
  { destruct prev as [q|]; [|reflexivity]. simpl. rewrite (Hprev q eq_refl).
    reflexivity. }
  destruct (space_is_plain c Hc) as (Hu & _ & _).
  simpl. rewrite Hu.
  rewrite IH by (intros q [= <-]; exact Hu).
  destruct prev as [q|]; [|reflexivity].
  rewrite (Hprev q eq_refl). reflexivity.
Qed.

Lemma drop_underscores_app (prev : option ascii) (l p : list ascii) :
  spaces PyStr.isspace_float p ->
  drop_underscores prev (l ++ p)
  = option_map (fun k => (k ++ p)%list) (drop_underscores prev l).
Proof.
  intros Hp. revert prev. induction l as [|c l IH]; intros prev.
  - destruct Hp as [|c p Hc Hp].
    { simpl. destruct prev as [q|]; [destruct (is_char q 95)|]; reflexivity. }
    destruct (space_is_plain c Hc) as (Hu & Hd & _).
    assert (E : drop_underscores (Some c) p = Some p).
    { apply drop_underscores_spaces; [intros q [= <-]; exact Hu | exact Hp]. }
    simpl. rewrite Hu, Hd, E.
    destruct prev as [q|]; [destruct (is_char q 95)|]; reflexivity.
  - simpl. destruct (is_char c 95).
    + destruct prev as [q|]; [|reflexivity].
      destruct (is_digit q); [apply IH | reflexivity].
    + rewrite IH.
      destruct prev as [q|];
        [destruct (is_char q 95 && negb (is_digit c))|];
        try reflexivity;
        destruct (drop_underscores (Some c) l); reflexivity.
Qed.

Lemma drop_underscores_after_space (q : ascii) (l : list ascii) :
  PyStr.isspace_float q = true ->
  drop_underscores (Some q) l = drop_underscores None l.
Proof.
  intros Hq. destruct (space_is_plain q Hq) as (Hu & Hd & _).
  destruct l as [|c l]; simpl; rewrite ?Hu, ?Hd; [reflexivity|].
  destruct (is_char c 95); reflexivity.
Qed.

Lemma drop_underscores_pad_l (prev : option ascii) (p l : list ascii) :
  (forall q, prev = Some q -> PyStr.isspace_float q = true) ->
  spaces PyStr.isspace_float p ->
  drop_underscores prev (p ++ l)
  = option_map (fun k => (p ++ k)%list) (drop_underscores None l).
Proof.
  intros Hprev Hp. revert prev Hprev.
  induction Hp as [|c p Hc _ IH]; intros prev Hprev.
  - simpl. destruct prev as [q|].
    + rewrite (drop_underscores_after_space q l (Hprev q eq_refl)).
      destruct (drop_underscores None l); reflexivity.
    + destruct (drop_underscores None l); reflexivity.
  - destruct (space_is_plain c Hc) as (Hu & _ & _).
    simpl. rewrite Hu. rewrite IH by (intros q [= <-]; exact Hc).
    destruct prev as [q|].
    + destruct (space_is_plain q (Hprev q eq_refl)) as (Hqu & _ & _).
      rewrite Hqu. destruct (drop_underscores None l); reflexivity.
    + destruct (drop_underscores None l); reflexivity.
Qed.

Lemma has_underscore_pad (p1 l p2 : list ascii) :
  spaces PyStr.isspace_float p1 -> spaces PyStr.isspace_float p2 ->
  has_underscore (p1 ++ l ++ p2) = has_underscore l.
Proof.
  assert (H : forall p, spaces PyStr.isspace_float p -> has_underscore p = false).
  { induction 1 as [|c p Hc _ IH]; [reflexivity|].
    unfold has_underscore in *. simpl.
    rewrite (proj1 (space_is_plain c Hc)). exact IH. }
  intros H1 H2. unfold has_underscore in *.
  rewrite !existsb_app, (H p1 H1), (H p2 H2), orb_false_r. reflexivity.
Qed.

(** [float] does not see the white space around its argument. *)
Lemma float_of_string_pad (s' s : string) (p1 p2 : list ascii) :
  spaces PyStr.isspace_float p1 -> spaces PyStr.isspace_float p2 ->
  list_ascii_of_string s' = (p1 ++ list_ascii_of_string s ++ p2)%list ->
  float_of_string s' = float_of_string s.
Proof.
  intros H1 H2 E. unfold float_of_string. rewrite E.
  rewrite has_underscore_pad by assumption.
  destruct (has_underscore (list_ascii_of_string s)).
  - rewrite drop_underscores_pad_l by (assumption || discriminate).
    rewrite drop_underscores_app by assumption.
    destruct (drop_underscores None (list_ascii_of_string s)) as [k|];
      [|reflexivity].
    simpl. rewrite strip_pad by assumption. reflexivity.
  - rewrite strip_pad by assumption. reflexivity.
Qed.

Section Facts.

Variable float_repr : pyfloat -> string.
Variable timestamp_str : Z -> string.
Variable cfg : Config.

Local Abbreviation normalize := (normalize float_repr timestamp_str cfg).
Local Abbreviation safe_equals := (safe_equals float_repr timestamp_str cfg).

(** X6: the white space that [float] strips from its argument (space,
    tab, line feed, vertical tab, form feed, carriage return, U+0085 and
    U+00A0: [PyStr.isspace_float]) does not count around a number, whether
    or not [ignore_whitespace] is set: a text that is compared as a
    number compares equal to the same text with such characters before
    and after it. The separators U+001C to U+001F, which [strip] removes
    and [float] does not, are not among them. *)
Theorem number_with_spaces_around (pad1 s pad2 : string) (x : pyfloat) :
  valid_config cfg ->
  spaces PyStr.isspace_float (list_ascii_of_string pad1) ->
  spaces PyStr.isspace_float (list_ascii_of_string pad2) ->
  number_of (normalize (VStr s)) = Some x ->
  safe_equals (VStr (String.append pad1 (String.append s pad2))) (VStr s)
  = Ok true.
Proof.
  intros [Hlo _] H1 H2 Hx.
  destruct (compared_strings float_repr timestamp_str cfg
              (VStr (String.append pad1 (String.append s pad2))) (VStr s))
    as (r & Hr & ->); [lia | apply andb_false_r |].
  assert (Hpad : number_of (normalize (VStr (String.append pad1
                                               (String.append s pad2))))
                 = Some x).
  { rewrite <- Hx. unfold Validator.normalize in *. cbn [is_None str] in *.
    destruct (ignore_whitespace cfg).
    - replace (PyStr.strip (String.append pad1 (String.append s pad2)))
        with (PyStr.strip s); [reflexivity|].
      unfold PyStr.strip. rewrite !list_ascii_app.
      rewrite strip_pad; [reflexivity | |];
        (eapply Forall_impl; [eassumption|]);
        intros c Hc; apply (space_is_plain c Hc).
    - assert (Hnum : forall u q1 q2 : string,
                spaces PyStr.isspace_float (list_ascii_of_string q1) ->
                spaces PyStr.isspace_float (list_ascii_of_string q2) ->
                number_of u = Some x ->
                number_of (String.append q1 (String.append u q2)) = number_of u).
      { intros u q1 q2 Q1 Q2 Hu. unfold number_of, to_number in *.
        destruct u as [|c u]; [discriminate Hu|].
        assert (E : float_of_string (String.append q1 (String.append (String c u) q2))
                    = float_of_string (String c u)).
        { apply (float_of_string_pad _ _ (list_ascii_of_string q1)
                   (list_ascii_of_string q2)); try assumption.
          rewrite !list_ascii_app. reflexivity. }
        replace (PyStr.truthy (String.append q1 (String.append (String c u) q2)))
          with true; [cbn [PyStr.truthy]; rewrite E; reflexivity|].
        destruct q1; reflexivity. }
      destruct (ignore_case cfg).
      + rewrite !lower_app. apply Hnum; [| |exact Hx];
          rewrite lower_list_ascii; apply Forall_map;
          (eapply Forall_impl; [eassumption|]);
          intros c Hc; cbn beta; rewrite isspace_float_lower_char; exact Hc.
      + apply Hnum; assumption. }
  rewrite Hpad, Hx. f_equal. apply eqb_refl.
  destruct (number_of_bounded _ _ Hx) as [Hb Hn].
  destruct (Hr x Hb) as [_ ->]. exact Hn.
Qed.

End Facts.

(** " 1e3 " against "1e3", with white space kept. *)
Lemma number_with_spaces_around_witness :
  safe_equals (fun _ => "") (fun _ => "")
    {| ignore_case := false; ignore_whitespace := false;
       float_precision := 5; treat_nulls_equal := true |}
    (VStr " 1e3 ") (VStr "1e3") = Ok true.
Proof.
  apply (number_with_spaces_around (fun _ => "") (fun _ => "")
           {| ignore_case := false; ignore_whitespace := false;
              float_precision := 5; treat_nulls_equal := true |}
           " " "1e3" " " (S754_finite false 8796093022208000 (-43))).
  - split; discriminate.
  - repeat constructor.
  - repeat constructor.
  - vm_compute. reflexivity.
Defined.

End PaddingFacts.
